(** * ASR engine orchestration and file transcription: a shallow embedding

    The development embeds the parts of
    [src/core/asr/model_manager.py] (class [ASRModelManager]),
    [src/core/audio/file_transcriber.py] (class [FileTranscriber]) and
    [src/core/plugins/plugin_registry.py] (class [PluginRegistry]) that the
    specification talks about, and proves or refutes the specification's
    statements about them.

    Conventions of the embedding:
    - Python [str] values are [string]s of ASCII characters; [upper] and
      [lower] act on the letters a-z / A-Z and leave every other byte alone.
    - Objects are records; an attribute that may be missing ([hasattr]) is an
      [option] field.
    - Everything outside the two classes (file system, engine constructors,
      the decoder subprocess, the clock, the cancellation flag written by
      another thread) is read from an explicit [World]/oracle argument, so
      that theorems quantify over every behaviour of the collaborators.
    - Methods mutate [self]: they are functions from a state record to a
      result, a new state and the list of what they produced: the signals
      emitted and the log entries of level warning and error, one for each
      call of the logger, in order (message texts are paraphrased and carry
      no arguments; entries of level info and debug and [print] output are
      left out).
    - Float arithmetic is idealised as exact arithmetic on rationals. *)

From stdpp Require Import gmap strings list sorting.
From Stdlib Require Import ZArith QArith Qround Lia Ascii String.

Close Scope Q_scope.
Open Scope string_scope.
Open Scope list_scope.

(** ** Python string primitives *)
Module PyStr.

(** A [str] is modelled as the sequence of its characters, one [ascii] for
    each, which fits the texts of the ASCII range.  There [upper_char],
    [lower_char] and [is_space] are [str.upper], [str.lower] and
    [str.isspace]; outside it [str.upper] can return several characters and
    [str.split] knows further blanks, which the model does not follow. *)
Definition is_ascii (c : ascii) : bool := (nat_of_ascii c <? 128)%nat.

Fixpoint all_ascii (s : string) : bool :=
  match s with
  | EmptyString => true
  | String c s' => is_ascii c && all_ascii s'
  end.

(** [c.upper()] on an ASCII character. *)
Definition upper_char (c : ascii) : ascii :=
  let n := nat_of_ascii c in
  if (97 <=? n)%nat && (n <=? 122)%nat then ascii_of_nat (n - 32) else c.

(** [c.lower()] on an ASCII character. *)
Definition lower_char (c : ascii) : ascii :=
  let n := nat_of_ascii c in
  if (65 <=? n)%nat && (n <=? 90)%nat then ascii_of_nat (n + 32) else c.

(** [s.lower()] *)
Fixpoint lower (s : string) : string :=
  match s with
  | EmptyString => EmptyString
  | String c s' => String (lower_char c) (lower s')
  end.

(** [c.isspace()] on ASCII: tab, newline, vertical tab, form feed,
    carriage return, the four separators 0x1c-0x1f and the blank. *)
Definition is_space (c : ascii) : bool :=
  let n := nat_of_ascii c in
  ((9 <=? n)%nat && (n <=? 13)%nat) || ((28 <=? n)%nat && (n <=? 32)%nat).

(** [s.startswith(p)] *)
Fixpoint startswith (p s : string) : bool :=
  match p, s with
  | EmptyString, _ => true
  | String a p', String b s' => if Ascii.eqb a b then startswith p' s' else false
  | String _ _, EmptyString => false
  end.

(** [sub in s] *)
Fixpoint contains (sub s : string) : bool :=
  startswith sub s ||
  match s with
  | EmptyString => false
  | String _ s' => contains sub s'
  end.

(** [s.endswith(p)] *)
Definition endswith (p s : string) : bool :=
  let ls := String.length s in
  let lp := String.length p in
  (lp <=? ls)%nat && String.eqb (String.substring (ls - lp) lp s) p.

(** [s[-1]], defined for non-empty [s]. *)
Fixpoint last_char (s : string) : option ascii :=
  match s with
  | EmptyString => None
  | String c EmptyString => Some c
  | String _ s' => last_char s'
  end.

(** [s[:-1]] *)
Fixpoint drop_last (s : string) : string :=
  match s with
  | EmptyString => EmptyString
  | String _ EmptyString => EmptyString
  | String c s' => String c (drop_last s')
  end.

(** [s.split()]: the maximal runs of non-whitespace characters, in order.
    [cur] is the run being read. *)
Fixpoint split_from (cur : string) (s : string) : list string :=
  match s with
  | EmptyString => if String.eqb cur EmptyString then [] else [cur]
  | String c s' =>
      if is_space c
      then (if String.eqb cur EmptyString then split_from EmptyString s' else cur :: split_from EmptyString s')
      else split_from (cur +:+ String c EmptyString) s'
  end.

Definition split (s : string) : list string := split_from EmptyString s.

(** [x in xs] for a list of strings. *)
Definition str_in (x : string) (xs : list string) : bool :=
  existsb (String.eqb x) xs.

(** [" ".join(xs)] *)
Fixpoint join_space (xs : list string) : string :=
  match xs with
  | [] => EmptyString
  | [x] => x
  | x :: rest => x +:+ " " +:+ join_space rest
  end.

(** No character of [s] is whitespace. *)
Fixpoint no_space (s : string) : bool :=
  match s with
  | EmptyString => true
  | String c s' => negb (is_space c) && no_space s'
  end.

(** Truthiness of a [str]. *)
Definition truthy (s : string) : bool := negb (String.eqb s EmptyString).

(** Truthiness of an [Optional[str]]. *)
Definition truthy_opt (o : option string) : bool :=
  match o with Some s => truthy s | None => false end.

End PyStr.

(** ** [FileTranscriber._format_text] *)
Module FormatText.
Import PyStr.

Definition terminal_punctuation : list ascii :=
  ["."; "?"; "!"; ","; ";"; ":"; "-"]%char.

Definition question_starters : list string :=
  ["what"; "who"; "where"; "when"; "why"; "how"; "is"; "are"; "do"; "does";
   "did"; "can"; "could"; "will"; "would"].

(** [text[0].upper() + text[1:]] *)
Definition capitalize_first (text : string) : string :=
  match text with
  | EmptyString => EmptyString
  | String c rest => String (upper_char c) rest
  end.

(** [text[-1] not in ['.', '?', '!', ',', ';', ':', '-']] *)
Definition ends_in_punctuation (text : string) : bool :=
  match last_char text with
  | Some c => existsb (Ascii.eqb c) terminal_punctuation
  | None => false
  end.

(** [if text[-1] not in [...]: text += '.'] *)
Definition ensure_period (text : string) : string :=
  if ends_in_punctuation text then text else text +:+ ".".

(** [words and words[0].lower() in question_starters] *)
Definition starts_with_question_word (text : string) : bool :=
  match split text with
  | [] => false
  | w :: _ => str_in (lower w) question_starters
  end.

(** [if text[-1] == '.': text = text[:-1] + '?'] *)
Definition period_to_question (text : string) : string :=
  match last_char text with
  | Some c => if Ascii.eqb c "."%char then drop_last text +:+ "?" else text
  | None => text
  end.

Definition _format_text (text : string) : string :=
  if negb (truthy text) then text
  else
    let text := capitalize_first text in
    let text := ensure_period text in
    if starts_with_question_word text then period_to_question text else text.

(** Text shaping as the specification words it, for comparison with
    [_format_text]: the question mark is decided by the first word of the
    text that is being shaped. *)
Definition shape_as_stated (text : string) : string :=
  if negb (truthy text) then text
  else
    let shaped := ensure_period (capitalize_first text) in
    if starts_with_question_word text then period_to_question shaped else shaped.

End FormatText.

(** ** [FileTranscriber]: stopping, cleanup and the worker job *)
Module FileTranscriber.
Import PyStr FormatText.

(** The signals of [TranscriptionSignals] the class emits.  Message texts of
    [status_updated], [error_occurred] and [progress_updated] are left out;
    [new_text] carries the shaped text without the bracketed header line. *)
Inductive signal : Type :=
| transcription_started
| transcription_finished
| error_occurred
| status_updated
| progress_updated (percent : Z)
| new_text (text : string)
| new_text_no_result.

(** What a method does to the outside: signals, subprocess and thread
    control, file removal, warnings and errors written to the log. *)
Inductive effect : Type :=
| Emit (s : signal)
| Terminate (pid : nat)
| Kill (pid : nat)
| Join (tid : nat)
| Remove (path : string)
| Warn (msg : string)
| LogError (msg : string).

(** The attributes set in [__init__]; the two booleans record whether the
    signals object has the optional signals tested with [hasattr]. *)
Record transcriber : Type := mkTranscriber {
  signals_has_started : bool;
  signals_has_finished : bool;
  is_transcribing : bool;
  transcription_thread : option nat;
  temp_files : list string;
  ffmpeg_process : option nat
}.

Definition set_is_transcribing (b : bool) (self : transcriber) : transcriber :=
  mkTranscriber (signals_has_started self) (signals_has_finished self) b
    (transcription_thread self) (temp_files self) (ffmpeg_process self).

Definition set_transcription_thread (t : option nat) (self : transcriber) : transcriber :=
  mkTranscriber (signals_has_started self) (signals_has_finished self)
    (is_transcribing self) t (temp_files self) (ffmpeg_process self).

Definition set_temp_files (fs : list string) (self : transcriber) : transcriber :=
  mkTranscriber (signals_has_started self) (signals_has_finished self)
    (is_transcribing self) (transcription_thread self) fs (ffmpeg_process self).

Definition set_ffmpeg_process (p : option nat) (self : transcriber) : transcriber :=
  mkTranscriber (signals_has_started self) (signals_has_finished self)
    (is_transcribing self) (transcription_thread self) (temp_files self) p.

(** The operating system as the transcriber sees it. *)
Record OS : Type := mkOS {
  (* [terminate()] then [wait(timeout=...)] return without raising *)
  terminate_wait_ok : nat -> bool;
  (* [kill()] in [stop_transcription], which guards it, returns without
     raising; the worker calls [kill()] unguarded and is taken not to fail *)
  kill_ok : nat -> bool;
  (* [thread.is_alive()] before the join, and after [join(timeout=1.0)] *)
  thread_alive : nat -> bool;
  thread_alive_after_join : nat -> bool;
  (* [os.path.exists] *)
  file_exists : string -> bool
}.

(** [_cleanup_temp_files]: removes every temporary file that still exists
    (a failing removal is printed and skipped) and empties the list. *)
Definition _cleanup_temp_files (os : OS) (self : transcriber)
  : transcriber * list effect :=
  (set_temp_files [] self,
   flat_map (fun f => if file_exists os f then [Remove f] else []) (temp_files self)).

(** The [if self.ffmpeg_process:] block of [stop_transcription]. *)
Definition stop_ffmpeg (os : OS) (proc : option nat) : list effect :=
  match proc with
  | Some pid =>
      if terminate_wait_ok os pid then [Terminate pid]
      else if kill_ok os pid then [Terminate pid; Warn "ffmpeg timeout"; Kill pid]
      else [Terminate pid; Warn "ffmpeg timeout"; Kill pid; LogError "kill failed"]
  | None => []
  end.

(** The [if self.transcription_thread and ...is_alive():] block. *)
Definition join_thread (os : OS) (thr : option nat) : list effect :=
  match thr with
  | Some tid =>
      if thread_alive os tid then
        if thread_alive_after_join os tid then [Join tid; Warn "thread still running"]
        else [Join tid]
      else []
  | None => []
  end.

(** [stop_transcription]: result, new attributes, effects in order. *)
Definition stop_transcription (os : OS) (self : transcriber)
  : bool * transcriber * list effect :=
  if negb (is_transcribing self) then
    (false, self, [Warn "no transcription in progress"])
  else
    let e1 := stop_ffmpeg os (ffmpeg_process self) in
    let e2 := join_thread os (transcription_thread self) in
    let self1 := set_transcription_thread None
                   (set_ffmpeg_process None (set_is_transcribing false self)) in
    let '(self2, e3) := _cleanup_temp_files os self1 in
    let e4 := if signals_has_finished self then [Emit transcription_finished] else [] in
    (true, self2, e1 ++ e2 ++ e3 ++ e4).

(** *** The worker job *)

(** [int(x)] on a float, idealised as truncation of an exact rational. *)
Definition py_int (q : Q) : Z := Z.quot (Qnum q) (Z.pos (Qden q)).

(** What [recognizer.AcceptWaveform(chunk)] followed by
    [json.loads(recognizer.Result())] gives for one chunk. *)
Inductive accept_outcome : Type :=
| AcceptRaises
| NoUtterance
| Utterance (text : string).

(** Everything the worker reads from outside while it runs. *)
Record JobWorld : Type := mkJobWorld {
  (* [hasattr(recognizer, 'transcribe_file')] *)
  recognizer_has_transcribe_file : bool;
  (* result of [model_manager.transcribe_file(file_path)]; [None]: it raises *)
  manager_result : option (option string);
  (* the probed duration in seconds *)
  duration : Q;
  (* [self.is_transcribing] as read at the n-th test; another thread clears it *)
  flag : nat -> bool;
  (* [time.time()] at the n-th call *)
  clock : nat -> Q;
  (* [tempfile.mkstemp] succeeds *)
  mkstemp_ok : bool;
  (* [subprocess.Popen] of the converter succeeds *)
  popen_ok : bool;
  (* [subprocess.Popen] of the decoder succeeds *)
  decoder_popen_ok : bool;
  (* number of 0.1 s waits before the converter exits, and its return code *)
  conv_waits : nat;
  conv_returncode : Z;
  (* the successive [stdout.read(4000)] results of the decoder *)
  pcm_stream : list string;
  (* the recognizer on the i-th collected chunk *)
  accept_waveform : nat -> accept_outcome;
  (* stripped text of [recognizer.FinalResult()]; [None]: it raises *)
  final_result : option string;
  job_os : OS
}.

(** How a worker function ended. *)
Inductive ending : Type :=
| Completed          (* ran to its last statement *)
| Stopped            (* returned early: conversion failed or job cancelled *)
| Raised.            (* an exception escaped *)

(** Test counters threaded through the job: flag reads and clock reads. *)
Record counters : Type := mkCounters { polls : nat; ticks : nat }.

(** The polling loop of [_convert_to_wav]: [true] when the converter
    exited by itself, [false] when the flag was found cleared. *)
Fixpoint wait_converter (w : JobWorld) (waits : nat) (p : nat) : bool * nat :=
  match waits with
  | O => (true, p)
  | S n => if flag w p then wait_converter w n (S p) else (false, S p)
  end.

(** Name of the file made by [tempfile.mkstemp(suffix='.wav')], and the
    process ids of the converter and of the decoder. *)
Definition temp_wav : string := "tmp.wav".
Definition converter_pid : nat := 0.
Definition decoder_pid : nat := 1.

(** [_convert_to_wav]: the temporary WAV path on success, the attributes
    after the call, the flag reads used, and the effects. *)
Definition _convert_to_wav (w : JobWorld) (self : transcriber) (c : counters)
  : option string * transcriber * counters * list effect :=
  if negb (mkstemp_ok w) then (None, self, c, [Emit error_occurred])
  else
    let self := set_temp_files (temp_files self ++ [temp_wav]) self in
    let pre := [Emit status_updated; Emit (progress_updated 5)] in
    if negb (popen_ok w) then (None, self, c, pre ++ [Emit error_occurred])
    else
      let self := set_ffmpeg_process (Some converter_pid) self in
      let '(finished, p) := wait_converter w (conv_waits w) (polls c) in
      let c' := mkCounters p (ticks c) in
      if negb finished then
        (None, self, c',
         pre ++ (if terminate_wait_ok (job_os w) converter_pid then [Terminate converter_pid]
                 else [Terminate converter_pid; Kill converter_pid]))
      else if negb (conv_returncode w =? 0)%Z
      then (None, self, c', pre ++ [Emit error_occurred])
      else (Some temp_wav, self, c', pre ++ [Emit (progress_updated 20)]).

(** [20 + min(30, int((total_bytes / (16000 * 2) / duration) * 30))];
    [None] is the [ZeroDivisionError] of a zero duration.  The arithmetic is
    exact: the rounding of the float operations, and the error [int] raises
    on a quotient that overflowed, are not followed. *)
Definition read_progress (total_bytes : Z) (d : Q) : option Z :=
  if Qeq_bool d 0 then None
  else
    let current_position := (inject_Z total_bytes / inject_Z (16000 * 2))%Q in
    Some (20 + Z.min 30 (py_int ((current_position / d) * 30)%Q))%Z.

(** [50 + min(49, int((i / total_chunks) * 49))], in exact arithmetic
    (where the float product is rounded to just below an integer, as for
    chunk 1 of 49, the code emits one less). *)
Definition process_progress (i total_chunks : nat) : Z :=
  (50 + Z.min 49 (py_int ((inject_Z (Z.of_nat i) / inject_Z (Z.of_nat total_chunks)) * 49)%Q))%Z.

(** State of the reading loop, and of the processing loop. *)
Record read_state : Type := mkRead {
  all_chunks : list string;
  total_bytes : Z;
  last_update_time : Q;
  read_counters : counters
}.

(** The [while self.is_transcribing:] loop over the decoder output.
    [None]: an exception escaped. *)
Fixpoint read_loop (w : JobWorld) (stream : list string) (st : read_state)
  : option read_state * list effect :=
  let c := read_counters st in
  if negb (flag w (polls c)) then
    (Some (mkRead (all_chunks st) (total_bytes st) (last_update_time st)
             (mkCounters (S (polls c)) (ticks c))), [])
  else
    let c1 := mkCounters (S (polls c)) (ticks c) in
    match stream with
    | [] => (Some (mkRead (all_chunks st) (total_bytes st) (last_update_time st) c1), [])
    | chunk :: rest =>
        if negb (truthy chunk) then
          (Some (mkRead (all_chunks st) (total_bytes st) (last_update_time st) c1), [])
        else
          let chunks' := all_chunks st ++ [chunk] in
          let total' := (total_bytes st + Z.of_nat (String.length chunk))%Z in
          let current_time := clock w (ticks c) in
          let c2 := mkCounters (S (polls c)) (S (ticks c)) in
          if Qle_bool (2 # 10) (current_time - last_update_time st) then
            match read_progress total' (duration w) with
            | None => (None, [])
            | Some progress =>
                let '(r, es) := read_loop w rest (mkRead chunks' total' current_time c2) in
                (r, Emit (progress_updated progress) :: es)
            end
          else read_loop w rest (mkRead chunks' total' (last_update_time st) c2)
    end.

Record process_state : Type := mkProcess {
  all_results : list string;
  process_last_update : Q;
  process_counters : counters
}.

(** The [for i, chunk in enumerate(all_chunks):] loop. *)
Fixpoint process_loop (w : JobWorld) (chunks : list string) (i total_chunks : nat)
  (st : process_state) : option process_state * list effect :=
  match chunks with
  | [] => (Some st, [])
  | _ :: rest =>
      let c := process_counters st in
      if negb (flag w (polls c)) then
        (Some (mkProcess (all_results st) (process_last_update st)
                 (mkCounters (S (polls c)) (ticks c))), [Warn "stopped"])
      else
        match accept_waveform w i with
        | AcceptRaises => (None, [])
        | outcome =>
            let results' :=
              match outcome with
              | Utterance text => if truthy text then all_results st ++ [text] else all_results st
              | _ => all_results st
              end in
            let shown :=
              match outcome with
              | Utterance text =>
                  if truthy text && (List.length results' mod 5 =? 0)%nat
                  then [Emit (new_text (_format_text (join_space results')))] else []
              | _ => []
              end in
            let current_time := clock w (ticks c) in
            let c2 := mkCounters (S (polls c)) (S (ticks c)) in
            if Qle_bool (2 # 10) (current_time - process_last_update st) then
              let '(r, es) := process_loop w rest (S i) total_chunks
                                (mkProcess results' current_time c2) in
              (r, shown ++ Emit (progress_updated (process_progress i total_chunks)) :: es)
            else
              let '(r, es) := process_loop w rest (S i) total_chunks
                                (mkProcess results' (process_last_update st) c2) in
              (r, shown ++ es)
        end
  end.

(** [_transcribe_file_with_vosk] *)
Definition _transcribe_file_with_vosk (w : JobWorld) (self : transcriber)
  : ending * transcriber * list effect :=
  let e0 := [Emit status_updated; Emit status_updated] in
  let '(wav_file, self, c, e1) := _convert_to_wav w self (mkCounters 0 0) in
  let finish_early (msg : string) (self : transcriber) (es : list effect) :=
    (* [sherpa_logger.warning(...); self.signals.transcription_finished.emit(); return] *)
    if signals_has_finished self
    then (Stopped, self, es ++ [Warn msg; Emit transcription_finished])
    else (Raised, self, es ++ [Warn msg]) in
  match wav_file with
  | None => finish_early "conversion failed or stopped" self (e0 ++ e1)
  | Some _ =>
      if negb (flag w (polls c))
      then finish_early "conversion failed or stopped" self (e0 ++ e1)
      else
        let e2 := [Emit status_updated] in
        let start_time := clock w (ticks c) in
        let c := mkCounters (S (polls c)) (S (ticks c)) in
        if negb (decoder_popen_ok w) then (Raised, self, e0 ++ e1 ++ e2)
        else
        let self := set_ffmpeg_process (Some decoder_pid) self in
        match read_loop w (pcm_stream w) (mkRead [] 0 start_time c) with
        | (None, e3) => (Raised, self, e0 ++ e1 ++ e2 ++ e3)
        | (Some rd, e3) =>
            let e4 :=
              if terminate_wait_ok (job_os w) decoder_pid then [Terminate decoder_pid]
              else [Terminate decoder_pid; Kill decoder_pid] in
            let self := set_ffmpeg_process None self in
            let c := read_counters rd in
            if negb (flag w (polls c))
            then finish_early "stopped" self (e0 ++ e1 ++ e2 ++ e3 ++ e4)
            else
              let c := mkCounters (S (polls c)) (ticks c) in
              let e5 := [Emit status_updated] in
              match process_loop w (all_chunks rd) 0 (List.length (all_chunks rd))
                      (mkProcess [] (last_update_time rd) c) with
              | (None, e6) => (Raised, self, e0 ++ e1 ++ e2 ++ e3 ++ e4 ++ e5 ++ e6)
              | (Some pr, e6) =>
                  match final_result w with
                  | None => (Raised, self, e0 ++ e1 ++ e2 ++ e3 ++ e4 ++ e5 ++ e6)
                  | Some final_text =>
                      let results :=
                        if truthy final_text then all_results pr ++ [final_text]
                        else all_results pr in
                      let shown :=
                        match results with
                        | [] => [Warn "no result"; Emit new_text_no_result]
                        | _ => [Emit (new_text (_format_text (join_space results)))]
                        end in
                      (Completed, self,
                       e0 ++ e1 ++ e2 ++ e3 ++ e4 ++ e5 ++ e6 ++ shown ++
                       [Emit (progress_updated 100); Emit status_updated])
                  end
              end
        end
  end.

(** [_transcribe_file_with_manager], called when the recognizer has
    [transcribe_file] (the test of it at the head of the method has been made
    by the caller). *)
Definition _transcribe_file_with_manager (w : JobWorld) (self : transcriber)
  : ending * transcriber * list effect :=
  let e0 := [Emit status_updated;
             Emit status_updated; Emit (progress_updated 10);
             Emit status_updated; Emit (progress_updated 20)] in
  match manager_result w with
  | None => (Raised, self, e0)
  | Some result =>
      let shown :=
        match result with
        | Some text => if truthy text then [Emit (new_text (_format_text text))]
                       else [Warn "no result"; Emit new_text_no_result]
        | None => [Warn "no result"; Emit new_text_no_result]
        end in
      (Completed, self,
       e0 ++ [Emit status_updated; Emit (progress_updated 90)] ++ shown ++
       [Emit (progress_updated 100); Emit status_updated])
  end.

(** [_transcribe_file_thread]: dispatch, then the [except] and [finally]
    clauses. *)
Definition _transcribe_file_thread (w : JobWorld) (self : transcriber)
  : ending * transcriber * list effect :=
  let '(e, self1, es) :=
    if recognizer_has_transcribe_file w
    then _transcribe_file_with_manager w self
    else _transcribe_file_with_vosk w self in
  let on_error := match e with Raised => [Emit error_occurred] | _ => [] end in
  let '(self2, cleanup) := _cleanup_temp_files (job_os w) self1 in
  let self3 := set_is_transcribing false self2 in
  let fin := if signals_has_finished self then [Emit transcription_finished] else [] in
  (e, self3, es ++ on_error ++ cleanup ++ fin).

(** The percent values of the [progress_updated] signals, in emission order. *)
Definition progress_values (es : list effect) : list Z :=
  flat_map (fun e => match e with Emit (progress_updated p) => [p] | _ => [] end) es.

(** A list of percent values that never decreases. *)
Definition nondecreasing (vs : list Z) : Prop := StronglySorted Z.le vs.

(** A non-decreasing list whose values all lie between [lo] and [hi]. *)
Definition rises_within (lo hi : Z) (vs : list Z) : Prop :=
  nondecreasing vs /\ Forall (fun v => lo <= v <= hi)%Z vs.

(** What a worker function must establish about its progress values:
    they never decrease, lie between 0 and 100, and end with 100 when the
    function ran to its last statement. *)
Definition job_progress_ok (e : ending) (es : list effect) : Prop :=
  rises_within 0 100 (progress_values es) /\
  (e = Completed -> last (progress_values es) = Some 100%Z).

(** *** Sample inputs *)

Definition quiet_os : OS :=
  mkOS (fun _ => true) (fun _ => true) (fun _ => false) (fun _ => false) (fun _ => true).

(** A transcriber on which no job is running, with a temporary file left
    over from an earlier job. *)
Definition idle_transcriber : transcriber :=
  mkTranscriber true true false None ["left.wav"] None.

(** A transcriber in the middle of a job. *)
Definition busy_transcriber : transcriber :=
  mkTranscriber true true true (Some 7) ["job.wav"] (Some 3).

(** A ten-second file decoded into three chunks, the clock advancing by
    half a second per reading, a recognizer that hears "what is this" in
    the second chunk, and no cancellation. *)
Definition sample_job : JobWorld :=
  mkJobWorld false None (10 # 1)%Q (fun _ => true)
    (fun n => inject_Z (Z.of_nat n) / 2)%Q
    true true true 2 0
    ["aaaa"; "bbbb"; "cc"]
    (fun i => if (i =? 1)%nat then Utterance "what is this" else NoUtterance)
    (Some EmptyString) quiet_os.

(** The same job with a negative probed duration. *)
Definition negative_duration_job : JobWorld :=
  mkJobWorld false None (-1 # 65536)%Q (fun _ => true)
    (fun n => inject_Z (Z.of_nat n) / 2)%Q
    true true true 2 0
    ["aaaa"; "bbbb"; "cc"]
    (fun i => if (i =? 1)%nat then Utterance "what is this" else NoUtterance)
    (Some EmptyString) quiet_os.

(** *** Starting a job *)

(** What [start_transcription] reads from outside: whether the file
    exists, what probing gives ([None]: [os.path.getsize], [ffprobe], the JSON
    decoding or the [float] conversion raises), whether the thread can be
    started, and the identity of the thread object made. *)
Record StartWorld : Type := mkStartWorld {
  start_file_exists : bool;
  probe : option Q;
  thread_start_ok : bool;
  new_thread : nat
}.

(** [start_transcription(file_path, recognizer)]: result, attributes
    afterwards, effects.  The worker it starts runs on its own
    ([_transcribe_file_thread]). *)
Definition start_transcription (sw : StartWorld) (self : transcriber)
  : bool * transcriber * list effect :=
  if is_transcribing self then (false, self, [Warn "already transcribing"])
  else if negb (start_file_exists sw) then
    (false, self, [LogError "file missing"; Emit error_occurred])
  else
    let self := set_is_transcribing true self in
    let e1 := if signals_has_started self then [Emit transcription_started] else [] in
    let failed (self : transcriber) (es : list effect) :=
      (false, set_is_transcribing false self,
       es ++ [LogError "file information"; LogError "traceback"; Emit error_occurred] ++
       (if signals_has_finished self then [Emit transcription_finished] else [])) in
    match probe sw with
    | None => failed self e1
    | Some _ =>
        let e2 := [Emit status_updated] in
        let self := set_transcription_thread (Some (new_thread sw)) self in
        if thread_start_ok sw then (true, self, e1 ++ e2)
        else failed self (e1 ++ e2)
    end.

(** Number of [transcription_finished] signals among the effects. *)
Fixpoint count_finished (es : list effect) : nat :=
  match es with
  | [] => 0
  | Emit transcription_finished :: rest => S (count_finished rest)
  | _ :: rest => count_finished rest
  end.

(** Total number of bytes of a list of chunks. *)
Definition sum_lengths (chunks : list string) : Z :=
  fold_right (fun c acc => (Z.of_nat (String.length c) + acc)%Z) 0%Z chunks.

(** The non-empty utterance texts the recognizer gives for the [k] chunks
    from index [i] on, in order. *)
Fixpoint heard (w : JobWorld) (i k : nat) : list string :=
  match k with
  | O => []
  | S k' =>
      match accept_waveform w i with
      | Utterance text => if truthy text then text :: heard w (S i) k' else heard w (S i) k'
      | _ => heard w (S i) k'
      end
  end.

End FileTranscriber.

(** ** [ASRModelManager] *)
Module ASRModelManager.
Import PyStr.

(** The concrete class of an engine object, as [isinstance] sees it. *)
Inductive engine_class : Type := VoskASR | SherpaOnnxASR | OtherEngine.

#[global] Instance engine_class_eq_dec : EqDecision engine_class.
Proof. solve_decision. Defined.

(** An engine object: its class and the attributes the manager inspects.
    [None] in an [option] field means the object has no such attribute.
    [vosk_model] and [vosk_recognizer] are the truth values of [.model] and
    [.recognizer]; [has_transcribe_file] is [hasattr(e, 'transcribe_file')].
    [object_id] tells two objects with equal attributes apart. *)
Record engine : Type := mkEngine {
  object_id : nat;
  engine_class_of : engine_class;
  engine_type : option string;
  model_dir : option string;
  is_int8 : option bool;
  model_config : option (gmap string string);
  vosk_model : bool;
  vosk_recognizer : bool;
  has_transcribe_file : bool
}.

Definition set_engine_type (t : string) (e : engine) : engine :=
  mkEngine (object_id e) (engine_class_of e) (Some t) (model_dir e) (is_int8 e)
    (model_config e) (vosk_model e) (vosk_recognizer e) (has_transcribe_file e).

Definition as_class (c : engine_class) (e : engine) : engine :=
  mkEngine (object_id e) c (engine_type e) (model_dir e) (is_int8 e)
    (model_config e) (vosk_model e) (vosk_recognizer e) (has_transcribe_file e).

(** One entry of [models_config]: the keys the manager reads.
    [cfg_enabled] is the truth value of [model_config.get("enabled", False)]
    (an empty entry is not enabled, so [not model_config or not enabled]
    is [negb cfg_enabled]). *)
Record model_cfg : Type := mkCfg {
  cfg_path : option string;
  cfg_type : option string;
  cfg_enabled : bool
}.

(** The attributes of the manager. *)
Record manager : Type := mkManager {
  models_config : gmap string model_cfg;
  current_model : bool;
  current_model_type : option string;
  model_type : option string;
  current_engine : option engine;
  current_device : option string;
  is_recognizing : bool
}.

Definition set_model_type (t : option string) (s : manager) : manager :=
  mkManager (models_config s) (current_model s) (current_model_type s) t
    (current_engine s) (current_device s) (is_recognizing s).

Definition set_current_engine (e : option engine) (s : manager) : manager :=
  mkManager (models_config s) (current_model s) (current_model_type s) (model_type s)
    e (current_device s) (is_recognizing s).

Definition set_current_model_type (t : option string) (s : manager) : manager :=
  mkManager (models_config s) (current_model s) t (model_type s)
    (current_engine s) (current_device s) (is_recognizing s).

Definition set_current_model (b : bool) (s : manager) : manager :=
  mkManager (models_config s) b (current_model_type s) (model_type s)
    (current_engine s) (current_device s) (is_recognizing s).

Definition set_is_recognizing (b : bool) (s : manager) : manager :=
  mkManager (models_config s) (current_model s) (current_model_type s) (model_type s)
    (current_engine s) (current_device s) b.

(** Signals emitted and log entries of level warning and error. *)
Inductive event : Type :=
| model_loaded (ok : bool)
| recognition_started
| recognition_stopped
| error_occurred
| status_updated
| log_warning (msg : string)
| log_error (msg : string).

(** The collaborators: file system, engine classes, file transcription. *)
Record World : Type := mkWorld {
  (* [os.path.exists], [os.path.isdir] *)
  path_exists : string -> bool;
  path_isdir : string -> bool;
  (* [VoskASR(path)]; [None]: the constructor raises *)
  VoskASR_init : string -> option engine;
  (* [SherpaOnnxASR(path, {"type": t, "name": n})]; [None]: it raises *)
  SherpaOnnxASR_init : string -> gmap string string -> option engine;
  (* [engine.setup()]: the object afterwards and the result; [None]: it raises *)
  SherpaOnnxASR_setup : engine -> engine * option bool;
  (* [engine.transcribe_file(path)]; [None]: it raises *)
  engine_transcribe_file : engine -> string -> option (option string);
  (* routing a non-WAV file through a [FileTranscriber] on the loaded engine:
     whether the five-minute wait ran out, and the joined texts received
     ([None]: none received); [None]: setting the transcriber up raises *)
  pipeline_transcribe : engine -> string -> option (bool * option string)
}.

(** [os.path.join(a, b)] for a relative [b], with separator [/]. *)
Definition path_join (a b : string) : string :=
  if negb (truthy a) then b
  else if endswith "/" a then a +:+ b
  else a +:+ "/" +:+ b.

(** A method of the manager: reads and updates [self], appends events. *)
Definition M (A : Type) : Type := manager -> A * manager * list event.

Definition ret {A : Type} (a : A) : M A := fun s => (a, s, []).

Definition bind {A B : Type} (m : M A) (f : A -> M B) : M B :=
  fun s =>
    let '(a, s1, l1) := m s in
    let '(b, s2, l2) := f a s1 in
    (b, s2, l1 ++ l2).

Definition get : M manager := fun s => (s, s, []).
Definition modify (f : manager -> manager) : M unit := fun s => (tt, f s, []).
Definition tell (e : event) : M unit := fun s => (tt, s, [e]).
Definition tell_all (evs : list event) : M unit := fun s => (tt, s, evs).
Definition when (b : bool) (m : M unit) : M unit := if b then m else ret tt.

Notation "x <- m ;; k" := (bind m (fun x => k))
  (at level 62, m at next level, right associativity).
Notation "m ;;; k" := (bind m (fun _ => k))
  (at level 62, right associativity).

(** The file names of a three-component transducer model. *)
Definition sherpa_required_files (is_0626 is_int8_model : bool) : list string :=
  let base_names := ["encoder"; "decoder"; "joiner"] in
  (if is_0626 then
     map (fun base =>
            let suffix := "-epoch-99-avg-1-chunk-16-left-128" in
            if is_int8_model then base +:+ suffix +:+ ".int8.onnx"
            else base +:+ suffix +:+ ".onnx") base_names
   else
     map (fun base =>
            if is_int8_model then base +:+ "-epoch-99-avg-1.int8.onnx"
            else base +:+ "-epoch-99-avg-1.onnx") base_names)
  ++ ["tokens.txt"].

(** The directory check of a Vosk model: [am/final.mdl] under the path. *)
Definition vosk_layout_ok (w : World) (model_path : string) : bool :=
  if path_exists w model_path && path_isdir w model_path then
    let am_dir := path_join model_path "am" in
    if path_exists w am_dir && path_isdir w am_dir then
      path_exists w (path_join am_dir "final.mdl")
    else false
  else false.

(** The file check of a Sherpa model of kind [kind]. *)
Definition sherpa_layout_ok (w : World) (self : manager) (model_path kind : string) : bool :=
  let config_model_type :=
    match models_config self !! kind with
    | Some cfg => match cfg_type cfg with Some t => lower t | None => "standard" end
    | None => "standard"
    end in
  let is_int8_model := String.eqb config_model_type "int8" in
  let is_0626 := contains "0626" kind in
  forallb (fun file => path_exists w (path_join model_path file))
    (sherpa_required_files is_0626 is_int8_model).

(** [validate_model_files(model_path, model_type)]: the value returned.
    The error entry it logs when it fails is [validate_model_files_log]. *)
Definition validate_model_files (w : World) (self : manager)
  (model_path : string) (model_type_arg : option string) : bool :=
  let kind := match model_type_arg with None => model_type self | Some t => Some t end in
  if negb (path_exists w model_path) then false
  else if bool_decide (kind = Some "vosk_small") || contains "vosk" (lower model_path)
  then vosk_layout_ok w model_path
  else
    match kind with
    | Some k =>
        if truthy k && startswith "sherpa" k then sherpa_layout_ok w self model_path k
        else false
    | None => false
    end.

(** [_validate_model_path(model_path, model_type)]: the value returned.
    The error entry it logs when it fails is [_validate_model_path_log]. *)
Definition _validate_model_path (w : World) (self : manager)
  (model_path : string) (model_type_arg : option string) : bool :=
  if negb (truthy model_path) then false
  else if negb (path_exists w model_path) then false
  else
    let kind := match model_type_arg with None => model_type self | Some t => Some t end in
    if bool_decide (kind = Some "vosk_small") then vosk_layout_ok w model_path
    else
      match kind with
      | Some k =>
          if truthy k && startswith "sherpa" k then sherpa_layout_ok w self model_path k
          else false
      | None => false
      end.

(** The error entries the validators write with [logger.error] before a
    [return False]: one entry for each failing check, none when the check
    passes. *)
Definition vosk_layout_log (w : World) (model_path : string) : list event :=
  if path_exists w model_path && path_isdir w model_path then
    let am_dir := path_join model_path "am" in
    if path_exists w am_dir && path_isdir w am_dir then
      if path_exists w (path_join am_dir "final.mdl") then []
      else [log_error "vosk model lacks am/final.mdl"]
    else [log_error "vosk model lacks directory am"]
  else [log_error "vosk model directory invalid"].

(** The loop over the required files stops at the first missing one. *)
Definition sherpa_layout_log (w : World) (self : manager) (model_path kind : string)
  : list event :=
  if sherpa_layout_ok w self model_path kind then []
  else [log_error "model file missing"].

Definition validate_model_files_log (w : World) (self : manager)
  (model_path : string) (model_type_arg : option string) : list event :=
  let kind := match model_type_arg with None => model_type self | Some t => Some t end in
  if negb (path_exists w model_path) then [log_error "model path missing"]
  else if bool_decide (kind = Some "vosk_small") || contains "vosk" (lower model_path)
  then vosk_layout_log w model_path
  else
    match kind with
    | Some k =>
        if truthy k && startswith "sherpa" k then sherpa_layout_log w self model_path k
        else [log_error "unsupported model type"]
    | None => [log_error "unsupported model type"]
    end.

Definition _validate_model_path_log (w : World) (self : manager)
  (model_path : string) (model_type_arg : option string) : list event :=
  if negb (truthy model_path) then [log_error "model path empty"]
  else if negb (path_exists w model_path) then [log_error "model path missing"]
  else
    let kind := match model_type_arg with None => model_type self | Some t => Some t end in
    if bool_decide (kind = Some "vosk_small") then vosk_layout_log w model_path
    else
      match kind with
      | Some k =>
          if truthy k && startswith "sherpa" k then sherpa_layout_log w self model_path k
          else [log_error "unsupported model type"]
      | None => [log_error "unsupported model type"]
      end.

(** A call of a method that only reads [self]: its value and its log. *)
Definition logged {A : Type} (value : manager -> A) (log : manager -> list event) : M A :=
  fun s => (value s, s, log s).

(** The calls [self.validate_model_files(...)] and
    [self._validate_model_path(...)]. *)
Definition validate_model_files_call (w : World) (model_path : string)
  (model_type_arg : option string) : M bool :=
  logged (fun self => validate_model_files w self model_path model_type_arg)
         (fun self => validate_model_files_log w self model_path model_type_arg).

Definition _validate_model_path_call (w : World) (model_path : string)
  (model_type_arg : option string) : M bool :=
  logged (fun self => _validate_model_path w self model_path model_type_arg)
         (fun self => _validate_model_path_log w self model_path model_type_arg).

(** [is_int8] as the validators compute it for kind [kind]: the lower-cased
    [type] of its configuration entry, ["standard"] by default, is "int8". *)
Definition configured_int8 (self : manager) (kind : string) : bool :=
  String.eqb
    match models_config self !! kind with
    | Some cfg => match cfg_type cfg with Some t => lower t | None => "standard" end
    | None => "standard"
    end "int8".

Definition is_Some_bool {A : Type} (o : option A) : bool :=
  match o with Some _ => true | None => false end.

Definition is_instance (c : engine_class) (e : option engine) : bool :=
  match e with
  | Some e => bool_decide (engine_class_of e = c)
  | None => false
  end.

(** [hasattr(e, 'is_int8') and e.is_int8] *)
Definition int8_flag (e : engine) : bool :=
  match is_int8 e with Some b => b | None => false end.

(** [getattr(e, 'model_dir', '')] *)
Definition model_dir_of (e : engine) : string :=
  match model_dir e with Some d => d | None => EmptyString end.

(** The consistency test of a declared [model_type] against the loaded
    engine (the computation of [is_match]). *)
Definition is_match (declared : string) (e : engine) : bool :=
  if bool_decide (engine_class_of e = SherpaOnnxASR) then
    if contains "0626" declared then
      if contains "0626" (model_dir_of e) || contains "2023-06-26" (model_dir_of e) then
        if contains "int8" declared && int8_flag e then true
        else if negb (contains "int8" declared) && negb (int8_flag e) then true
        else false
      else false
    else
      if contains "int8" declared && int8_flag e then true
      else if contains "std" declared && negb (int8_flag e) then true
      else false
  else false.

(** The engine type inferred from the engine object alone. *)
Definition infer_engine_type (eo : option engine) : option string :=
  match eo with
  | None => None
  | Some e =>
      if bool_decide (engine_class_of e = VoskASR) then Some "vosk_small"
      else if truthy_opt (engine_type e) then engine_type e
      else if bool_decide (engine_class_of e = SherpaOnnxASR) then
        match model_config e with
        | Some cfg =>
            if bool_decide (cfg = ∅) then
              if contains "0626" (model_dir_of e) || contains "2023-06-26" (model_dir_of e)
              then (if int8_flag e then Some "sherpa_0626_int8" else Some "sherpa_0626_std")
              else (if int8_flag e then Some "sherpa_onnx_int8" else Some "sherpa_onnx_std")
            else if bool_decide (cfg !! "name" = Some "0626") then
              (if bool_decide (cfg !! "type" = Some "int8")
               then Some "sherpa_0626_int8" else Some "sherpa_0626_std")
            else
              (if bool_decide (cfg !! "type" = Some "int8")
               then Some "sherpa_onnx_int8" else Some "sherpa_onnx_std")
        | None =>
            if contains "0626" (model_dir_of e) || contains "2023-06-26" (model_dir_of e)
            then (if int8_flag e then Some "sherpa_0626_int8" else Some "sherpa_0626_std")
            else (if int8_flag e then Some "sherpa_onnx_int8" else Some "sherpa_onnx_std")
        end
      else None
  end.

(** For a [VoskASR] engine: set its [engine_type] attribute to
    ["vosk_small"] when it has one with another value. *)
Definition fix_vosk_engine_type (e : engine) : engine :=
  match engine_type e with
  | Some t => if bool_decide (t = "vosk_small") then e else set_engine_type "vosk_small" e
  | None => e
  end.

Definition warn_rematch : string := "engine does not match model_type, inferring again".
Definition warn_mismatch : string := "model_type differs from inferred engine type".
Definition warn_keep : string := "keeping current model_type".

(** [get_current_engine_type()] *)
Definition get_current_engine_type : M (option string) :=
  self <- get ;;
  if is_instance VoskASR (current_engine self) then
    modify (fun s => set_current_engine (fix_vosk_engine_type <$> current_engine s) s) ;;;
    when (bool_decide (model_type self ≠ Some "vosk_small"))
      (modify (set_model_type (Some "vosk_small"))) ;;;
    ret (Some "vosk_small")
  else
    matched <-
      match model_type self, current_engine self with
      | Some declared, Some e =>
          if truthy declared then
            if is_match declared e then ret true
            else tell (log_warning warn_rematch) ;;; ret false
          else ret false
      | _, _ => ret false
      end ;;
    if (matched : bool) then ret (model_type self)
    else
      when (is_instance VoskASR (current_engine self))
        (modify (fun s => set_current_engine (fix_vosk_engine_type <$> current_engine s) s)) ;;;
      let inferred := infer_engine_type (current_engine self) in
      if truthy_opt (model_type self) && truthy_opt inferred
         && bool_decide (model_type self ≠ inferred) then
        tell (log_warning warn_mismatch) ;;;
        tell (log_warning warn_keep) ;;;
        ret (model_type self)
      else if negb (truthy_opt (model_type self)) && truthy_opt inferred then
        modify (set_model_type inferred) ;;;
        ret inferred
      else if truthy_opt inferred then ret inferred
      else if truthy_opt (model_type self) then ret (model_type self)
      else ret None.

(** The [type] and [name] handed to [SherpaOnnxASR] for an engine type. *)
Definition sherpa_kind (engine_type_arg : string) : string * string :=
  if String.eqb engine_type_arg "sherpa_0626_int8" then ("int8", "0626")
  else if String.eqb engine_type_arg "sherpa_0626_std"
          || String.eqb engine_type_arg "sherpa_0626" then ("standard", "0626")
  else ((if String.eqb engine_type_arg "sherpa_int8" then "int8" else "standard"),
        EmptyString).

(** How the construction part of [initialize_engine] ended. *)
Inductive construction : Type :=
| Constructed        (* go on to the engine-type check *)
| ReturnedFalse      (* a [return False] *)
| RaisedToOuter.     (* an exception caught by the outer [except] *)

(** The [VoskASR] branch of [initialize_engine]. *)
Definition construct_vosk (w : World) (cfg : model_cfg) (engine_type_arg : string)
  : M construction :=
  match cfg_path cfg with
  | None => ret RaisedToOuter
  | Some path =>
      if negb (path_exists w path) then
        tell (log_error "vosk model path missing") ;;; ret ReturnedFalse
      else
        valid <- _validate_model_path_call w path (Some engine_type_arg) ;;
        if negb valid then
          tell (log_error "vosk model path invalid") ;;; ret ReturnedFalse
        else
        match VoskASR_init w path with
        | None =>
            tell (log_error "VoskASR raised") ;;;
            tell (log_error "traceback") ;;;
            ret ReturnedFalse
        | Some e0 =>
            let e := as_class VoskASR e0 in
            modify (set_current_engine (Some e)) ;;;
            if negb (vosk_model e) || negb (vosk_recognizer e) then
              tell (log_error "VoskASR has no model or recognizer") ;;; ret ReturnedFalse
            else
              modify (set_current_engine (Some (set_engine_type "vosk_small" e))) ;;;
              ret Constructed
        end
  end.

(** The [SherpaOnnxASR] branch of [initialize_engine]. *)
Definition construct_sherpa (w : World) (cfg : model_cfg) (engine_type_arg : string)
  : M construction :=
  match cfg_path cfg with
  | None => ret RaisedToOuter
  | Some path =>
      if negb (path_exists w path) then
        tell (log_error "sherpa model path missing") ;;; ret ReturnedFalse
      else
        valid <- _validate_model_path_call w path (Some engine_type_arg) ;;
        if negb valid then
          tell (log_error "sherpa model path invalid") ;;; ret ReturnedFalse
        else
        let '(kind, name) := sherpa_kind engine_type_arg in
        match SherpaOnnxASR_init w path (<["type" := kind]> (<["name" := name]> ∅)) with
        | None => tell (log_error "SherpaOnnxASR raised") ;;; ret ReturnedFalse
        | Some e0 =>
            let e := as_class SherpaOnnxASR e0 in
            modify (set_current_engine (Some e)) ;;;
            let '(e1, result) := SherpaOnnxASR_setup w e in
            modify (set_current_engine (Some (as_class SherpaOnnxASR e1))) ;;;
            match result with
            | Some true => ret Constructed
            | Some false => tell (log_error "setup failed") ;;; ret ReturnedFalse
            | None => tell (log_error "setup raised") ;;; ret ReturnedFalse
            end
        end
  end.

(** The last part of [initialize_engine]: compare the resolved engine type
    with the requested one and reconcile. *)
Definition reconcile_engine_type (engine_type_arg : string) : M unit :=
  current_engine_type <- get_current_engine_type ;;
  when (bool_decide (current_engine_type ≠ Some engine_type_arg))
    (tell (log_warning "engine type after initialisation differs from the request") ;;;
     self <- get ;;
     if String.eqb engine_type_arg "vosk_small" then
       modify (fun s =>
                 set_current_engine
                   ((fun e => match engine_type e with
                              | Some _ => set_engine_type "vosk_small" e
                              | None => e
                              end) <$> current_engine s) s) ;;;
       modify (set_model_type (Some "vosk_small"))
     else if truthy_opt (model_type self)
             && bool_decide (model_type self = Some engine_type_arg) then
       modify (fun s =>
                 set_current_engine
                   ((fun e => match engine_type e with
                              | Some _ => set_engine_type engine_type_arg e
                              | None => e
                              end) <$> current_engine s) s)
     else modify (set_model_type current_engine_type)).

(** [initialize_engine(engine_type)] *)
Definition initialize_engine (w : World) (engine_type_arg : string) : M bool :=
  self <- get ;;
  redirected <-
    match model_type self with
    | Some declared =>
        if truthy declared && negb (String.eqb declared engine_type_arg) then
          tell (log_warning "model type differs from engine type") ;;;
          tell (log_warning "model type differs from requested engine type") ;;;
          ret declared
        else ret engine_type_arg
    | None => ret engine_type_arg
    end ;;
  let engine_type_arg := redirected in
  match models_config self !! engine_type_arg with
  | None => tell (log_error "engine not configured") ;;; ret false
  | Some cfg =>
      if negb (cfg_enabled cfg) then tell (log_error "engine not enabled") ;;; ret false
      else
        outcome <-
          (if String.eqb engine_type_arg "vosk" || String.eqb engine_type_arg "vosk_small"
           then construct_vosk w cfg engine_type_arg
           else if startswith "sherpa" engine_type_arg
           then construct_sherpa w cfg engine_type_arg
           else tell (log_error "unsupported engine type") ;;; ret ReturnedFalse) ;;
        match outcome with
        | ReturnedFalse => ret false
        | RaisedToOuter =>
            tell (log_error "engine initialisation raised") ;;;
            tell (log_error "traceback") ;;;
            tell (model_loaded false) ;;;
            ret false
        | Constructed =>
            reconcile_engine_type engine_type_arg ;;;
            tell (model_loaded true) ;;;
            ret true
        end
  end.

(** [load_model(model_name)] *)
Definition load_model (w : World) (model_name : string) : M bool :=
  self <- get ;;
  match models_config self !! model_name with
  | None => tell (log_error "model not in configuration") ;;; ret false
  | Some cfg =>
      let model_path := match cfg_path cfg with Some p => p | None => EmptyString end in
      if negb (truthy model_path) then tell (log_error "model path empty") ;;; ret false
      else if negb (path_exists w model_path) then
        tell (log_error "model path missing") ;;; ret false
      else
        valid <- validate_model_files_call w model_path (Some model_name) ;;
        if negb valid then tell (log_error "model files invalid") ;;; ret false
        else
        modify (set_current_model_type (Some model_name)) ;;;
        (if String.eqb model_name "vosk_small"
         then modify (set_model_type (Some "vosk_small"))
         else modify (set_model_type (Some model_name))) ;;;
        ok <- initialize_engine w model_name ;;
        if negb ok then tell (log_error "engine initialisation failed") ;;; ret false
        else
          modify (set_current_model true) ;;;
          tell (model_loaded true) ;;;
          tell status_updated ;;;
          ret true
  end.

(** The [try] block at the end of [transcribe_file]: the result and the
    warnings and errors logged. *)
Definition delegate_file (w : World) (e : engine) (engine_type_now : option string)
  (file_path : string) : option string * list event :=
  if negb (path_exists w file_path) then (None, [log_error "file missing"])
  else
    let '(outcome, evs) :=
      if bool_decide (engine_type_now = Some "vosk_small") then
        if negb (endswith ".wav" (lower file_path)) then
          match pipeline_transcribe w e file_path with
          | None => (None, [log_warning "file is not WAV"])
          | Some (timed_out, result) =>
              (Some result,
               [log_warning "file is not WAV"]
               ++ (if (timed_out : bool) then [log_warning "transcription timed out"] else [])
               ++ (if is_Some_bool result then []
                   else [log_warning "file transcriber gave no result"]))
          end
        else (engine_transcribe_file w e file_path, [])
      else (engine_transcribe_file w e file_path, []) in
    match outcome with
    | Some result =>
        (result,
         evs ++ (if truthy_opt result then [] else [log_warning "transcription result empty"]))
    | None =>
        (None, evs ++ [log_error "file transcription raised"; log_error "traceback"])
    end.

(** [transcribe_file(file_path)] *)
Definition transcribe_file (w : World) (file_path : string) : M (option string) :=
  self <- get ;;
  when (negb (is_Some_bool (current_engine self)))
    (match model_type self with
     | Some declared =>
         if truthy declared then initialize_engine w declared ;;; ret tt
         else initialize_engine w "vosk_small" ;;; ret tt
     | None => initialize_engine w "vosk_small" ;;; ret tt
     end) ;;;
  self <- get ;;
  match current_engine self with
  | None => tell (log_error "no ASR engine") ;;; ret None
  | Some _ =>
      engine_type_now <- get_current_engine_type ;;
      self <- get ;;
      checked <-
        (if truthy_opt (model_type self) && truthy_opt engine_type_now
            && bool_decide (model_type self ≠ engine_type_now) then
           tell (log_warning "model type differs from engine type") ;;;
           ok <- initialize_engine w (default EmptyString (model_type self)) ;;
           if negb ok then
             tell (log_error "engine re-initialisation failed") ;;;
             tell (log_error "cannot transcribe with the chosen model type") ;;;
             tell (log_error "check the model type and the model files") ;;;
             ret None
           else
             engine_type_again <- get_current_engine_type ;;
             self <- get ;;
             if bool_decide (engine_type_again ≠ model_type self) then
               tell (log_error "engine type still differs") ;;;
               tell (log_error "cannot transcribe with the chosen model type") ;;;
               ret None
             else ret (Some engine_type_again)
         else ret (Some engine_type_now)) ;;
      match checked with
      | None => ret None
      | Some engine_type_now =>
          self <- get ;;
          match current_engine self with
          | Some e =>
              if negb (has_transcribe_file e) then
                tell (log_error "engine does not support file transcription") ;;;
                tell (log_error "choose a model that supports file transcription") ;;;
                ret None
              else
                let '(result, evs) := delegate_file w e engine_type_now file_path in
                tell_all evs ;;; ret result
          | None =>
              tell (log_error "engine does not support file transcription") ;;;
              tell (log_error "choose a model that supports file transcription") ;;;
              ret None
          end
      end
  end.

(** [start_recognition()] *)
Definition start_recognition : M bool :=
  self <- get ;;
  if negb (is_Some_bool (current_engine self)) then
    tell (log_error "engine not initialised") ;;; tell error_occurred ;;; ret false
  else if negb (truthy_opt (current_device self)) then
    tell (log_error "no audio device") ;;; tell error_occurred ;;; ret false
  else if is_recognizing self then
    tell (log_warning "recognition already running") ;;; ret true
  else
    modify (set_is_recognizing true) ;;;
    tell recognition_started ;;;
    tell status_updated ;;;
    ret true.

(** [stop_recognition()] *)
Definition stop_recognition : M bool :=
  self <- get ;;
  if negb (is_recognizing self) then
    tell (log_warning "recognition not running") ;;; ret true
  else
    modify (set_is_recognizing false) ;;;
    tell recognition_stopped ;;;
    tell status_updated ;;;
    ret true.

(** Number of [recognition_stopped] signals among the events. *)
Fixpoint count_stopped (evs : list event) : nat :=
  match evs with
  | [] => 0
  | recognition_stopped :: rest => S (count_stopped rest)
  | _ :: rest => count_stopped rest
  end.

(** Whether [load_model] got as far as an engine constructor that returned
    an object (which [initialize_engine] stores in [current_engine] before
    it checks it). *)
Definition adapter_constructed (w : World) (model_name : string) (cfg : model_cfg) : bool :=
  match cfg_path cfg with
  | None => false
  | Some path =>
      if String.eqb model_name "vosk" || String.eqb model_name "vosk_small"
      then is_Some_bool (VoskASR_init w path)
      else if startswith "sherpa" model_name
      then is_Some_bool
             (SherpaOnnxASR_init w path
                (<["type" := (sherpa_kind model_name).1]>
                   (<["name" := (sherpa_kind model_name).2]> ∅)))
      else false
  end.

(** An event that is only a log entry, not a signal. *)
Definition is_log (ev : event) : bool :=
  match ev with
  | log_warning _ | log_error _ => true
  | _ => false
  end.

(** The engine object after [get_current_engine_type] has looked at it. *)
Definition engine_after_resolve (e : engine) : engine :=
  if bool_decide (engine_class_of e = VoskASR) then fix_vosk_engine_type e else e.

(** *** Sample inputs *)

Definition sample_config : gmap string model_cfg :=
  <["vosk_small" := mkCfg (Some "/models/vosk-small") None true]>
    (<["sherpa_onnx_int8" := mkCfg (Some "/models/vosk-backup/sherpa-int8") (Some "int8") true]>
       (<["sherpa_onnx_std" := mkCfg (Some "/models/sherpa-std") (Some "standard") true]> ∅)).

(** The manager right after [__init__] with default model ["vosk_small"]. *)
Definition fresh_manager : manager :=
  mkManager sample_config false None (Some "vosk_small") None None false.

(** A file system holding a complete Vosk model, a complete int8 Sherpa
    model whose directory name happens to contain "vosk", and a standard
    Sherpa model. *)
Definition sample_files : list string :=
  ["/models/vosk-small"; "/models/vosk-small/am"; "/models/vosk-small/am/final.mdl";
   "/models/vosk-backup/sherpa-int8";
   "/models/vosk-backup/sherpa-int8/encoder-epoch-99-avg-1.int8.onnx";
   "/models/vosk-backup/sherpa-int8/decoder-epoch-99-avg-1.int8.onnx";
   "/models/vosk-backup/sherpa-int8/joiner-epoch-99-avg-1.int8.onnx";
   "/models/vosk-backup/sherpa-int8/tokens.txt";
   "/models/sherpa-std";
   "/models/sherpa-std/encoder-epoch-99-avg-1.onnx";
   "/models/sherpa-std/decoder-epoch-99-avg-1.onnx";
   "/models/sherpa-std/joiner-epoch-99-avg-1.onnx";
   "/models/sherpa-std/tokens.txt";
   "/audio/talk.wav"].

Definition sample_dirs : list string :=
  ["/models/vosk-small"; "/models/vosk-small/am";
   "/models/vosk-backup/sherpa-int8"; "/models/sherpa-std"].

(** A working Vosk engine without whole-file transcription, and the object
    a [SherpaOnnxASR] constructor returns. *)
Definition vosk_engine : engine :=
  mkEngine 1 VoskASR (Some "vosk_small") None None None true true false.

Definition sherpa_std_engine : engine :=
  mkEngine 2 SherpaOnnxASR None (Some "/models/sherpa-std") (Some false)
    (Some (<["type" := "standard"]> (<["name" := EmptyString]> ∅))) false false true.

(** A world in which the constructors return these objects and
    [setup()] of the Sherpa engine fails. *)
Definition sample_world : World :=
  mkWorld (fun p => str_in p sample_files) (fun p => str_in p sample_dirs)
    (fun _ => Some vosk_engine)
    (fun _ _ => Some sherpa_std_engine)
    (fun e => (e, Some false))
    (fun _ _ => Some (Some "hello world"))
    (fun _ _ => Some (false, None)).

(** A manager with the Vosk engine loaded. *)
Definition vosk_manager : manager :=
  mkManager sample_config true (Some "vosk_small") (Some "vosk_small")
    (Some vosk_engine) (Some "loopback") true.

(** A Vosk engine loaded while an int8 Sherpa model is declared. *)
Definition vosk_under_sherpa : manager :=
  mkManager sample_config true (Some "sherpa_onnx_int8") (Some "sherpa_onnx_int8")
    (Some vosk_engine) None false.

(** A standard Sherpa engine loaded while the int8 model is declared. *)
Definition std_under_int8 : manager :=
  mkManager sample_config true (Some "sherpa_onnx_int8") (Some "sherpa_onnx_int8")
    (Some sherpa_std_engine) None false.

(** An engine whose int8 flag is set but whose [model_config] says
    standard, under the declared int8 model: the consistency test accepts
    it although the inferred type differs. *)
Definition int8_flagged_engine : engine :=
  mkEngine 3 SherpaOnnxASR None (Some "/models/vosk-backup/sherpa-int8") (Some true)
    (Some (<["type" := "standard"]> (<["name" := EmptyString]> ∅))) false false true.

Definition flagged_under_int8 : manager :=
  mkManager sample_config true (Some "sherpa_onnx_int8") (Some "sherpa_onnx_int8")
    (Some int8_flagged_engine) None false.

(** What [initialize_engine] leaves in [current_engine] when it succeeds
    for the declared type [t]. *)
Definition engine_installed (t : string) (e : engine) : Prop :=
  (t = "vosk_small" /\ engine_class_of e = VoskASR /\
   engine_type e = Some "vosk_small" /\ vosk_model e = true /\ vosk_recognizer e = true)
  \/ (startswith "sherpa" t = true /\ engine_class_of e = SherpaOnnxASR).

(** *** Audio device and engine list *)

Definition set_current_device (d : option string) (s : manager) : manager :=
  mkManager (models_config s) (current_model s) (current_model_type s) (model_type s)
    (current_engine s) d (is_recognizing s).

(** [set_audio_device(device)].  A device descriptor is represented by a
    non-empty string; [None] and the empty string stand for the values that
    are false in a condition ([None], an empty descriptor). *)
Definition set_audio_device (device : option string) : M bool :=
  if negb (truthy_opt device) then
    tell (log_error "audio device empty") ;;; tell error_occurred ;;; ret false
  else
    modify (set_current_device device) ;;;
    tell status_updated ;;;
    ret true.

(** [bool(model_config and model_config.get("enabled", False))] for the
    entry of [name], [False] when there is none. *)
Definition engine_enabled (self : manager) (name : string) : bool :=
  match models_config self !! name with
  | Some cfg => cfg_enabled cfg
  | None => false
  end.

(** [get_available_engines()]: the five entries in the order the method
    writes them. *)
Definition get_available_engines (self : manager) : gmap string bool :=
  <["sherpa_0626_std" := engine_enabled self "sherpa_0626_std"]>
    (<["sherpa_0626_int8" := engine_enabled self "sherpa_0626_int8"]>
       (<["sherpa_onnx_std" := engine_enabled self "sherpa_onnx_std"]>
          (<["sherpa_onnx_int8" := engine_enabled self "sherpa_onnx_int8"]>
             (<["vosk_small" := engine_enabled self "vosk_small"]> ∅)))).

(** *** [_load_sherpa_model] *)

(** The [config] section of a Sherpa model configuration: the file-name
    keys.  (Its numeric keys only travel to the recognizer factory.) *)
Record sherpa_section : Type := mkSection {
  sec_encoder : option string;
  sec_decoder : option string;
  sec_joiner : option string;
  sec_tokens : option string
}.

(** The [model_config] argument of [_load_sherpa_model]. *)
Record sherpa_model_config : Type := mkSherpaConfig {
  smc_type : option string;
  smc_name : option string;
  smc_section : sherpa_section
}.

(** [os.path.isabs] *)
Definition isabs (p : string) : bool := startswith "/" p.

(** [f if os.path.isabs(f) else os.path.join(model_path, f)] *)
Definition under (model_path f : string) : string :=
  if isabs f then f else path_join model_path f.

(** The encoder, decoder and joiner files [_load_sherpa_model] asks for. *)
Definition sherpa_model_files (model_path : string) (cfg : sherpa_model_config)
  : string * string * string :=
  let model_type_l := lower (default "int8" (smc_type cfg)) in
  let model_name := default EmptyString (smc_name cfg) in
  let is_int8_model := String.eqb model_type_l "int8" in
  let is_0626 :=
    contains "0626" model_name || (truthy model_path && contains "2023-06-26" model_path) in
  match sec_encoder (smc_section cfg), sec_decoder (smc_section cfg),
        sec_joiner (smc_section cfg) with
  | Some enc, Some dec, Some joi =>
      (under model_path enc, under model_path dec, under model_path joi)
  | _, _, _ =>
      if is_0626 then
        ("encoder-epoch-99-avg-1-chunk-16-left-128.onnx",
         "decoder-epoch-99-avg-1-chunk-16-left-128.onnx",
         "joiner-epoch-99-avg-1-chunk-16-left-128.onnx")
      else
        ((if is_int8_model then "encoder-epoch-99-avg-1.int8.onnx"
          else "encoder-epoch-99-avg-1.onnx"),
         (if is_int8_model then "decoder-epoch-99-avg-1.int8.onnx"
          else "decoder-epoch-99-avg-1.onnx"),
         (if is_int8_model then "joiner-epoch-99-avg-1.int8.onnx"
          else "joiner-epoch-99-avg-1.onnx"))
  end.

(** [_load_sherpa_model(model_path, model_config)]: the value returned (its
    log entries are not followed).  [has_sherpa_onnx] is
    the module flag [HAS_SHERPA_ONNX]; [from_transducer] is
    [sherpa_onnx.OnlineRecognizer.from_transducer] on the four files
    ([None]: it raises); a recognizer is represented by a number. *)
Definition _load_sherpa_model (w : World) (has_sherpa_onnx : bool)
  (from_transducer : string -> string -> string -> string -> option nat)
  (model_path : string) (cfg : sherpa_model_config) : option nat :=
  if negb has_sherpa_onnx then None
  else
    let '(encoder_file, decoder_file, joiner_file) := sherpa_model_files model_path cfg in
    let tokens_file := under model_path (default "tokens.txt" (sec_tokens (smc_section cfg))) in
    if forallb (path_exists w) [encoder_file; decoder_file; joiner_file; tokens_file]
    then from_transducer encoder_file decoder_file joiner_file tokens_file
    else None.

(** The encoder file names [_load_sherpa_model] falls back to. *)
Definition default_encoder_names : list string :=
  ["encoder-epoch-99-avg-1-chunk-16-left-128.onnx";
   "encoder-epoch-99-avg-1.int8.onnx";
   "encoder-epoch-99-avg-1.onnx"].

(** The [config] section names all three model files. *)
Definition names_all_files (sec : sherpa_section) : bool :=
  is_Some_bool (sec_encoder sec) && is_Some_bool (sec_decoder sec)
  && is_Some_bool (sec_joiner sec).

(** A manager with the standard Sherpa engine loaded under its own name. *)
Definition std_manager : manager :=
  mkManager sample_config true (Some "sherpa_onnx_std") (Some "sherpa_onnx_std")
    (Some sherpa_std_engine) None false.

(** The manager with the Vosk engine loaded, the entry of the standard
    Sherpa model switched off in its configuration. *)
Definition std_disabled_manager : manager :=
  mkManager
    (<["sherpa_onnx_std" := mkCfg (Some "/models/sherpa-std") (Some "standard") false]>
       sample_config)
    true (Some "vosk_small") (Some "vosk_small") (Some vosk_engine) (Some "loopback") true.

End ASRModelManager.

(** ** [PluginRegistry] *)
Module PluginRegistry.

(** A plugin class: a name to tell classes apart, the [co_argcount] of its
    [__init__] ([None]: [__init__] has no [__code__], so reading it raises),
    and what calling the class gives, with the configuration ([Some]) or
    without arguments ([None]); the result [None] means the call raises.  An
    instance is represented by a number. *)
Record plugin_class : Type := mkPluginClass {
  class_name : string;
  init_argcount : option nat;
  instantiate : option (gmap string string) -> option nat
}.

(** The registry: the [_plugins] dictionary. *)
Record registry : Type := mkRegistry {
  _plugins : gmap string plugin_class
}.

(** [register_plugin(name, plugin_class)]: the registry afterwards and
    whether the overwrite warning was logged. *)
Definition register_plugin (name : string) (c : plugin_class) (r : registry)
  : registry * bool :=
  (mkRegistry (<[name := c]> (_plugins r)),
   match _plugins r !! name with Some _ => true | None => false end).

(** [get_plugin_class(name)] *)
Definition get_plugin_class (r : registry) (name : string) : option plugin_class :=
  _plugins r !! name.

(** [create_plugin(name, config)] *)
Definition create_plugin (r : registry) (name : string) (config : gmap string string)
  : option nat :=
  match get_plugin_class r name with
  | None => None
  | Some c =>
      match init_argcount c with
      | None => None
      | Some n => if (1 <? n)%nat then instantiate c (Some config) else instantiate c None
      end
  end.

(** [list_plugins()] *)
Definition list_plugins (r : registry) : gmap string plugin_class := _plugins r.

(** [_register_builtin_plugins] on the empty registry of [__init__]. *)
Definition builtin_registry (vosk_plugin sherpa_plugin : plugin_class) : registry :=
  (register_plugin "sherpa_0626" sherpa_plugin
     (register_plugin "sherpa_onnx" sherpa_plugin
        (register_plugin "vosk_small" vosk_plugin (mkRegistry ∅)).1).1).1.

End PluginRegistry.

(* ================================================================== *)
(* THEOREMS *)

(** ** Facts about the string primitives *)
Section PyStrFacts.
Import PyStr.

Lemma upper_char_idem (c : ascii) : upper_char (upper_char c) = upper_char c.
Proof. destruct c as [[] [] [] [] [] [] [] []]; reflexivity. Qed.

Lemma lower_upper_char (c : ascii) : lower_char (upper_char c) = lower_char c.
Proof. destruct c as [[] [] [] [] [] [] [] []]; reflexivity. Qed.

Lemma is_space_upper_char (c : ascii) : is_space (upper_char c) = is_space c.
Proof. destruct c as [[] [] [] [] [] [] [] []]; reflexivity. Qed.

Lemma append_cons (c : ascii) (s t : string) :
  String c s +:+ t = String c (s +:+ t).
Proof. reflexivity. Qed.

Lemma append_nil_l (t : string) : EmptyString +:+ t = t.
Proof. reflexivity. Qed.

Lemma append_nil_r (s : string) : s +:+ EmptyString = s.
Proof.
  induction s as [|c s IH]; [reflexivity |].
  now rewrite append_cons, IH.
Qed.

Lemma append_assoc (a b c : string) : (a +:+ b) +:+ c = a +:+ (b +:+ c).
Proof.
  induction a as [|x a IH]; [reflexivity |].
  now rewrite !append_cons, IH.
Qed.

Lemma last_char_cons (x y : ascii) (s : string) :
  last_char (String x (String y s)) = last_char (String y s).
Proof. reflexivity. Qed.

Lemma drop_last_cons (x y : ascii) (s : string) :
  drop_last (String x (String y s)) = String x (drop_last (String y s)).
Proof. reflexivity. Qed.

Lemma last_char_snoc (s : string) (c : ascii) :
  last_char (s +:+ String c EmptyString) = Some c.
Proof.
  induction s as [|x s IH]; [reflexivity |].
  rewrite append_cons. destruct s as [|y s']; [reflexivity |].
  rewrite append_cons in *. now rewrite last_char_cons.
Qed.

Lemma drop_last_snoc (s : string) (c : ascii) :
  drop_last (s +:+ String c EmptyString) = s.
Proof.
  induction s as [|x s IH]; [reflexivity |].
  rewrite append_cons. destruct s as [|y s']; [reflexivity |].
  rewrite append_cons in *. now rewrite drop_last_cons, IH.
Qed.

(** A non-empty string is its [s[:-1]] followed by its [s[-1]]. *)
Lemma drop_last_last_char (s : string) (c : ascii) :
  last_char s = Some c -> s = drop_last s +:+ String c EmptyString.
Proof.
  induction s as [|x s IH]; [discriminate |].
  destruct s as [|y s'].
  - intros [= ->]. reflexivity.
  - rewrite last_char_cons, drop_last_cons, append_cons. intros H.
    now rewrite <- IH.
Qed.

Lemma lower_app (a b : string) : lower (a +:+ b) = lower a +:+ lower b.
Proof.
  induction a as [|x a IH]; [reflexivity |].
  rewrite !append_cons. simpl. now rewrite IH, append_cons.
Qed.

(** Reading a run of non-blank characters extends the current word. *)
Lemma split_from_word (w rest cur : string) :
  no_space w = true ->
  split_from cur (w +:+ rest) = split_from (cur +:+ w) rest.
Proof.
  revert cur. induction w as [|c w IH]; intros cur Hw.
  - now rewrite append_nil_r.
  - simpl in Hw. apply andb_prop in Hw as [Hc Hw].
    apply negb_true_iff in Hc. rewrite append_cons. simpl.
    rewrite Hc, IH by exact Hw.
    now rewrite append_assoc.
Qed.

(** The first element of [split] when the text starts with a word that is
    followed by a whitespace character. *)
Lemma split_first_word (w rest : string) (sp : ascii) :
  w <> EmptyString -> no_space w = true -> is_space sp = true ->
  split (w +:+ String sp rest) = w :: split rest.
Proof.
  intros Hne Hw Hsp. unfold split.
  rewrite split_from_word by exact Hw. rewrite append_nil_l. simpl. rewrite Hsp.
  destruct w as [|c w']; [congruence | reflexivity].
Qed.

End PyStrFacts.

(** ** Text shaping *)
Section FormatTextFacts.
Import PyStr FormatText.

Lemma format_text_cons (c : ascii) (t : string) :
  _format_text (String c t) =
  let u := ensure_period (String (upper_char c) t) in
  if starts_with_question_word u then period_to_question u else u.
Proof. reflexivity. Qed.

Lemma ensure_period_cons (a : ascii) (t : string) :
  ensure_period (String a t) =
  String a (if ends_in_punctuation (String a t) then t else t +:+ ".").
Proof.
  unfold ensure_period. destruct (ends_in_punctuation (String a t)); reflexivity.
Qed.

Lemma ends_in_punctuation_ensure (s : string) :
  ends_in_punctuation (ensure_period s) = true.
Proof.
  unfold ensure_period. destruct (ends_in_punctuation s) eqn:E; [exact E |].
  unfold ends_in_punctuation. now rewrite last_char_snoc.
Qed.

Lemma ensure_period_id (s : string) :
  ends_in_punctuation s = true -> ensure_period s = s.
Proof. unfold ensure_period. now intros ->. Qed.

Lemma period_to_question_id (s : string) :
  last_char s <> Some "."%char -> period_to_question s = s.
Proof.
  unfold period_to_question. destruct (last_char s) as [c|]; [|reflexivity].
  destruct (Ascii.eqb_spec c "."%char) as [->|]; [congruence | reflexivity].
Qed.

(** A text that is already shaped is left alone. *)
Lemma format_text_fixed (a : ascii) (t : string) :
  upper_char a = a ->
  ends_in_punctuation (String a t) = true ->
  (starts_with_question_word (String a t) = true ->
   last_char (String a t) <> Some "."%char) ->
  _format_text (String a t) = String a t.
Proof.
  intros Ha He Hq. rewrite format_text_cons, Ha. cbv zeta.
  rewrite (ensure_period_id _ He).
  destruct (starts_with_question_word (String a t)) eqn:Eq; [|reflexivity].
  apply period_to_question_id, Hq. reflexivity.
Qed.

(** The period of a one-character text is never replaced. *)
Lemma question_needs_two_chars (a : ascii) :
  starts_with_question_word (String a EmptyString) = true ->
  last_char (String a EmptyString) <> Some "."%char.
Proof. intros H [= ->]. vm_compute in H. discriminate. Qed.

(** The shaped text starts with the capitalised first character. *)
Lemma format_text_head (c : ascii) (t : string) :
  exists t', _format_text (String c t) = String (upper_char c) t'
             /\ ends_in_punctuation (String (upper_char c) t') = true
             /\ (starts_with_question_word (String (upper_char c) t') = true ->
                 last_char (String (upper_char c) t') <> Some "."%char).
Proof.
  rewrite format_text_cons. cbv zeta.
  pose proof (ends_in_punctuation_ensure (String (upper_char c) t)) as He.
  rewrite ensure_period_cons in *.
  set (a := upper_char c) in *.
  set (t1 := if ends_in_punctuation (String a t) then t else t +:+ ".") in *.
  destruct (starts_with_question_word (String a t1)) eqn:Eq.
  - unfold period_to_question.
    destruct (last_char (String a t1)) as [l|] eqn:El.
    + destruct (Ascii.eqb_spec l "."%char) as [->|Hl].
      * destruct t1 as [|y t2].
        { exfalso. now apply (question_needs_two_chars a). }
        rewrite drop_last_cons, append_cons.
        exists (drop_last (String y t2) +:+ "?").
        assert (Hlast : last_char (String a (drop_last (String y t2) +:+ "?"))
                        = Some "?"%char).
        { rewrite <- append_cons. apply last_char_snoc. }
        split; [reflexivity |]. split.
        -- unfold ends_in_punctuation. now rewrite Hlast.
        -- intros _. rewrite Hlast. discriminate.
      * exists t1. split; [reflexivity |]. split; [exact He |].
        intros _. rewrite El. congruence.
    + exists t1. split; [reflexivity |]. split; [exact He |].
      intros _. rewrite El. discriminate.
  - exists t1. split; [reflexivity |]. split; [exact He |].
    rewrite Eq. discriminate.
Qed.

(** For a text that starts with a word followed by whitespace, the first
    token of the capitalised, punctuated text is that word capitalised. *)
Lemma question_word_of_first_word (w rest : string) (sp : ascii) :
  w <> EmptyString -> no_space w = true -> is_space sp = true ->
  starts_with_question_word
    (ensure_period (capitalize_first (w +:+ String sp rest)))
  = str_in (lower w) question_starters.
Proof.
  intros Hne Hw Hsp. destruct w as [|c w']; [congruence |].
  rewrite append_cons. cbn [capitalize_first].
  assert (Hcap : no_space (String (upper_char c) w') = true).
  { simpl in *. now rewrite is_space_upper_char. }
  assert (Hlow : lower (String (upper_char c) w') = lower (String c w')).
  { simpl. now rewrite lower_upper_char. }
  unfold starts_with_question_word, ensure_period.
  destruct (ends_in_punctuation _).
  - rewrite <- (append_cons (upper_char c) w' (String sp rest)).
    rewrite split_first_word by (congruence || assumption).
    now rewrite Hlow.
  - rewrite <- (append_cons (upper_char c) w' (String sp rest)).
    rewrite append_assoc, (append_cons sp rest).
    rewrite split_first_word by (congruence || assumption).
    now rewrite Hlow.
Qed.

Lemma last_char_lower (s : string) :
  last_char (lower s) = lower_char <$> last_char s.
Proof.
  induction s as [|c s IH]; [reflexivity |].
  destruct s as [|y s']; [reflexivity |].
  simpl lower in *. now rewrite !last_char_cons.
Qed.

(** No question word ends in a punctuation character. *)
Lemma question_word_no_punctuation (p : string) :
  ends_in_punctuation p = true -> str_in (lower p) question_starters = false.
Proof.
  intros He. destruct (str_in (lower p) question_starters) eqn:Hin; [|reflexivity].
  exfalso. unfold ends_in_punctuation in He.
  pose proof (last_char_lower p) as Hl.
  destruct (last_char p) as [c|]; [|discriminate].
  unfold str_in, question_starters in Hin. simpl in Hin, He.
  repeat (apply orb_prop in He as [He|He];
          [apply Ascii.eqb_eq in He; subst c;
           repeat (apply orb_prop in Hin as [Hin|Hin];
                   [apply String.eqb_eq in Hin; rewrite Hin in Hl; discriminate |]);
           discriminate |]).
  discriminate.
Qed.

(** A text without whitespace is its own single token. *)
Lemma split_single_token (p : string) :
  p <> EmptyString -> no_space p = true -> split p = [p].
Proof.
  intros Hne Hp. unfold split.
  rewrite <- (append_nil_r p) at 1.
  rewrite split_from_word by exact Hp. rewrite append_nil_l. simpl.
  destruct p; [congruence | reflexivity].
Qed.

Lemma no_space_app (a b : string) :
  no_space (a +:+ b) = no_space a && no_space b.
Proof.
  induction a as [|c a IH]; [reflexivity |].
  rewrite append_cons. simpl. now rewrite IH, andb_assoc.
Qed.

Lemma format_text_nonempty (s : string) :
  s <> EmptyString ->
  _format_text s =
  let p := ensure_period (capitalize_first s) in
  if starts_with_question_word p then period_to_question p else p.
Proof. destruct s; [congruence | intros _; apply format_text_cons]. Qed.

Lemma no_space_capitalize (s : string) :
  no_space (capitalize_first s) = no_space s.
Proof. destruct s; [reflexivity |]. simpl. now rewrite is_space_upper_char. Qed.

Lemma is_space_lower_char (c : ascii) : is_space (lower_char c) = is_space c.
Proof. destruct c as [[] [] [] [] [] [] [] []]; reflexivity. Qed.

Lemma no_space_lower (s : string) : no_space (lower s) = no_space s.
Proof.
  induction s as [|c s IH]; [reflexivity |].
  simpl. now rewrite is_space_lower_char, IH.
Qed.

Lemma lower_capitalize_first (s : string) : lower (capitalize_first s) = lower s.
Proof. destruct s; [reflexivity |]. simpl. now rewrite lower_upper_char. Qed.

(** A question word, in whatever case it is written, is a non-empty run of
    non-blank characters that does not end in punctuation. *)
Lemma question_word_token (w : string) :
  str_in (lower w) question_starters = true ->
  w <> EmptyString /\ no_space w = true /\ ends_in_punctuation w = false.
Proof.
  intros Hin. split; [| split].
  - intros ->. discriminate.
  - rewrite <- no_space_lower.
    unfold str_in, question_starters in Hin. simpl in Hin.
    repeat (apply orb_prop in Hin as [Hin|Hin];
            [apply String.eqb_eq in Hin; rewrite Hin; reflexivity |]).
    discriminate.
  - destruct (ends_in_punctuation w) eqn:He; [| reflexivity].
    rewrite (question_word_no_punctuation w He) in Hin. discriminate.
Qed.

(** A text without whitespace never has its period replaced: its only
    token ends in the punctuation it has or was given. *)
Lemma format_text_single_token (s : string) :
  s <> EmptyString -> no_space s = true ->
  _format_text s = ensure_period (capitalize_first s).
Proof.
  intros Hne Hs. rewrite (format_text_nonempty _ Hne). cbv zeta.
  set (p := ensure_period (capitalize_first s)).
  assert (Hp : no_space p = true).
  { unfold p, ensure_period. destruct (ends_in_punctuation _).
    - now rewrite no_space_capitalize.
    - now rewrite no_space_app, no_space_capitalize, Hs. }
  assert (Hpne : p <> EmptyString).
  { unfold p. destruct s; [congruence |]. cbn [capitalize_first].
    rewrite ensure_period_cons. discriminate. }
  unfold starts_with_question_word. rewrite (split_single_token p Hpne Hp).
  now rewrite question_word_no_punctuation by apply ends_in_punctuation_ensure.
Qed.

(** Capitalising the first character of a text of two or more characters
    leaves its last character alone. *)
Lemma ends_in_punctuation_capitalize (w rest : string) (sp : ascii) :
  w <> EmptyString ->
  ends_in_punctuation (capitalize_first (w +:+ String sp rest))
  = ends_in_punctuation (w +:+ String sp rest).
Proof.
  destruct w as [|c w']; [congruence |]. intros _.
  rewrite append_cons. cbn [capitalize_first]. unfold ends_in_punctuation.
  destruct (w' +:+ String sp rest) as [|y t] eqn:E.
  - destruct w'; discriminate.
  - now rewrite !last_char_cons.
Qed.

(** C7, at the failing inputs: a question word that stands alone (in any
    case, "why" for one) keeps the period that was appended to it, because
    the token compared with the list is the word with that period attached;
    the shaping as the specification words it ends it with a question mark.
    The same word followed by whitespace does get the question mark. *)
Theorem format_text_lone_question_word (w : string) :
  str_in (lower w) question_starters = true ->
  _format_text w = capitalize_first w +:+ "." /\
  shape_as_stated w = capitalize_first w +:+ "?" /\
  (forall (sp : ascii) (rest : string),
     is_space sp = true ->
     ends_in_punctuation (w +:+ String sp rest) = false ->
     _format_text (w +:+ String sp rest)
     = capitalize_first (w +:+ String sp rest) +:+ "?").
Proof.
  intros Hin. destruct (question_word_token w Hin) as (Hne & Hw & He).
  assert (Hcap : ends_in_punctuation (capitalize_first w) = false).
  { apply (question_word_token (capitalize_first w)).
    now rewrite lower_capitalize_first. }
  assert (Hq : forall t : string,
             period_to_question (t +:+ ".") = t +:+ "?").
  { intros t. unfold period_to_question. rewrite last_char_snoc. cbn [Ascii.eqb].
    now rewrite drop_last_snoc. }
  split; [| split].
  - rewrite (format_text_single_token w Hne Hw). unfold ensure_period. now rewrite Hcap.
  - unfold shape_as_stated.
    destruct w as [|c w'] eqn:Ew; [congruence |]. cbn [truthy String.eqb negb].
    rewrite <- Ew in *. unfold ensure_period. rewrite Hcap.
    unfold starts_with_question_word. rewrite (split_single_token w Hne Hw), Hin.
    apply Hq.
  - intros sp rest Hsp Hend.
    assert (Hs : w +:+ String sp rest <> EmptyString).
    { destruct w; [congruence | discriminate]. }
    rewrite (format_text_nonempty _ Hs). cbv zeta.
    rewrite question_word_of_first_word, Hin by assumption.
    unfold ensure_period.
    rewrite ends_in_punctuation_capitalize, Hend by assumption.
    apply Hq.
Qed.

(** Witness for C7: "why" alone and "why" followed by "not". *)
Lemma format_text_lone_question_word_witness :
  _format_text "why" = "Why." /\
  shape_as_stated "why" = "Why?" /\
  _format_text "why not" = "Why not?".
Proof.
  destruct (format_text_lone_question_word "why" eq_refl) as (H1 & H2 & H3).
  split; [exact H1 |]. split; [exact H2 |].
  exact (H3 " "%char "not" eq_refl eq_refl).
Defined.

(** X25: for an ASCII text that starts with a word followed by whitespace
    the first word decides: the text is capitalised, gets a period when it
    ends in none of the punctuation characters, and that period or one it
    had is replaced by a question mark exactly when the word, lower-cased,
    is in the list.  In particular "what is this" becomes "What is this?"
    and "hello world" becomes "Hello world.". *)
Theorem format_text_first_word_decides (w rest : string) (sp : ascii) :
  all_ascii (w +:+ String sp rest) = true ->
  w <> EmptyString -> no_space w = true -> is_space sp = true ->
  _format_text (w +:+ String sp rest)
  = let p := ensure_period (capitalize_first (w +:+ String sp rest)) in
    if str_in (lower w) question_starters then period_to_question p else p.
Proof.
  intros _ Hne Hw Hsp.
  assert (Hs : w +:+ String sp rest <> EmptyString).
  { destruct w; [congruence | discriminate]. }
  rewrite (format_text_nonempty _ Hs). cbv zeta.
  now rewrite question_word_of_first_word by assumption.
Qed.

Lemma format_text_first_word_decides_witness :
  _format_text "what is this" = "What is this?" /\
  _format_text "hello world" = "Hello world.".
Proof.
  split.
  - exact (format_text_first_word_decides "what" "is this" " "%char
             eq_refl ltac:(discriminate) eq_refl eq_refl).
  - exact (format_text_first_word_decides "hello" "world" " "%char
             eq_refl ltac:(discriminate) eq_refl eq_refl).
Defined.

(** C10: text shaping is idempotent, and the empty text is returned
    unchanged. *)
Theorem format_text_idempotent :
  (forall s : string, _format_text (_format_text s) = _format_text s) /\
  _format_text EmptyString = EmptyString.
Proof.
  split; [|reflexivity].
  intros [|c t]; [reflexivity |].
  destruct (format_text_head c t) as (t' & -> & He & Hq).
  apply format_text_fixed; [apply upper_char_idem | exact He | exact Hq].
Qed.

End FormatTextFacts.

(** ** The transcription job: progress values *)
Section ProgressFacts.
Import PyStr FormatText FileTranscriber.
Open Scope Z_scope.

(** Non-negativity of the products and quotients of the progress formulas. *)
Ltac q_nonneg :=
  repeat first
    [ apply Qmult_le_0_compat
    | apply Qinv_le_0_compat
    | assumption
    | rewrite <- Zle_Qle; lia
    | unfold Qle; simpl; lia ].

Lemma py_int_floor (q : Q) : (0 <= q)%Q -> py_int q = Qfloor q.
Proof.
  destruct q as [n d]. unfold Qle, py_int, Qfloor. simpl. intros H.
  apply Z.quot_div_nonneg; lia.
Qed.

Lemma py_int_nonneg (q : Q) : (0 <= q)%Q -> 0 <= py_int q.
Proof.
  intros H. rewrite py_int_floor by exact H.
  change 0 with (Qfloor 0). now apply Qfloor_resp_le.
Qed.

Lemma py_int_mono (q1 q2 : Q) : (0 <= q1)%Q -> (q1 <= q2)%Q -> py_int q1 <= py_int q2.
Proof.
  intros H0 H. rewrite !py_int_floor by (try exact H0; now apply Qle_trans with q1).
  now apply Qfloor_resp_le.
Qed.

(** The fraction scaled in the reading stage. *)
Lemma read_fraction_nonneg (b : Z) (d : Q) :
  0 <= b -> (0 <= d)%Q ->
  (0 <= (inject_Z b / inject_Z (16000 * 2)) / d * 30)%Q.
Proof.
  intros Hb Hd. unfold Qdiv. q_nonneg.
Qed.

Lemma read_fraction_mono (b1 b2 : Z) (d : Q) :
  b1 <= b2 -> (0 <= d)%Q ->
  ((inject_Z b1 / inject_Z (16000 * 2)) / d * 30
   <= (inject_Z b2 / inject_Z (16000 * 2)) / d * 30)%Q.
Proof.
  intros Hb Hd. unfold Qdiv.
  repeat (apply Qmult_le_compat_r; [| q_nonneg]).
  rewrite <- Zle_Qle. exact Hb.
Qed.

Lemma read_progress_bounds (b : Z) (d : Q) (p : Z) :
  0 <= b -> (0 <= d)%Q -> read_progress b d = Some p -> 20 <= p <= 50.
Proof.
  unfold read_progress. intros Hb Hd. destruct (Qeq_bool d 0); [discriminate |].
  intros [= <-]. pose proof (py_int_nonneg _ (read_fraction_nonneg b d Hb Hd)). lia.
Qed.

Lemma read_progress_mono (b1 b2 : Z) (d : Q) (p1 p2 : Z) :
  0 <= b1 -> b1 <= b2 -> (0 <= d)%Q ->
  read_progress b1 d = Some p1 -> read_progress b2 d = Some p2 -> p1 <= p2.
Proof.
  unfold read_progress. intros Hb1 Hb Hd. destruct (Qeq_bool d 0); [discriminate |].
  intros [= <-] [= <-].
  pose proof (py_int_mono _ _ (read_fraction_nonneg b1 d Hb1 Hd)
                (read_fraction_mono b1 b2 d Hb Hd)). lia.
Qed.

Lemma process_fraction_nonneg (i n : nat) :
  (0 <= inject_Z (Z.of_nat i) / inject_Z (Z.of_nat n) * 49)%Q.
Proof.
  unfold Qdiv. q_nonneg.
Qed.

Lemma process_progress_bounds (i n : nat) : 50 <= process_progress i n <= 99.
Proof.
  unfold process_progress. pose proof (py_int_nonneg _ (process_fraction_nonneg i n)). lia.
Qed.

Lemma process_progress_mono (i j n : nat) :
  (i <= j)%nat -> process_progress i n <= process_progress j n.
Proof.
  intros Hij. unfold process_progress.
  assert (H : py_int (inject_Z (Z.of_nat i) / inject_Z (Z.of_nat n) * 49)
              <= py_int (inject_Z (Z.of_nat j) / inject_Z (Z.of_nat n) * 49)).
  { apply py_int_mono; [apply process_fraction_nonneg |]. unfold Qdiv.
    repeat (apply Qmult_le_compat_r; [| q_nonneg]).
    rewrite <- Zle_Qle. lia. }
  lia.
Qed.

Lemma progress_values_app (a b : list effect) :
  progress_values (a ++ b) = progress_values a ++ progress_values b.
Proof. apply flat_map_app. Qed.

Lemma progress_values_cons (e : effect) (es : list effect) :
  progress_values (e :: es) = progress_values [e] ++ progress_values es.
Proof. apply (progress_values_app [e] es). Qed.

Lemma progress_values_progress (p : Z) (es : list effect) :
  progress_values (Emit (progress_updated p) :: es) = p :: progress_values es.
Proof. reflexivity. Qed.

Lemma progress_values_new_text (t : string) (es : list effect) :
  progress_values (Emit (new_text t) :: es) = progress_values es.
Proof. reflexivity. Qed.

Lemma rises_within_nil (lo hi : Z) : rises_within lo hi [].
Proof. split; constructor. Qed.

Lemma rises_within_one (lo hi v : Z) : lo <= v <= hi -> rises_within lo hi [v].
Proof.
  intros H. split.
  - apply SSorted_cons; constructor.
  - apply Forall_forall. intros x Hx. apply list_elem_of_singleton in Hx. now subst.
Qed.

Lemma rises_within_weaken (lo hi lo' hi' : Z) (vs : list Z) :
  lo' <= lo -> hi <= hi' -> rises_within lo hi vs -> rises_within lo' hi' vs.
Proof.
  intros Hlo Hhi [Hs Hb]. split; [exact Hs |].
  eapply Forall_impl; [exact Hb |]. simpl. intros v Hv. lia.
Qed.

(** Two stages in a row: the first stays below the bound at which the
    second starts. *)
Lemma rises_within_app (lo mid hi : Z) (l1 l2 : list Z) :
  rises_within lo mid l1 -> rises_within mid hi l2 -> lo <= mid <= hi ->
  rises_within lo hi (l1 ++ l2).
Proof.
  intros [Hs1 Hb1] [Hs2 Hb2] Hm. split.
  - apply StronglySorted_app_2; [| exact Hs1 | exact Hs2].
    intros x1 x2 H1 H2.
    rewrite Forall_forall in Hb1, Hb2.
    specialize (Hb1 x1 H1). specialize (Hb2 x2 H2). lia.
  - apply Forall_app. split.
    + eapply Forall_impl; [exact Hb1 |]. simpl. intros v Hv. lia.
    + eapply Forall_impl; [exact Hb2 |]. simpl. intros v Hv. lia.
Qed.

(** Every value emitted by the reading loop is the reading-stage formula at
    a byte count reached later than the current one, and the values never
    decrease. *)
Lemma read_loop_values (w : JobWorld) :
  (0 <= duration w)%Q ->
  forall (stream : list string) (st : read_state) r es,
    0 <= total_bytes st ->
    read_loop w stream st = (r, es) ->
    nondecreasing (progress_values es) /\
    Forall (fun v => exists b, total_bytes st <= b /\
                               read_progress b (duration w) = Some v)
           (progress_values es).
Proof.
  intros Hd. induction stream as [|chunk rest IH]; intros st r es Hb H.
  - cbn [read_loop] in H. destruct (negb _); injection H as <- <-;
      split; constructor.
  - cbn [read_loop] in H.
    destruct (negb (flag w _)); [injection H as <- <-; split; constructor |].
    destruct (negb (truthy chunk)); [injection H as <- <-; split; constructor |].
    set (total' := total_bytes st + Z.of_nat (String.length chunk)) in *.
    assert (Ht : total_bytes st <= total') by (unfold total'; lia).
    destruct (Qle_bool _ _).
    + destruct (read_progress total' (duration w)) as [p|] eqn:Ep;
        [| injection H as <- <-; split; constructor].
      destruct (read_loop w rest _) as [r' es'] eqn:Er.
      injection H as <- <-.
      apply IH in Er as [Hs Hf]; [| simpl; lia]. simpl in Hf.
      rewrite progress_values_progress. split.
      * apply SSorted_cons; [exact Hs |].
        eapply Forall_impl; [exact Hf |]. simpl.
        intros v (b & Hbv & Hv).
        eapply read_progress_mono; [| exact Hbv | exact Hd | exact Ep | exact Hv]. lia.
      * apply Forall_cons. split.
        -- exists total'. split; [exact Ht | exact Ep].
        -- eapply Forall_impl; [exact Hf |]. simpl.
           intros v (b & Hbv & Hv). exists b. split; [lia | exact Hv].
    + apply IH in H as [Hs Hf]; [| simpl; lia]. simpl in Hf.
      split; [exact Hs |].
      eapply Forall_impl; [exact Hf |]. simpl.
      intros v (b & Hbv & Hv). exists b. split; [lia | exact Hv].
Qed.

Lemma read_loop_rises (w : JobWorld) (stream : list string) (st : read_state) r es :
  (0 <= duration w)%Q -> 0 <= total_bytes st ->
  read_loop w stream st = (r, es) ->
  rises_within 20 50 (progress_values es).
Proof.
  intros Hd Hb H. destruct (read_loop_values w Hd stream st r es Hb H) as [Hs Hf].
  split; [exact Hs |].
  eapply Forall_impl; [exact Hf |]. simpl. intros v (b & Hbv & Hv).
  eapply read_progress_bounds; [| exact Hd | exact Hv]. lia.
Qed.

(** The same for the processing loop, over the chunk index. *)
Lemma process_loop_values (w : JobWorld) (n : nat) :
  forall (chunks : list string) (i : nat) (st : process_state) r es,
    process_loop w chunks i n st = (r, es) ->
    nondecreasing (progress_values es) /\
    Forall (fun v => exists j, (i <= j)%nat /\ v = process_progress j n)
           (progress_values es).
Proof.
  induction chunks as [|chunk rest IH]; intros i st r es H.
  - cbn [process_loop] in H. injection H as <- <-. split; constructor.
  - cbn [process_loop] in H.
    destruct (negb (flag w _)); [injection H as <- <-; split; constructor |].
    destruct (accept_waveform w i) as [| |text] eqn:Ea;
      [injection H as <- <-; split; constructor | |].
    all: destruct (Qle_bool _ _);
      destruct (process_loop w rest (S i) n _) as [r' es'] eqn:Er;
      injection H as <- <-;
      destruct (IH _ _ _ _ Er) as [Hs Hf];
      try destruct (truthy text && _); cbn [app];
      rewrite ?progress_values_new_text, ?progress_values_progress.
    all: try (split; [exact Hs |];
              eapply Forall_impl; [exact Hf |]; simpl;
              intros v (j & Hj & Hv); exists j; split; [lia | exact Hv]).
    all: split;
      [ apply SSorted_cons; [exact Hs |];
        eapply Forall_impl; [exact Hf |]; simpl;
        intros v (j & Hj & ->); apply process_progress_mono; lia
      | apply Forall_cons; split;
        [ exists i; split; [lia | reflexivity]
        | eapply Forall_impl; [exact Hf |]; simpl;
          intros v (j & Hj & Hv); exists j; split; [lia | exact Hv] ] ].
Qed.

Lemma process_loop_rises (w : JobWorld) (chunks : list string) (i n : nat)
  (st : process_state) r es :
  process_loop w chunks i n st = (r, es) ->
  rises_within 50 99 (progress_values es).
Proof.
  intros H. destruct (process_loop_values w n chunks i st r es H) as [Hs Hf].
  split; [exact Hs |].
  eapply Forall_impl; [exact Hf |]. simpl. intros v (j & _ & ->).
  apply process_progress_bounds.
Qed.

(** The conversion stage emits nothing, 5, or 5 then 20; it emits both
    exactly when it hands back a WAV file. *)
Lemma convert_values (w : JobWorld) (self : transcriber) (c : counters) wav self' c' es :
  _convert_to_wav w self c = (wav, self', c', es) ->
  (wav = None /\ (progress_values es = [] \/ progress_values es = [5]))
  \/ (wav <> None /\ progress_values es = [5; 20]).
Proof.
  unfold _convert_to_wav.
  destruct (negb (mkstemp_ok w)); [intros [= <- <- <- <-]; left; auto |].
  destruct (negb (popen_ok w)); [intros [= <- <- <- <-]; left; auto |].
  destruct (wait_converter w _ _) as [finished p].
  destruct (negb finished);
    [destruct (terminate_wait_ok _ _); intros [= <- <- <- <-]; left; auto |].
  destruct (negb (conv_returncode w =? 0)); intros [= <- <- <- <-];
    [left; auto | right; split; [discriminate | reflexivity]].
Qed.

Lemma cleanup_values (os : OS) (self : transcriber) :
  progress_values (_cleanup_temp_files os self).2 = [].
Proof.
  unfold _cleanup_temp_files. simpl.
  induction (temp_files self) as [|f fs IH]; [reflexivity |].
  simpl. rewrite progress_values_app, IH.
  now destruct (file_exists os f).
Qed.

Lemma rises_within_5_20 : rises_within 0 20 [5; 20].
Proof.
  apply (rises_within_app 0 5 20 [5] [20]); [| | lia];
    apply rises_within_one; lia.
Qed.

Lemma manager_job_progress (w : JobWorld) (self : transcriber) :
  let '(e, _, es) := _transcribe_file_with_manager w self in job_progress_ok e es.
Proof.
  unfold _transcribe_file_with_manager, job_progress_ok.
  assert (H2 : rises_within 0 20 [10; 20]).
  { apply (rises_within_app 0 10 20 [10] [20]); [| | lia];
      apply rises_within_one; lia. }
  assert (H4 : rises_within 0 100 [10; 20; 90; 100]).
  { apply (rises_within_app 0 20 100 [10; 20] [90; 100]); [exact H2 | | lia].
    apply (rises_within_app 20 90 100 [90] [100]); [| | lia];
      apply rises_within_one; lia. }
  destruct (manager_result w) as [result|].
  - destruct result as [text|]; [destruct (truthy text) |];
      (split; [exact H4 | reflexivity]).
  - split; [| discriminate].
    eapply rises_within_weaken; [| | exact H2]; lia.
Qed.

(** The stages of the Vosk path one after the other. *)
Lemma stage_chain (r p : list Z) :
  rises_within 20 50 r -> rises_within 50 99 p ->
  rises_within 0 100 ([5; 20] ++ r) /\
  rises_within 0 100 ([5; 20] ++ r ++ p) /\
  rises_within 0 100 ([5; 20] ++ r ++ p ++ [100]).
Proof.
  intros Hr Hp.
  assert (H1 : rises_within 0 50 ([5; 20] ++ r)).
  { apply (rises_within_app 0 20 50); [apply rises_within_5_20 | exact Hr | lia]. }
  assert (H2 : rises_within 0 99 (([5; 20] ++ r) ++ p)).
  { apply (rises_within_app 0 50 99); [exact H1 | exact Hp | lia]. }
  assert (H3 : rises_within 0 100 ((([5; 20] ++ r) ++ p) ++ [100])).
  { apply (rises_within_app 0 99 100); [exact H2 | | lia].
    apply rises_within_one. lia. }
  rewrite <- !app_assoc in H2, H3.
  split; [eapply rises_within_weaken; [| | exact H1]; lia |].
  split; [eapply rises_within_weaken; [| | exact H2]; lia | exact H3].
Qed.

(** Rewrites the progress values of the literal effect lists. *)
Ltac progress_literals :=
  repeat match goal with
         | |- context [progress_values (?x :: ?l)] =>
             let v := eval cbn in (progress_values (x :: l)) in
             change (progress_values (x :: l)) with v
         end.

Lemma vosk_job_progress (w : JobWorld) (self : transcriber) :
  (0 <= duration w)%Q ->
  let '(e, _, es) := _transcribe_file_with_vosk w self in job_progress_ok e es.
Proof.
  intros Hd. unfold _transcribe_file_with_vosk, job_progress_ok.
  destruct (_convert_to_wav w self _) as [[[wav self1] c] e1] eqn:Ec.
  apply convert_values in Ec as [[-> Hv] | [Hne Hv]].
  - (* no WAV file *)
    assert (Hok : rises_within 0 100 (progress_values e1)).
    { destruct Hv as [-> | ->]; [apply rises_within_nil | apply rises_within_one; lia]. }
    destruct (signals_has_finished self1); (split; [| discriminate]);
      rewrite !progress_values_app; progress_literals;
      rewrite ?app_nil_r; exact Hok.
  - destruct wav as [f|]; [clear Hne | congruence].
    pose proof (stage_chain [] [] (rises_within_nil _ _) (rises_within_nil _ _))
      as (H520 & _ & _). rewrite app_nil_r in H520.
    destruct (negb (flag w (polls c))).
    { destruct (signals_has_finished self1); (split; [| discriminate]);
        rewrite !progress_values_app; progress_literals;
        rewrite Hv, ?app_nil_r; exact H520. }
    destruct (negb (decoder_popen_ok w)).
    { split; [| discriminate].
      rewrite !progress_values_app; progress_literals;
        rewrite Hv, ?app_nil_r; exact H520. }
    destruct (read_loop w (pcm_stream w) _) as [[rd|] e3] eqn:Er;
      apply read_loop_rises in Er; try exact Hd; try (simpl; lia).
    2:{ split; [| discriminate].
        rewrite !progress_values_app; progress_literals. rewrite Hv. cbn [app].
        apply (stage_chain _ [] Er (rises_within_nil _ _)). }
    assert (He4 : progress_values
                    (if terminate_wait_ok (job_os w) decoder_pid
                     then [Terminate decoder_pid]
                     else [Terminate decoder_pid; Kill decoder_pid]) = []).
    { destruct (terminate_wait_ok _ _); reflexivity. }
    destruct (negb (flag w (polls (read_counters rd)))).
    { destruct (signals_has_finished _); (split; [| discriminate]);
        rewrite !progress_values_app, He4; progress_literals;
        rewrite Hv, ?app_nil_r; cbn [app];
        apply (stage_chain _ [] Er (rises_within_nil _ _)). }
    destruct (process_loop w (all_chunks rd) 0 _ _) as [[pr|] e6] eqn:Ep;
      apply process_loop_rises in Ep.
    2:{ split; [| discriminate].
        rewrite !progress_values_app, He4; progress_literals. rewrite Hv. cbn [app].
        apply (stage_chain _ _ Er Ep). }
    destruct (final_result w) as [final_text|].
    2:{ split; [| discriminate].
        rewrite !progress_values_app, He4; progress_literals. rewrite Hv. cbn [app].
        apply (stage_chain _ _ Er Ep). }
    assert (Hshown : forall results : list string,
              progress_values
                match results with
                | [] => [Warn "no result"; Emit new_text_no_result]
                | _ :: _ => [Emit (new_text (_format_text (join_space results)))]
                end = []).
    { intros [|? ?]; reflexivity. }
    rewrite !progress_values_app, Hv, He4, Hshown.
    progress_literals. cbn [app]. split.
    + apply (stage_chain _ _ Er Ep).
    + intros _. change (5 :: 20 :: ?x) with ([5; 20] ++ x).
      rewrite !app_assoc. apply last_snoc.
Qed.

Example sample_job_trace :
  let '(e, self', es) := _transcribe_file_thread sample_job busy_transcriber in
  e = Completed /\ progress_values es = [5; 20; 20; 20; 20; 50; 66; 82; 100] /\
  In (Emit (new_text "What is this?")) es /\ is_transcribing self' = false.
Proof. vm_compute. repeat split; auto 20. Qed.

(** C8, counterexample: nothing checks the sign of the probed duration,
    and with a negative one the reading stage computes its percent values
    from a negative fraction: the job runs to completion and the values go
    down from 20 and leave the range. *)
Lemma progress_negative_duration_counterexample :
  let '(e, _, es) := _transcribe_file_thread negative_duration_job busy_transcriber in
  e = Completed /\
  progress_values es = [5; 20; -225; -471; -594; 50; 66; 82; 100] /\
  ~ nondecreasing (progress_values es) /\
  ~ Forall (fun v => 0 <= v <= 100) (progress_values es).
Proof.
  vm_compute. split; [reflexivity |]. split; [reflexivity |]. split.
  - intros H. inversion H as [| a l Hs Hf]; subst.
    inversion Hs as [| a' l' Hs' Hf']; subst.
    inversion Hf' as [| x l'' Hx _]; subst. apply Hx. reflexivity.
  - intros H. inversion H as [| x l _ H1]; subst.
    inversion H1 as [| x l _ H2]; subst.
    inversion H2 as [| x l [Hx _] _]; subst. apply Hx. reflexivity.
Qed.

(** C8, amended: within one run of the worker with a probed duration that
    is not negative, the percent values emitted through [progress_updated]
    never decrease, lie between 0 and 100, and the last one is 100 when the
    worker ran to completion.  (A zero duration makes the first progress
    computation of the reading stage raise, so that job does not
    complete.) *)
Theorem progress_monotone_to_100 (w : JobWorld) (self : transcriber) :
  (0 <= duration w)%Q ->
  let '(e, _, es) := _transcribe_file_thread w self in
  nondecreasing (progress_values es) /\
  Forall (fun v => 0 <= v <= 100) (progress_values es) /\
  (e = Completed -> last (progress_values es) = Some 100).
Proof.
  intros Hd. unfold _transcribe_file_thread.
  pose proof (manager_job_progress w self) as Hm.
  pose proof (vosk_job_progress w self Hd) as Hv.
  destruct (recognizer_has_transcribe_file w).
  - destruct (_transcribe_file_with_manager w self) as [[e self1] es].
    pose proof (cleanup_values (job_os w) self1) as Hc.
    destruct (_cleanup_temp_files (job_os w) self1) as [self2 cleanup].
    simpl in Hc. destruct Hm as [[Hs Hb] Hl].
    rewrite !progress_values_app, Hc.
    replace (progress_values match e with Raised => [Emit error_occurred] | _ => [] end)
      with (@nil Z) by now destruct e.
    replace (progress_values (if signals_has_finished self
                              then [Emit transcription_finished] else []))
      with (@nil Z) by now destruct (signals_has_finished self).
    rewrite !app_nil_r. auto.
  - destruct (_transcribe_file_with_vosk w self) as [[e self1] es].
    pose proof (cleanup_values (job_os w) self1) as Hc.
    destruct (_cleanup_temp_files (job_os w) self1) as [self2 cleanup].
    simpl in Hc. destruct Hv as [[Hs Hb] Hl].
    rewrite !progress_values_app, Hc.
    replace (progress_values match e with Raised => [Emit error_occurred] | _ => [] end)
      with (@nil Z) by now destruct e.
    replace (progress_values (if signals_has_finished self
                              then [Emit transcription_finished] else []))
      with (@nil Z) by now destruct (signals_has_finished self).
    rewrite !app_nil_r. auto.
Qed.

(** Witness for C8: the theorem at the sample job. *)
Lemma progress_monotone_to_100_witness :
  (0 <= duration sample_job)%Q /\
  let '(e, _, es) := _transcribe_file_thread sample_job busy_transcriber in
  nondecreasing (progress_values es) /\
  Forall (fun v => 0 <= v <= 100) (progress_values es) /\
  (e = Completed -> last (progress_values es) = Some 100).
Proof.
  assert (H : (0 <= duration sample_job)%Q) by (unfold Qle; simpl; lia).
  split; [exact H |].
  exact (progress_monotone_to_100 sample_job busy_transcriber H).
Defined.

End ProgressFacts.

(** ** Stopping a transcription *)
Section StopFacts.
Import FileTranscriber.

(** C6, counterexample: on a transcriber with no job running,
    [stop_transcription] returns [False] and does not clean up (the
    left-over temporary file stays listed and no removal is attempted); and
    directly after a successful stop a second call returns [False]. *)
Lemma stop_transcription_idle_counterexample :
  stop_transcription quiet_os idle_transcriber
  = (false, idle_transcriber, [Warn "no transcription in progress"]) /\
  (let '(ok1, self1, _) := stop_transcription quiet_os busy_transcriber in
   ok1 = true /\ (stop_transcription quiet_os self1).1.1 = false).
Proof. split; [reflexivity | vm_compute; split; reflexivity]. Qed.

Lemma cleanup_removes (os : OS) (self : transcriber) (f : string) :
  In f (temp_files self) -> file_exists os f = true ->
  In (Remove f) (_cleanup_temp_files os self).2.
Proof.
  intros Hin Hex. unfold _cleanup_temp_files. simpl.
  apply in_flat_map. exists f. split; [exact Hin |].
  rewrite Hex. now left.
Qed.

(** C6, amended: while a job is active, [stop_transcription] succeeds,
    clears the flag, signals the decoder process, forgets process and
    thread, removes every existing temporary file and empties the list;
    when no job is active (never started, already stopped, or finished) it
    returns [False] and changes nothing. *)
Theorem stop_transcription_guarded (os : OS) (self : transcriber) :
  (is_transcribing self = true ->
   let '(ok, self', es) := stop_transcription os self in
   ok = true /\
   is_transcribing self' = false /\
   ffmpeg_process self' = None /\
   transcription_thread self' = None /\
   temp_files self' = [] /\
   (forall pid, ffmpeg_process self = Some pid -> In (Terminate pid) es) /\
   (forall f, In f (temp_files self) -> file_exists os f = true -> In (Remove f) es) /\
   (signals_has_finished self = true -> In (Emit transcription_finished) es) /\
   stop_transcription os self'
   = (false, self', [Warn "no transcription in progress"])) /\
  (is_transcribing self = false ->
   stop_transcription os self
   = (false, self, [Warn "no transcription in progress"])).
Proof.
  split; intros Hact; unfold stop_transcription; rewrite Hact; [| reflexivity].
  cbn [negb].
  pose proof (cleanup_removes os
                (set_transcription_thread None
                   (set_ffmpeg_process None (set_is_transcribing false self)))) as Hrm.
  destruct (_cleanup_temp_files os _) as [self2 e3] eqn:Ec.
  unfold _cleanup_temp_files in Ec. injection Ec as <- <-.
  repeat split.
  - intros pid Hp. rewrite Hp. apply in_or_app. left. unfold stop_ffmpeg.
    destruct (terminate_wait_ok os pid); [now left |].
    destruct (kill_ok os pid); now left.
  - intros f Hin Hex. apply in_or_app. right. apply in_or_app. right.
    apply in_or_app. left. now apply (Hrm f).
  - intros Hsig. rewrite Hsig. repeat (apply in_or_app; right). now left.
Qed.

(** Witness for C6: the theorem at the busy sample transcriber. *)
Lemma stop_transcription_guarded_witness :
  is_transcribing busy_transcriber = true /\
  (stop_transcription quiet_os busy_transcriber).1.1 = true.
Proof.
  split; [reflexivity |].
  pose proof (proj1 (stop_transcription_guarded quiet_os busy_transcriber) eq_refl) as H.
  destruct (stop_transcription quiet_os busy_transcriber) as [[ok self'] es].
  exact (proj1 H).
Defined.

End StopFacts.

(** ** Live recognition *)
Section RecognitionFacts.
Import ASRModelManager.

Example stop_after_start :
  let '(_, s1, _) := start_recognition (set_is_recognizing false vosk_manager) in
  let '(r2, s2, ev2) := stop_recognition s1 in
  let '(r3, _, ev3) := stop_recognition s2 in
  r2 = true /\ r3 = true /\ count_stopped ev2 = 1%nat /\ count_stopped ev3 = 0%nat.
Proof. vm_compute. auto. Qed.

(** C9: two calls of [stop_recognition] in a row both return [True]; the
    second one emits nothing but a log warning, so [recognition_stopped] is
    emitted once when recognition was running and not at all when it was
    not, in which case the first call changes nothing either. *)
Theorem stop_recognition_idempotent (s : manager) :
  let '(r1, s1, ev1) := stop_recognition s in
  let '(r2, s2, ev2) := stop_recognition s1 in
  r1 = true /\ r2 = true /\
  is_recognizing s1 = false /\ s2 = s1 /\
  count_stopped ev2 = 0%nat /\
  count_stopped (ev1 ++ ev2) = (if is_recognizing s then 1%nat else 0%nat) /\
  (if is_recognizing s then True else s1 = s /\ count_stopped ev1 = 0%nat).
Proof.
  destruct s as [cfg cm cmt mt ce cd [|]]; vm_compute; repeat split.
Qed.

End RecognitionFacts.

(** ** Resolving the active engine type *)
Section EngineTypeFacts.
Import PyStr ASRModelManager.

(** C5, at the failing input: on the manager as [__init__] leaves it (no
    engine, [model_type] set to the default model) [get_current_engine_type]
    returns the declared model type, not [None]. *)
Theorem get_current_engine_type_fresh_manager :
  current_engine fresh_manager = None /\
  get_current_engine_type fresh_manager = (Some "vosk_small", fresh_manager, []).
Proof. split; reflexivity. Qed.

(** Without an engine the result is the declared model type when there is
    one, and [None] only when there is none. *)
Lemma get_current_engine_type_no_engine (s : manager) :
  current_engine s = None ->
  get_current_engine_type s
  = (if truthy_opt (model_type s) then model_type s else None, s, []).
Proof.
  destruct s as [cfg cm cmt mt ce cd rec]. simpl. intros ->.
  destruct mt as [t|]; [destruct t as [|c t'] |]; reflexivity.
Qed.

(** Whatever is inferred from an engine is a non-empty name. *)
Lemma infer_engine_type_truthy (eo : option engine) (t : string) :
  infer_engine_type eo = Some t -> truthy t = true.
Proof.
  destruct eo as [e|]; [| discriminate]. unfold infer_engine_type.
  destruct (bool_decide (engine_class_of e = VoskASR)); [now intros [= <-] |].
  destruct (truthy_opt (engine_type e)) eqn:Et.
  { intros H. rewrite H in Et. exact Et. }
  destruct (bool_decide (engine_class_of e = SherpaOnnxASR)); [| discriminate].
  destruct (model_config e) as [cfg|];
    repeat match goal with
           | |- context [if ?b then _ else _] => destruct b
           end; now intros [= <-].
Qed.

(** C2, counterexample: with the int8 Sherpa model declared and a
    [VoskASR] engine loaded (inferred type ["vosk_small"]),
    [get_current_engine_type] returns the inferred type and overwrites
    [model_type] with it; and with an engine that the consistency test
    accepts although its inferred type is ["sherpa_onnx_std"], the declared
    type is returned without any warning. *)
Lemma get_current_engine_type_vosk_counterexample :
  (model_type vosk_under_sherpa = Some "sherpa_onnx_int8" /\
   infer_engine_type (current_engine vosk_under_sherpa) = Some "vosk_small" /\
   let '(r, s', evs) := get_current_engine_type vosk_under_sherpa in
   r = Some "vosk_small" /\ model_type s' = Some "vosk_small" /\ evs = []) /\
  (model_type flagged_under_int8 = Some "sherpa_onnx_int8" /\
   infer_engine_type (current_engine flagged_under_int8) = Some "sherpa_onnx_std" /\
   get_current_engine_type flagged_under_int8
   = (Some "sherpa_onnx_int8", flagged_under_int8, [])).
Proof. vm_compute. repeat split. Qed.

(** C2, amended: when a model type is declared and an engine is loaded
    that is not a [VoskASR] instance and whose inferred type differs from the
    declared one, [get_current_engine_type] returns the declared type and
    leaves the manager (declared type and engine included) as it was; it
    logs the mismatch warnings, and nothing else, unless the consistency test
    accepts the engine, in which case it logs nothing.  For a [VoskASR]
    instance it returns ["vosk_small"] and makes that the declared type. *)
Theorem declared_type_wins (s : manager) (e : engine) (declared : string) :
  model_type s = Some declared ->
  truthy declared = true ->
  current_engine s = Some e ->
  (engine_class_of e <> VoskASR ->
   forall inferred : string,
     infer_engine_type (Some e) = Some inferred ->
     inferred <> declared ->
     get_current_engine_type s
     = (Some declared, s,
        if is_match declared e then []
        else [log_warning warn_rematch; log_warning warn_mismatch;
              log_warning warn_keep])) /\
  (engine_class_of e = VoskASR ->
   let '(r, s', evs) := get_current_engine_type s in
   r = Some "vosk_small" /\ model_type s' = Some "vosk_small" /\ evs = []).
Proof.
  intros Hm Ht He. split.
  - intros Hc inferred Hi Hne.
    pose proof (infer_engine_type_truthy _ _ Hi) as Hit.
    assert (Hv : is_instance VoskASR (Some e) = false).
    { unfold is_instance. now apply bool_decide_eq_false_2. }
    unfold get_current_engine_type, bind, get, tell, ret, when.
    rewrite He, Hm, Hv, Hi. cbn [truthy_opt]. rewrite Ht, Hit.
    rewrite bool_decide_eq_true_2 by congruence.
    destruct (is_match declared e); reflexivity.
  - intros Hc.
    assert (Hv : is_instance VoskASR (Some e) = true).
    { unfold is_instance. now apply bool_decide_eq_true_2. }
    unfold get_current_engine_type, bind, get, modify, tell, ret, when.
    rewrite He, Hv, Hm.
    destruct (bool_decide (Some declared ≠ Some "vosk_small")) eqn:Ed; cbn.
    + repeat split.
    + apply bool_decide_eq_false in Ed. apply dec_stable in Ed.
      rewrite Hm, Ed. repeat split.
Qed.

(** Witness for C2: the int8 model declared, a standard Sherpa engine
    loaded. *)
Lemma declared_type_wins_witness :
  get_current_engine_type std_under_int8
  = (Some "sherpa_onnx_int8", std_under_int8,
     [log_warning warn_rematch; log_warning warn_mismatch; log_warning warn_keep]).
Proof.
  exact (proj1 (declared_type_wins std_under_int8 sherpa_std_engine
                  "sherpa_onnx_int8" eq_refl eq_refl eq_refl)
           ltac:(discriminate) "sherpa_onnx_std" eq_refl ltac:(discriminate)).
Defined.

End EngineTypeFacts.

(** ** Validating model files *)
Section ValidationFacts.
Import PyStr ASRModelManager.

(** C3, at the failing input: the int8 Sherpa model is complete on disk and
    is validated under its configured kind, but its directory name contains
    "vosk": [validate_model_files] applies the Vosk layout and fails, where
    the Sherpa layout is satisfied and [_validate_model_path], which tests
    the kind alone, passes. *)
Theorem validate_model_files_path_decides :
  let path := "/models/vosk-backup/sherpa-int8" in
  let kind := "sherpa_onnx_int8" in
  sherpa_layout_ok sample_world fresh_manager path kind = true /\
  _validate_model_path sample_world fresh_manager path (Some kind) = true /\
  validate_model_files sample_world fresh_manager path (Some kind) = false /\
  load_model sample_world kind fresh_manager
  = (false, fresh_manager,
     [log_error "vosk model lacks directory am"; log_error "model files invalid"]).
Proof. vm_compute. repeat split. Qed.

(** Away from paths that contain "vosk" the two validators agree. *)
Lemma validate_model_files_by_kind (w : World) (self : manager)
  (model_path : string) (kind : option string) :
  truthy model_path = true ->
  contains "vosk" (lower model_path) = false ->
  validate_model_files w self model_path kind
  = _validate_model_path w self model_path kind.
Proof.
  intros Hp Hv. unfold validate_model_files, _validate_model_path.
  rewrite Hp, Hv, orb_false_r. reflexivity.
Qed.

End ValidationFacts.

(** ** File transcription by the manager *)
Section TranscribeFileFacts.
Import PyStr ASRModelManager.

(** With an engine loaded, [get_current_engine_type] keeps the engine
    object (at most correcting the [engine_type] attribute of a [VoskASR]),
    only writes log entries, and returns a type that agrees with
    [model_type] whenever both are set. *)
Lemma get_current_engine_type_agrees (s : manager) (e : engine) r s' evs :
  current_engine s = Some e ->
  get_current_engine_type s = (r, s', evs) ->
  current_engine s' = Some (engine_after_resolve e) /\
  models_config s' = models_config s /\
  truthy_opt (model_type s') && truthy_opt r && bool_decide (model_type s' ≠ r) = false /\
  forallb is_log evs = true.
Proof.
  intros He. unfold get_current_engine_type, bind, get, modify, tell, ret, when.
  rewrite He. unfold engine_after_resolve, is_instance.
  assert (Hrefl : forall o : option string, bool_decide (o ≠ o) = false).
  { intros o. apply bool_decide_eq_false_2. intros H. now apply H. }
  destruct (bool_decide (engine_class_of e = VoskASR)) eqn:Ev.
  - destruct (bool_decide (model_type s ≠ Some "vosk_small")) eqn:Em;
      intros [= <- <- <-]; cbn; rewrite ?He; cbn.
    + repeat split.
    + rewrite Em, andb_false_r. repeat split.
  - remember (infer_engine_type (Some e)) as inf eqn:Einf. clear Einf.
    destruct (model_type s) as [d|] eqn:Em.
    + destruct (truthy d) eqn:Ed.
      * destruct (is_match d e).
        { intros [= <- <- <-]. cbn. rewrite He, Em, Hrefl, andb_false_r.
          repeat split. }
        cbn [truthy_opt]. rewrite Ed.
        destruct (truthy_opt inf) eqn:Ei.
        -- destruct (bool_decide (Some d ≠ inf)) eqn:Eq; cbn;
             intros [= <- <- <-]; cbn; rewrite He, Em.
           ++ rewrite Hrefl, andb_false_r. repeat split.
           ++ rewrite Eq, andb_false_r. repeat split.
        -- cbn. intros [= <- <- <-]. cbn. rewrite He, Em, Hrefl, andb_false_r.
           repeat split.
      * cbn [truthy_opt]. rewrite Ed. cbn.
        destruct (truthy_opt inf) eqn:Ei; cbn; intros [= <- <- <-]; cbn;
          rewrite ?He; cbn.
        -- rewrite Hrefl, andb_false_r. repeat split.
        -- rewrite Em. cbn. rewrite Ed. repeat split.
    + cbn. destruct (truthy_opt inf) eqn:Ei; cbn; intros [= <- <- <-]; cbn;
        rewrite ?He; cbn.
      * rewrite Hrefl, andb_false_r. repeat split.
      * rewrite Em. repeat split.
Qed.

Lemma engine_after_resolve_same (e : engine) :
  engine_class_of (engine_after_resolve e) = engine_class_of e /\
  object_id (engine_after_resolve e) = object_id e /\
  has_transcribe_file (engine_after_resolve e) = has_transcribe_file e.
Proof.
  unfold engine_after_resolve, fix_vosk_engine_type.
  destruct (bool_decide _); [| auto].
  destruct (engine_type e) as [t|]; [| auto].
  destruct (bool_decide _); auto.
Qed.

Example transcribe_file_vosk_manager :
  transcribe_file sample_world "/audio/talk.wav" vosk_manager
  = (None, vosk_manager,
     [log_error "engine does not support file transcription";
      log_error "choose a model that supports file transcription"]).
Proof. vm_compute. reflexivity. Qed.

(** C4: when the loaded engine has no [transcribe_file], the manager's
    [transcribe_file] returns [None], keeps that very engine object (same
    object, same class; at most the [engine_type] attribute of a [VoskASR]
    is corrected) and emits no signal: no other engine is initialised or
    asked to transcribe. *)
Theorem transcribe_file_unsupported (w : World) (file_path : string)
  (s : manager) (e : engine) :
  current_engine s = Some e ->
  has_transcribe_file e = false ->
  let '(r, s', evs) := transcribe_file w file_path s in
  r = None /\
  current_engine s' = Some (engine_after_resolve e) /\
  engine_class_of (engine_after_resolve e) = engine_class_of e /\
  object_id (engine_after_resolve e) = object_id e /\
  forallb is_log evs = true.
Proof.
  intros He Hcap.
  destruct (engine_after_resolve_same e) as (Hcls & Hid & Htf).
  unfold transcribe_file, bind, get, when, ret. rewrite He. cbn [is_Some_bool negb].
  rewrite He.
  destruct (get_current_engine_type s) as [[r1 s1] ev1] eqn:Eg.
  destruct (get_current_engine_type_agrees s e r1 s1 ev1 He Eg)
    as (Hce & _ & Hagree & Hlog).
  rewrite Hagree. rewrite Hce, Htf, Hcap. cbn.
  repeat split; try assumption.
  rewrite forallb_app, Hlog. reflexivity.
Qed.

(** Witness for C4: the Vosk engine of the sample manager has no
    [transcribe_file]. *)
Lemma transcribe_file_unsupported_witness :
  (transcribe_file sample_world "/audio/talk.wav" vosk_manager).1.1 = None.
Proof.
  pose proof (transcribe_file_unsupported sample_world "/audio/talk.wav"
                vosk_manager vosk_engine eq_refl eq_refl) as H.
  destruct (transcribe_file sample_world "/audio/talk.wav" vosk_manager) as [[r s'] evs].
  exact (proj1 H).
Defined.

End TranscribeFileFacts.

(** ** Loading a model *)
Section LoadFacts.
Import PyStr ASRModelManager.

(** With the kind given, [_validate_model_path] reads nothing of the
    manager but its configuration. *)
Lemma validate_model_path_config_only (w : World) (s1 s : manager)
  (path kind : string) :
  models_config s1 = models_config s ->
  _validate_model_path w s1 path (Some kind) = _validate_model_path w s path (Some kind).
Proof. intros H. unfold _validate_model_path, sherpa_layout_ok. now rewrite H. Qed.

(** The [VoskASR] branch leaves the manager alone unless the second
    validation passed and the constructor returned an object. *)
Lemma construct_vosk_untouched (w : World) (cfg : model_cfg) (t : string)
  (s : manager) out s' evs :
  match cfg_path cfg with
  | Some path =>
      _validate_model_path w s path (Some t) = false \/
      is_Some_bool (VoskASR_init w path) = false
  | None => True
  end ->
  construct_vosk w cfg t s = (out, s', evs) ->
  out <> Constructed /\ s' = s.
Proof.
  unfold construct_vosk, bind, get, modify, tell, ret, _validate_model_path_call, logged.
  destruct (cfg_path cfg) as [path|]; [| intros _ [= <- <- <-]; split; congruence].
  intros Hc.
  destruct (negb (path_exists w path)); [intros [= <- <- <-]; split; congruence |].
  cbv beta iota zeta.
  destruct (_validate_model_path w s path (Some t)); cbn [negb];
    [| intros [= <- <- <-]; split; congruence].
  destruct Hc as [Hc | Hc]; [discriminate |].
  destruct (VoskASR_init w path); [discriminate |].
  intros [= <- <- <-]; split; congruence.
Qed.

(** The same for the [SherpaOnnxASR] branch. *)
Lemma construct_sherpa_untouched (w : World) (cfg : model_cfg) (t : string)
  (s : manager) out s' evs :
  match cfg_path cfg with
  | Some path =>
      _validate_model_path w s path (Some t) = false \/
      is_Some_bool
        (SherpaOnnxASR_init w path
           (<["type" := (sherpa_kind t).1]> (<["name" := (sherpa_kind t).2]> ∅))) = false
  | None => True
  end ->
  construct_sherpa w cfg t s = (out, s', evs) ->
  out <> Constructed /\ s' = s.
Proof.
  unfold construct_sherpa, bind, get, modify, tell, ret, _validate_model_path_call, logged.
  destruct (cfg_path cfg) as [path|]; [| intros _ [= <- <- <-]; split; congruence].
  intros Hc.
  destruct (negb (path_exists w path)); [intros [= <- <- <-]; split; congruence |].
  cbv beta iota zeta.
  destruct (_validate_model_path w s path (Some t)); cbn [negb];
    [| intros [= <- <- <-]; split; congruence].
  destruct Hc as [Hc | Hc]; [discriminate |].
  destruct (sherpa_kind t) as [kind name]. simpl in Hc.
  destruct (SherpaOnnxASR_init w path _); [discriminate |].
  intros [= <- <- <-]; split; congruence.
Qed.

(** [initialize_engine] for the declared model type fails and leaves the
    manager alone when the entry is not enabled, the second validation
    fails, or no constructor returns an object. *)
Lemma initialize_engine_untouched (w : World) (t : string) (s : manager) ok s' evs :
  model_type s = Some t ->
  match models_config s !! t with
  | Some cfg =>
      cfg_enabled cfg = false \/
      _validate_model_path w s (default EmptyString (cfg_path cfg)) (Some t) = false \/
      adapter_constructed w t cfg = false
  | None => True
  end ->
  initialize_engine w t s = (ok, s', evs) ->
  ok = false /\ s' = s.
Proof.
  intros Hm Hc. unfold initialize_engine, bind, get, tell, ret. rewrite Hm.
  rewrite String.eqb_refl, andb_false_r.
  destruct (models_config s !! t) as [cfg|]; [| intros [= <- <- <-]; auto].
  destruct (cfg_enabled cfg); cbn [negb]; [| intros [= <- <- <-]; auto].
  destruct Hc as [Hc | Hc]; [discriminate |].
  unfold adapter_constructed in Hc.
  destruct (String.eqb t "vosk" || String.eqb t "vosk_small").
  - destruct (construct_vosk w cfg t s) as [[out s1] ev1] eqn:Ev.
    apply construct_vosk_untouched in Ev as [Hout ->].
    + destruct out; [congruence | |]; intros [= <- <- <-]; auto.
    + destruct (cfg_path cfg); [exact Hc | exact I].
  - destruct (startswith "sherpa" t).
    + destruct (construct_sherpa w cfg t s) as [[out s1] ev1] eqn:Ev.
      apply construct_sherpa_untouched in Ev as [Hout ->].
      * destruct out; [congruence | |]; intros [= <- <- <-]; auto.
      * destruct (cfg_path cfg); [exact Hc | exact I].
    + intros [= <- <- <-]; auto.
Qed.

(** C1, counterexample: with a working Vosk engine loaded, loading the
    standard Sherpa model passes validation, the constructor returns an
    object, [setup()] fails: [load_model] returns [False] and
    [current_engine] is the new, unusable Sherpa object. *)
Lemma load_model_setup_failure_counterexample :
  current_engine vosk_manager = Some vosk_engine /\
  let '(ok, s', _) := load_model sample_world "sherpa_onnx_std" vosk_manager in
  ok = false /\
  current_engine s' = Some sherpa_std_engine /\
  current_engine s' <> current_engine vosk_manager.
Proof. vm_compute. repeat split. discriminate. Qed.

(** [load_model] once the checks before the initialisation have passed. *)
Lemma load_model_after_validation (w : World) (model_name : string) (s : manager)
  (cfg : model_cfg) :
  models_config s !! model_name = Some cfg ->
  truthy (default EmptyString (cfg_path cfg)) = true ->
  path_exists w (default EmptyString (cfg_path cfg)) = true ->
  validate_model_files w s (default EmptyString (cfg_path cfg)) (Some model_name) = true ->
  load_model w model_name s =
  let '(ok, s2, ev) :=
    initialize_engine w model_name
      (set_model_type (Some model_name) (set_current_model_type (Some model_name) s)) in
  let vlog :=
    validate_model_files_log w s (default EmptyString (cfg_path cfg)) (Some model_name) in
  if ok then (true, set_current_model true s2, vlog ++ ev ++ [model_loaded true; status_updated])
  else (false, s2, vlog ++ ev ++ [log_error "engine initialisation failed"]).
Proof.
  intros Ecfg Et Ep Ev.
  unfold load_model, bind, get, modify, tell, ret, validate_model_files_call, logged.
  rewrite Ecfg.
  replace (match cfg_path cfg with Some p => p | None => EmptyString end)
    with (default EmptyString (cfg_path cfg)) by now destruct (cfg_path cfg).
  rewrite Et, Ep. cbn [negb]. cbv beta iota zeta. rewrite Ev. cbn [negb].
  destruct (String.eqb_spec model_name "vosk_small") as [-> | Hvs];
    cbv beta iota zeta;
    destruct (initialize_engine w _ _) as [[[|] s2] ev]; reflexivity.
Qed.

(** The failures of [load_model] that leave the manager, or its engine,
    as it was. *)
Lemma load_model_failure_cases (w : World) (model_name : string) (s : manager) :
  let '(ok, s', evs) := load_model w model_name s in
  (models_config s !! model_name = None -> ok = false /\ s' = s) /\
  (forall cfg, models_config s !! model_name = Some cfg ->
     truthy (default EmptyString (cfg_path cfg)) = false \/
     path_exists w (default EmptyString (cfg_path cfg)) = false \/
     validate_model_files w s (default EmptyString (cfg_path cfg)) (Some model_name) = false ->
     ok = false /\ s' = s) /\
  (forall cfg, models_config s !! model_name = Some cfg ->
     cfg_enabled cfg = false \/
     _validate_model_path w s (default EmptyString (cfg_path cfg)) (Some model_name) = false \/
     adapter_constructed w model_name cfg = false ->
     ok = false /\ current_engine s' = current_engine s).
Proof.
  destruct (models_config s !! model_name) as [cfg|] eqn:Ecfg.
  2:{ unfold load_model, bind, get, tell, ret. rewrite Ecfg.
      repeat split; congruence. }
  set (path := default EmptyString (cfg_path cfg)).
  assert (Hearly : truthy path = false \/ path_exists w path = false \/
                   validate_model_files w s path (Some model_name) = false ->
                   exists evs, load_model w model_name s = (false, s, evs)).
  { unfold load_model, bind, get, tell, ret, validate_model_files_call, logged.
    rewrite Ecfg.
    replace (match cfg_path cfg with Some p => p | None => EmptyString end)
      with path by (unfold path; now destruct (cfg_path cfg)).
    destruct (truthy path); [| eauto].
    destruct (path_exists w path); [| eauto]. cbn [negb]. cbv beta iota zeta.
    destruct (validate_model_files w s path (Some model_name)); [| eauto].
    intros [H | [H | H]]; discriminate. }
  destruct (truthy path) eqn:Et.
  2:{ destruct Hearly as [evs ->]; [auto |]. repeat split; congruence. }
  destruct (path_exists w path) eqn:Ep.
  2:{ destruct Hearly as [evs ->]; [auto |]. repeat split; congruence. }
  destruct (validate_model_files w s path (Some model_name)) eqn:Ev.
  2:{ destruct Hearly as [evs ->]; [auto |]. repeat split; congruence. }
  clear Hearly. rewrite (load_model_after_validation w model_name s cfg Ecfg Et Ep Ev).
  set (s1 := set_model_type (Some model_name)
               (set_current_model_type (Some model_name) s)).
  destruct (initialize_engine w model_name s1) as [[ok s2] ev] eqn:Ei.
  assert (Hun : cfg_enabled cfg = false \/
                _validate_model_path w s path (Some model_name) = false \/
                adapter_constructed w model_name cfg = false ->
                ok = false /\ s2 = s1).
  { intros Hc. eapply initialize_engine_untouched; [| | exact Ei]; [reflexivity |].
    change (models_config s1) with (models_config s). rewrite Ecfg.
    rewrite (validate_model_path_config_only w s1 s) by reflexivity. exact Hc. }
  cbv zeta. destruct ok.
  - split; [congruence |]. split.
    + intros cfg' [= <-] [H | [H | H]]; fold path in H; congruence.
    + intros cfg' [= <-] Hc. destruct (Hun Hc). congruence.
  - split; [congruence |]. split.
    + intros cfg' [= <-] [H | [H | H]]; fold path in H; congruence.
    + intros cfg' [= <-] Hc. destruct (Hun Hc) as [_ ->].
      split; reflexivity.
Qed.

(** C1, amended: [load_model] leaves the whole manager as it was when the
    name is not configured, the path is empty or missing, or file validation
    fails; and whenever it fails without an engine constructor having
    returned an object (entry not enabled, second validation failing,
    engine type unsupported, constructor raising) [current_engine] is what
    it was.  These are all the cases: a failed load that changed
    [current_engine] got as far as a constructor that returned an object. *)
Theorem load_model_failure_keeps_engine (w : World) (model_name : string) (s : manager) :
  let '(ok, s', evs) := load_model w model_name s in
  (models_config s !! model_name = None -> ok = false /\ s' = s) /\
  (forall cfg, models_config s !! model_name = Some cfg ->
     truthy (default EmptyString (cfg_path cfg)) = false \/
     path_exists w (default EmptyString (cfg_path cfg)) = false \/
     validate_model_files w s (default EmptyString (cfg_path cfg)) (Some model_name) = false ->
     ok = false /\ s' = s) /\
  (forall cfg, models_config s !! model_name = Some cfg ->
     cfg_enabled cfg = false \/
     _validate_model_path w s (default EmptyString (cfg_path cfg)) (Some model_name) = false \/
     adapter_constructed w model_name cfg = false ->
     ok = false /\ current_engine s' = current_engine s) /\
  (ok = false -> current_engine s' <> current_engine s ->
   exists cfg, models_config s !! model_name = Some cfg /\
     cfg_enabled cfg = true /\
     validate_model_files w s (default EmptyString (cfg_path cfg)) (Some model_name) = true /\
     _validate_model_path w s (default EmptyString (cfg_path cfg)) (Some model_name) = true /\
     adapter_constructed w model_name cfg = true).
Proof.
  pose proof (load_model_failure_cases w model_name s) as H.
  destruct (load_model w model_name s) as [[ok s'] evs].
  destruct H as (H1 & H2 & H3).
  split; [exact H1 |]. split; [exact H2 |]. split; [exact H3 |].
  intros Hok Hne.
  destruct (models_config s !! model_name) as [cfg|] eqn:Ec.
  2:{ exfalso. destruct (H1 eq_refl) as [_ ->]. now apply Hne. }
  exists cfg. split; [reflexivity |].
  destruct (cfg_enabled cfg) eqn:E1;
    [| exfalso; apply Hne, (H3 cfg eq_refl); auto].
  destruct (validate_model_files w s _ (Some model_name)) eqn:E2;
    [| exfalso; destruct (H2 cfg eq_refl) as [_ ->]; auto].
  destruct (_validate_model_path w s _ (Some model_name)) eqn:E3;
    [| exfalso; apply Hne, (H3 cfg eq_refl); auto].
  destruct (adapter_constructed w model_name cfg) eqn:E4;
    [| exfalso; apply Hne, (H3 cfg eq_refl); auto].
  auto.
Qed.

(** Witness for C1: the int8 Sherpa model fails validation (its path
    contains "vosk"), so the manager is as before; and the standard Sherpa
    model, complete on disk and with a constructor that would return an
    object, is switched off, so the Vosk engine stays loaded. *)
Lemma load_model_failure_keeps_engine_witness :
  (let '(ok, s', _) := load_model sample_world "sherpa_onnx_int8" vosk_manager in
   ok = false /\ s' = vosk_manager) /\
  (adapter_constructed sample_world "sherpa_onnx_std"
     (mkCfg (Some "/models/sherpa-std") (Some "standard") false) = true /\
   let '(ok, s', _) := load_model sample_world "sherpa_onnx_std" std_disabled_manager in
   ok = false /\ current_engine s' = Some vosk_engine).
Proof.
  split.
  - pose proof (load_model_failure_keeps_engine sample_world "sherpa_onnx_int8"
                  vosk_manager) as H.
    destruct (load_model sample_world "sherpa_onnx_int8" vosk_manager) as [[ok s'] evs].
    destruct H as (_ & H & _ & _).
    apply (H (mkCfg (Some "/models/vosk-backup/sherpa-int8") (Some "int8") true)).
    + reflexivity.
    + right. right. reflexivity.
  - split; [reflexivity |].
    pose proof (load_model_failure_keeps_engine sample_world "sherpa_onnx_std"
                  std_disabled_manager) as H.
    destruct (load_model sample_world "sherpa_onnx_std" std_disabled_manager)
      as [[ok s'] evs].
    destruct H as (_ & _ & H & _).
    apply (H (mkCfg (Some "/models/sherpa-std") (Some "standard") false)).
    + reflexivity.
    + left. reflexivity.
Defined.

End LoadFacts.

(** ** Further properties of text shaping *)
Section FormatTextMore.
Import PyStr FormatText.

Lemma length_append (a b : string) :
  String.length (a +:+ b) = (String.length a + String.length b)%nat.
Proof.
  induction a as [|c a IH]; [reflexivity |].
  rewrite append_cons. simpl. now rewrite IH.
Qed.

Lemma period_to_question_length (u : string) :
  String.length (period_to_question u) = String.length u.
Proof.
  unfold period_to_question. destruct (last_char u) as [l|] eqn:El; [| reflexivity].
  destruct (Ascii.eqb_spec l "."%char) as [-> |]; [| reflexivity].
  rewrite (drop_last_last_char u _ El) at 2. now rewrite !length_append.
Qed.

Lemma ends_in_punctuation_upper (c : ascii) (t : string) :
  ends_in_punctuation (String (upper_char c) t) = ends_in_punctuation (String c t).
Proof.
  unfold ends_in_punctuation. destruct t as [|y t'].
  - destruct c as [[] [] [] [] [] [] [] []]; reflexivity.
  - now rewrite !last_char_cons.
Qed.

(** X1: for every non-empty ASCII text the shaped text starts with the
    upper-cased first character, ends in one of . ? ! , ; : - and is as
    long as the text when that ends in one of these characters and one
    character longer when it does not. *)
Theorem format_text_output_shape (c : ascii) (t : string) :
  all_ascii (String c t) = true ->
  let r := _format_text (String c t) in
  ends_in_punctuation r = true /\
  (exists t', r = String (upper_char c) t') /\
  String.length r
  = (String.length (String c t) + if ends_in_punctuation (String c t) then 0 else 1)%nat.
Proof.
  intros _. cbv zeta. destruct (format_text_head c t) as (t' & E & He & _).
  split; [now rewrite E |]. split; [now exists t' |].
  rewrite format_text_cons. cbv zeta.
  assert (Hu : String.length (ensure_period (String (upper_char c) t))
               = (String.length (String c t)
                  + if ends_in_punctuation (String c t) then 0 else 1)%nat).
  { unfold ensure_period. rewrite ends_in_punctuation_upper.
    destruct (ends_in_punctuation (String c t)).
    - simpl. lia.
    - rewrite length_append. simpl. lia. }
  destruct (starts_with_question_word _); [rewrite period_to_question_length |]; exact Hu.
Qed.

(** X26: an ASCII text that ends in one of ? ! , ; : - only has its first
    character capitalised: no period is appended and nothing is replaced;
    "stop!" becomes "Stop!". *)
Theorem format_text_keeps_punctuation (s : string) (c : ascii) :
  all_ascii s = true ->
  last_char s = Some c -> In c terminal_punctuation -> c <> "."%char ->
  _format_text s = capitalize_first s.
Proof.
  intros _ Hs Hin Hdot. destruct s as [|a t]; [discriminate |].
  rewrite format_text_cons. cbv zeta. cbn [capitalize_first].
  assert (Hl : last_char (String (upper_char a) t) = Some c).
  { destruct t as [|y t']; [| exact Hs]. injection Hs as ->.
    unfold terminal_punctuation in Hin. simpl in Hin.
    repeat (destruct Hin as [<- | Hin]; [reflexivity |]). destruct Hin. }
  assert (He : ends_in_punctuation (String (upper_char a) t) = true).
  { unfold ends_in_punctuation. rewrite Hl. apply existsb_exists.
    exists c. split; [exact Hin | apply Ascii.eqb_refl]. }
  rewrite (ensure_period_id _ He).
  destruct (starts_with_question_word _); [| reflexivity].
  apply period_to_question_id. rewrite Hl. congruence.
Qed.

Lemma format_text_keeps_punctuation_witness : _format_text "stop!" = "Stop!".
Proof.
  exact (format_text_keeps_punctuation "stop!" "!"%char eq_refl eq_refl
           ltac:(simpl; auto) ltac:(discriminate)).
Defined.

Lemma format_text_output_shape_witness :
  ends_in_punctuation (_format_text "hello world") = true /\
  String.length (_format_text "hello world") = 12%nat.
Proof.
  destruct (format_text_output_shape "h"%char "ello world" eq_refl) as (H1 & _ & H3).
  split; [exact H1 | exact H3].
Defined.

End FormatTextMore.

(** ** Further properties of live recognition and devices *)
Section RecognitionMore.
Import PyStr ASRModelManager.

(** X2: without an engine, or without a device, [start_recognition] returns
    [False], leaves the manager as it was and emits one [error_occurred]. *)
Theorem start_recognition_not_ready (s : manager) :
  current_engine s = None \/ truthy_opt (current_device s) = false ->
  exists msg, start_recognition s = (false, s, [log_error msg; error_occurred]).
Proof.
  unfold start_recognition, bind, get, tell, ret.
  destruct (current_engine s) as [e|] eqn:He; cbn.
  - intros [H | H]; [discriminate |]. rewrite H. cbn. eauto.
  - intros _. eauto.
Qed.

Lemma start_recognition_not_ready_witness :
  exists msg, start_recognition fresh_manager
              = (false, fresh_manager, [log_error msg; error_occurred]).
Proof. apply start_recognition_not_ready. left. reflexivity. Defined.

(** X3: with an engine and a device, [start_recognition] returns [True] and
    sets [is_recognizing]; [recognition_started] is emitted exactly when
    recognition was not running yet, so a second call in a row changes
    nothing and emits only a log warning. *)
Theorem start_recognition_once (s : manager) (e : engine) :
  current_engine s = Some e ->
  truthy_opt (current_device s) = true ->
  let '(r1, s1, ev1) := start_recognition s in
  let '(r2, s2, ev2) := start_recognition s1 in
  r1 = true /\ r2 = true /\ s1 = set_is_recognizing true s /\ s2 = s1 /\
  ev1 = (if is_recognizing s then [log_warning "recognition already running"]
         else [recognition_started; status_updated]) /\
  ev2 = [log_warning "recognition already running"].
Proof.
  intros He Hd. unfold start_recognition, bind, get, modify, tell, ret.
  rewrite He. cbn. rewrite Hd. cbn.
  destruct s as [cfg cm cmt mt ce cd rec]. simpl in *. subst ce.
  destruct rec; cbn; rewrite Hd; cbn; repeat split.
Qed.

Lemma start_recognition_once_witness :
  (start_recognition vosk_manager).1.1 = true.
Proof.
  pose proof (start_recognition_once vosk_manager vosk_engine eq_refl eq_refl) as H.
  destruct (start_recognition vosk_manager) as [[r1 s1] ev1].
  destruct (start_recognition s1) as [[r2 s2] ev2].
  exact (proj1 H).
Defined.

(** X4: starting and then stopping brings a manager that was not
    recognizing back to exactly the state it had, with one
    [recognition_started] and one [recognition_stopped] in between. *)
Theorem start_stop_round_trip (s : manager) (e : engine) :
  current_engine s = Some e ->
  truthy_opt (current_device s) = true ->
  is_recognizing s = false ->
  let '(r1, s1, ev1) := start_recognition s in
  let '(r2, s2, ev2) := stop_recognition s1 in
  r1 = true /\ r2 = true /\ s2 = s /\
  ev1 ++ ev2 = [recognition_started; status_updated; recognition_stopped; status_updated].
Proof.
  intros He Hd Hr. unfold start_recognition, stop_recognition, bind, get, modify, tell, ret.
  rewrite He. cbn. rewrite Hd, Hr. cbn.
  destruct s as [cfg cm cmt mt ce cd rec]. simpl in *. subst. repeat split.
Qed.

Lemma start_stop_round_trip_witness :
  let '(r1, s1, ev1) := start_recognition (set_is_recognizing false vosk_manager) in
  let '(r2, s2, ev2) := stop_recognition s1 in
  r1 = true /\ r2 = true /\ s2 = set_is_recognizing false vosk_manager /\
  ev1 ++ ev2 = [recognition_started; status_updated; recognition_stopped; status_updated].
Proof.
  exact (start_stop_round_trip (set_is_recognizing false vosk_manager) vosk_engine
           eq_refl eq_refl eq_refl).
Defined.

(** X5: [set_audio_device] rejects an empty device without touching the
    manager; otherwise it stores the device, and with an engine loaded
    [start_recognition] then succeeds. *)
Theorem set_audio_device_then_start (s : manager) (device : option string) :
  let '(r, s1, ev) := set_audio_device device s in
  (truthy_opt device = false ->
   r = false /\ s1 = s /\ ev = [log_error "audio device empty"; error_occurred]) /\
  (truthy_opt device = true ->
   r = true /\ s1 = set_current_device device s /\ ev = [status_updated] /\
   (is_Some_bool (current_engine s) = true -> (start_recognition s1).1.1 = true)).
Proof.
  unfold set_audio_device, bind, modify, tell, ret.
  destruct (truthy_opt device) eqn:Hd; cbn; (split; [intros H | intros H]);
    try discriminate; repeat split.
  intros He. unfold start_recognition, bind, get, modify, tell, ret. cbn.
  destruct (current_engine s); [| discriminate]. cbn. rewrite Hd. cbn.
  now destruct (is_recognizing s).
Qed.

Lemma set_audio_device_then_start_witness :
  (set_audio_device (Some "loopback") fresh_manager).1.1 = true.
Proof.
  pose proof (set_audio_device_then_start fresh_manager (Some "loopback")) as H.
  destruct (set_audio_device (Some "loopback") fresh_manager) as [[r s1] ev].
  exact (proj1 (proj2 H eq_refl)).
Defined.

(** [get_available_engines] always has exactly the five fixed names as
    keys, whatever is configured; each is mapped to [True] exactly when it
    is configured and enabled, and a configured model of another name is not
    listed. *)
Lemma get_available_engines_keys (s : manager) :
  dom (get_available_engines s)
  = ({["vosk_small"; "sherpa_onnx_int8"; "sherpa_onnx_std";
       "sherpa_0626_int8"; "sherpa_0626_std"]} : gset string) /\
  (forall name : string,
     get_available_engines s !! name
     = if bool_decide (name ∈ ["vosk_small"; "sherpa_onnx_int8"; "sherpa_onnx_std";
                               "sherpa_0626_int8"; "sherpa_0626_std"])
       then Some (engine_enabled s name) else None).
Proof.
  split.
  - unfold get_available_engines. rewrite !dom_insert_L, dom_empty_L. set_solver.
  - intros name. unfold get_available_engines.
    repeat (rewrite lookup_insert; case_decide;
            [subst name; rewrite bool_decide_eq_true_2; [reflexivity | set_solver] |]).
    rewrite lookup_empty. rewrite bool_decide_eq_false_2; [reflexivity |].
    rewrite !elem_of_cons, elem_of_nil.
    intros [Hn | [Hn | [Hn | [Hn | [Hn | []]]]]]; congruence.
Qed.

End RecognitionMore.

(** ** The plugin registry *)
Section RegistryFacts.
Import PluginRegistry.

(** X7: after [register_plugin(name, c)], [get_plugin_class(name)] is [c]
    and every other name is as before; the overwrite warning is logged
    exactly when the name was registered already; registering the same class
    again changes nothing; and [create_plugin] gives no instance for a name
    that is not registered. *)
Theorem register_plugin_round_trip (r : registry) (name : string) (c : plugin_class) :
  get_plugin_class (register_plugin name c r).1 name = Some c /\
  (forall other, other <> name ->
     get_plugin_class (register_plugin name c r).1 other = get_plugin_class r other) /\
  ((register_plugin name c r).2 = true <-> is_Some (get_plugin_class r name)) /\
  register_plugin name c (register_plugin name c r).1 = ((register_plugin name c r).1, true) /\
  (forall other config, get_plugin_class r other = None -> other <> name ->
     create_plugin (register_plugin name c r).1 other config = None).
Proof.
  unfold register_plugin, get_plugin_class, create_plugin. simpl.
  split; [apply lookup_insert_eq |].
  split; [intros other Hne; now apply lookup_insert_ne |].
  split.
  { destruct (_plugins r !! name) as [c0|]; split; intros H; try discriminate; eauto.
    destruct H as [x Hx]. discriminate. }
  split.
  { rewrite lookup_insert_eq, insert_insert_eq. reflexivity. }
  intros other config Hnone Hne. unfold get_plugin_class. simpl.
  rewrite lookup_insert_ne by congruence. now rewrite Hnone.
Qed.

Lemma register_plugin_round_trip_witness :
  let c := mkPluginClass "VoskPlugin" (Some 2%nat) (fun _ => Some 1%nat) in
  create_plugin (register_plugin "vosk_small" c (mkRegistry ∅)).1 "sherpa_onnx" ∅ = None.
Proof.
  cbv zeta.
  apply (proj2 (proj2 (proj2 (proj2
           (register_plugin_round_trip (mkRegistry ∅) "vosk_small"
              (mkPluginClass "VoskPlugin" (Some 2%nat) (fun _ => Some 1%nat))))))).
  - reflexivity.
  - discriminate.
Defined.

End RegistryFacts.

(** ** Starting a job, and what the worker leaves behind *)
Section JobFacts.
Import PyStr FormatText FileTranscriber.

(** X8: [start_transcription] refuses while a job is active, changing
    nothing and emitting nothing; from the idle state it returns [True]
    exactly when it leaves [is_transcribing] set, never touches the list of
    temporary files, records the new thread on success and emits
    [error_occurred] on every failure. *)
Theorem start_transcription_flag (sw : StartWorld) (self : transcriber) :
  let '(ok, self', es) := start_transcription sw self in
  (if is_transcribing self
   then ok = false /\ self' = self /\ es = [Warn "already transcribing"]
   else ok = is_transcribing self' /\
        temp_files self' = temp_files self /\
        (if ok then transcription_thread self' = Some (new_thread sw) /\
                    ~ In (Emit error_occurred) es
         else In (Emit error_occurred) es)).
Proof.
  unfold start_transcription.
  destruct self as [hs hf tr th tf fp]. simpl.
  destruct tr; [repeat split |].
  destruct (start_file_exists sw); simpl; [| repeat split; auto].
  destruct (probe sw) as [d|]; simpl.
  - destruct (thread_start_ok sw); simpl; repeat split.
    + destruct hs; simpl; intuition discriminate.
    + apply in_or_app. right. simpl. auto.
  - repeat split. apply in_or_app. right. simpl. auto.
Qed.



Lemma count_finished_app (a b : list effect) :
  count_finished (a ++ b) = (count_finished a + count_finished b)%nat.
Proof.
  induction a as [|x a IH]; [reflexivity |].
  simpl. destruct x as [[] | | | | | |]; simpl; now rewrite IH.
Qed.

(** Counts through concatenations and literal effects. *)
Ltac count_up :=
  repeat first [ rewrite count_finished_app | progress cbn [count_finished app] ].

Lemma read_loop_no_finished (w : JobWorld) (stream : list string) :
  forall st r es, read_loop w stream st = (r, es) -> count_finished es = 0%nat.
Proof.
  induction stream as [|chunk rest IH]; intros st r es H; cbn [read_loop] in H.
  - destruct (negb _); now injection H as <- <-.
  - destruct (negb (flag w _)); [now injection H as <- <- |].
    destruct (negb (truthy chunk)); [now injection H as <- <- |].
    destruct (Qle_bool _ _).
    + destruct (read_progress _ _); [| now injection H as <- <-].
      destruct (read_loop w rest _) as [r' es'] eqn:Er.
      injection H as <- <-. simpl. eapply IH, Er.
    + eapply IH, H.
Qed.

Lemma process_loop_no_finished (w : JobWorld) (n : nat) (chunks : list string) :
  forall i st r es, process_loop w chunks i n st = (r, es) -> count_finished es = 0%nat.
Proof.
  induction chunks as [|chunk rest IH]; intros i st r es H; cbn [process_loop] in H.
  - now injection H as <- <-.
  - destruct (negb (flag w _)); [now injection H as <- <- |].
    destruct (accept_waveform w i) as [| |text]; [now injection H as <- <- | |].
    all: destruct (Qle_bool _ _);
      destruct (process_loop w rest (S i) n _) as [r' es'] eqn:Er;
      injection H as <- <-;
      try destruct (truthy text && _); cbn [app count_finished];
      eapply IH, Er.
Qed.

Lemma convert_no_finished (w : JobWorld) (self : transcriber) (c : counters)
  wav self' c' es :
  _convert_to_wav w self c = (wav, self', c', es) ->
  count_finished es = 0%nat /\
  signals_has_finished self' = signals_has_finished self /\
  temp_files self' = temp_files self ++ (if mkstemp_ok w then [temp_wav] else []).
Proof.
  unfold _convert_to_wav.
  destruct (mkstemp_ok w); cbn [negb].
  2:{ intros [= <- <- <- <-]. rewrite app_nil_r. auto. }
  destruct (negb (popen_ok w)); [intros [= <- <- <- <-]; auto |].
  destruct (wait_converter w _ _) as [finished p].
  destruct (negb finished);
    [destruct (terminate_wait_ok _ _); intros [= <- <- <- <-]; auto |].
  destruct (negb (conv_returncode w =? 0)%Z); intros [= <- <- <- <-]; auto.
Qed.

Lemma cleanup_no_finished (os : OS) (self : transcriber) :
  count_finished (_cleanup_temp_files os self).2 = 0%nat.
Proof.
  unfold _cleanup_temp_files. simpl.
  induction (temp_files self) as [|f fs IH]; [reflexivity |].
  simpl. rewrite count_finished_app, IH. now destruct (file_exists os f).
Qed.

(** What the Vosk path leaves: the temporary files it made, and one
    [transcription_finished] exactly when it returned early. *)
Lemma vosk_path_leaves (w : JobWorld) (self : transcriber) e self1 es :
  _transcribe_file_with_vosk w self = (e, self1, es) ->
  count_finished es = (match e with Stopped => 1 | _ => 0 end)%nat /\
  signals_has_finished self1 = signals_has_finished self /\
  temp_files self1 = temp_files self ++ (if mkstemp_ok w then [temp_wav] else []).
Proof.
  unfold _transcribe_file_with_vosk.
  destruct (_convert_to_wav w self _) as [[[wav self0] c] e1] eqn:Ec.
  apply convert_no_finished in Ec as (Hc & Hs & Ht).
  destruct wav as [f|].
  2:{ rewrite Hs. destruct (signals_has_finished self); intros [= <- <- <-];
        count_up; rewrite Hc; auto. }
  destruct (negb (flag w (polls c))).
  { rewrite Hs. destruct (signals_has_finished self); intros [= <- <- <-];
      count_up; rewrite Hc; auto. }
  destruct (negb (decoder_popen_ok w)).
  { intros [= <- <- <-]. count_up. rewrite Hc. auto. }
  destruct (read_loop w (pcm_stream w) _) as [[rd|] e3] eqn:Er;
    apply read_loop_no_finished in Er.
  2:{ intros [= <- <- <-]. count_up. rewrite Hc, Er. auto. }
  destruct (terminate_wait_ok (job_os w) decoder_pid).
  all: destruct (negb (flag w (polls (read_counters rd))));
    [ cbn [signals_has_finished set_ffmpeg_process]; rewrite Hs;
      destruct (signals_has_finished self); intros [= <- <- <-];
      count_up; rewrite Hc, Er; auto |].
  all: destruct (process_loop w (all_chunks rd) 0 _ _) as [[pr|] e6] eqn:Ep;
    apply process_loop_no_finished in Ep;
    [| intros [= <- <- <-]; count_up; rewrite Hc, Er, Ep; auto].
  all: destruct (final_result w) as [final_text|];
    [| intros [= <- <- <-]; count_up; rewrite Hc, Er, Ep; auto].
  all: intros [= <- <- <-];
    destruct (if truthy final_text then _ else _); count_up; rewrite Hc, Er, Ep; auto.
Qed.

Lemma manager_path_leaves (w : JobWorld) (self : transcriber) e self1 es :
  _transcribe_file_with_manager w self = (e, self1, es) ->
  count_finished es = 0%nat /\ e <> Stopped /\ self1 = self.
Proof.
  unfold _transcribe_file_with_manager.
  destruct (manager_result w) as [result|]; intros [= <- <- <-];
    [| repeat split; discriminate].
  repeat split; [| discriminate].
  destruct result as [text|]; [destruct (truthy text) |]; reflexivity.
Qed.

(** X10: however the worker ends (completed, stopped early, or after an
    exception), it clears [is_transcribing], empties the list of temporary
    files after asking to remove every one of them that still exists,
    including the WAV file the Vosk path made, and its last effect is
    [transcription_finished] when the signals object has that signal. *)
Theorem worker_always_cleans_up (w : JobWorld) (self : transcriber) :
  let '(e, self', es) := _transcribe_file_thread w self in
  is_transcribing self' = false /\
  temp_files self' = [] /\
  (forall f, In f (temp_files self) -> file_exists (job_os w) f = true ->
             In (Remove f) es) /\
  (if recognizer_has_transcribe_file w then True
   else if mkstemp_ok w && file_exists (job_os w) temp_wav
        then In (Remove temp_wav) es else True) /\
  (if signals_has_finished self then last es = Some (Emit transcription_finished)
   else True).
Proof.
  unfold _transcribe_file_thread.
  assert (Hlast : forall es1 es2 es3,
            last (es1 ++ es2 ++ es3 ++ [Emit transcription_finished])
            = Some (Emit transcription_finished)).
  { intros. rewrite !app_assoc. apply last_snoc. }
  destruct (recognizer_has_transcribe_file w).
  - destruct (_transcribe_file_with_manager w self) as [[e self1] es] eqn:Em.
    apply manager_path_leaves in Em as (_ & _ & ->).
    pose proof (cleanup_removes (job_os w) self) as Hrm.
    destruct (_cleanup_temp_files (job_os w) self) as [self2 cl] eqn:Ec.
    unfold _cleanup_temp_files in Ec. injection Ec as <- <-.
    repeat split.
    + intros f Hin Hex. apply in_or_app. right. apply in_or_app. right.
      apply in_or_app. left. now apply Hrm.
    + destruct (signals_has_finished self); [apply Hlast | exact I].
  - destruct (_transcribe_file_with_vosk w self) as [[e self1] es] eqn:Ev.
    apply vosk_path_leaves in Ev as (_ & _ & Ht).
    pose proof (cleanup_removes (job_os w) self1) as Hrm.
    destruct (_cleanup_temp_files (job_os w) self1) as [self2 cl] eqn:Ec.
    unfold _cleanup_temp_files in Ec. injection Ec as <- <-.
    repeat split.
    + intros f Hin Hex. apply in_or_app. right. apply in_or_app. right.
      apply in_or_app. left. apply Hrm; [| exact Hex].
      rewrite Ht. apply in_or_app. now left.
    + destruct (mkstemp_ok w) eqn:Hm; [| exact I].
      destruct (file_exists (job_os w) temp_wav) eqn:Hex; [| exact I].
      cbn [andb]. apply in_or_app. right. apply in_or_app. right.
      apply in_or_app. left. apply Hrm; [| exact Hex].
      rewrite Ht. apply in_or_app. right. now left.
    + destruct (signals_has_finished self); [apply Hlast | exact I].
Qed.

(** X11: the worker emits [transcription_finished] once at its end (when
    the signals object has that signal), and the Vosk path emits it one more
    time before that when it returns early: a job that is stopped during
    conversion or reading signals its end twice, every other job once. *)
Theorem worker_finished_count (w : JobWorld) (self : transcriber) :
  let '(e, _, es) := _transcribe_file_thread w self in
  count_finished es
  = ((match e with Stopped => 1 | _ => 0 end)
     + (if signals_has_finished self then 1 else 0))%nat.
Proof.
  unfold _transcribe_file_thread.
  destruct (recognizer_has_transcribe_file w).
  - destruct (_transcribe_file_with_manager w self) as [[e self1] es] eqn:Em.
    apply manager_path_leaves in Em as (Hc & Hne & ->).
    pose proof (cleanup_no_finished (job_os w) self) as Hcl.
    destruct (_cleanup_temp_files (job_os w) self) as [self2 cl]. simpl in Hcl.
    rewrite !count_finished_app, Hc, Hcl.
    destruct e; [| congruence |]; now destruct (signals_has_finished self).
  - destruct (_transcribe_file_with_vosk w self) as [[e self1] es] eqn:Ev.
    apply vosk_path_leaves in Ev as (Hc & _ & _).
    pose proof (cleanup_no_finished (job_os w) self1) as Hcl.
    destruct (_cleanup_temp_files (job_os w) self1) as [self2 cl]. simpl in Hcl.
    rewrite !count_finished_app, Hc, Hcl.
    destruct e; now destruct (signals_has_finished self).
Qed.

Lemma sum_lengths_app (a b : list string) :
  sum_lengths (a ++ b) = (sum_lengths a + sum_lengths b)%Z.
Proof.
  induction a as [|c a IH]; [reflexivity |].
  simpl. unfold sum_lengths in *. simpl. rewrite IH. lia.
Qed.

(** What the reading loop has collected when it ends normally. *)
Lemma read_loop_collects (w : JobWorld) (stream : list string) :
  forall st rd es,
    read_loop w stream st = (Some rd, es) ->
    exists taken rest,
      stream = taken ++ rest /\
      all_chunks rd = all_chunks st ++ taken /\
      Forall (fun c => truthy c = true) taken /\
      total_bytes rd = (total_bytes st + sum_lengths taken)%Z /\
      ((forall n, flag w n = true) ->
       rest = [] \/ exists rest', rest = EmptyString :: rest').
Proof.
  induction stream as [|chunk rest IH]; intros st rd es H; cbn [read_loop] in H.
  - exists [], []. destruct (negb _); injection H as <- <-; simpl;
      rewrite app_nil_r, Z.add_0_r; repeat split; auto.
  - destruct (flag w (polls (read_counters st))) eqn:Ef; cbn [negb] in H.
    2:{ injection H as <- <-. exists [], (chunk :: rest). simpl.
        rewrite app_nil_r, Z.add_0_r. repeat split; auto.
        intros Hall. rewrite Hall in Ef. discriminate. }
    destruct (truthy chunk) eqn:Et; cbn [negb] in H.
    2:{ injection H as <- <-. exists [], (chunk :: rest). simpl.
        rewrite app_nil_r, Z.add_0_r. repeat split; auto.
        intros _. right. exists rest. f_equal.
        destruct chunk; [reflexivity | discriminate]. }
    assert (Hstep : forall st' ,
              all_chunks st' = all_chunks st ++ [chunk] ->
              total_bytes st' = (total_bytes st + Z.of_nat (String.length chunk))%Z ->
              forall es', read_loop w rest st' = (Some rd, es') ->
              exists taken rest0,
                chunk :: rest = taken ++ rest0 /\
                all_chunks rd = all_chunks st ++ taken /\
                Forall (fun c => truthy c = true) taken /\
                total_bytes rd = (total_bytes st + sum_lengths taken)%Z /\
                ((forall n, flag w n = true) ->
                 rest0 = [] \/ exists rest', rest0 = EmptyString :: rest')).
    { intros st' Hch Htb es' Hr.
      destruct (IH _ _ _ Hr) as (taken & rest0 & -> & Ha & Hf & Hb & Hend).
      exists (chunk :: taken), rest0. repeat split; auto.
      - rewrite Ha, Hch, <- app_assoc. reflexivity.
      - rewrite Hb, Htb. unfold sum_lengths. simpl. lia. }
    destruct (Qle_bool _ _).
    + destruct (read_progress _ _); [| discriminate].
      destruct (read_loop w rest _) as [r' es'] eqn:Er.
      injection H as -> <-. eapply Hstep; [| | exact Er]; reflexivity.
    + eapply Hstep; [| | exact H]; reflexivity.
Qed.

(** X12: when the reading loop ends normally, the chunks it holds are the
    chunks it held before followed by a prefix of the decoder output, none
    of them empty, and [total_bytes] is still the number of bytes held; if
    the job is never cancelled the prefix ends at the end of the output or
    at an empty read. *)
Theorem read_loop_counts_bytes (w : JobWorld) (stream : list string)
  (st rd : read_state) (es : list effect) :
  read_loop w stream st = (Some rd, es) ->
  total_bytes st = sum_lengths (all_chunks st) ->
  total_bytes rd = sum_lengths (all_chunks rd) /\
  exists taken rest,
    stream = taken ++ rest /\
    all_chunks rd = all_chunks st ++ taken /\
    Forall (fun c => truthy c = true) taken /\
    ((forall n, flag w n = true) ->
     rest = [] \/ exists rest', rest = EmptyString :: rest').
Proof.
  intros H Hinv.
  destruct (read_loop_collects w stream st rd es H)
    as (taken & rest & Hs & Ha & Hf & Hb & Hend).
  split.
  - rewrite Hb, Ha, sum_lengths_app, Hinv. reflexivity.
  - exists taken, rest. auto.
Qed.

Lemma read_loop_counts_bytes_witness :
  exists rd es,
    read_loop sample_job (pcm_stream sample_job) (mkRead [] 0 0%Q (mkCounters 0 0))
    = (Some rd, es) /\
    total_bytes rd = 10%Z /\ all_chunks rd = ["aaaa"; "bbbb"; "cc"].
Proof.
  destruct (read_loop sample_job (pcm_stream sample_job)
              (mkRead [] 0 0%Q (mkCounters 0 0))) as [[rd|] es] eqn:E;
    [| vm_compute in E; discriminate].
  exists rd, es. split; [reflexivity |].
  destruct (read_loop_counts_bytes sample_job _ _ rd es E eq_refl) as (Hb & _).
  vm_compute in E. injection E as <- <-. split; reflexivity.
Defined.

(** X13: when the processing loop ends normally, the results it holds are
    the results it held before followed by the non-empty utterance texts of
    the chunks it processed, in chunk order; without cancellation it has
    processed every chunk. *)
Theorem process_loop_accumulates (w : JobWorld) (n : nat) (chunks : list string) :
  forall (i : nat) (st pr : process_state) (es : list effect),
    process_loop w chunks i n st = (Some pr, es) ->
    exists k : nat,
      (k <= List.length chunks)%nat /\
      all_results pr = all_results st ++ heard w i k /\
      ((forall p, flag w p = true) -> k = List.length chunks).
Proof.
  induction chunks as [|chunk rest IH]; intros i st pr es H; cbn [process_loop] in H.
  - injection H as <- <-. exists 0%nat. simpl. rewrite app_nil_r. auto.
  - destruct (flag w (polls (process_counters st))) eqn:Ef; cbn [negb] in H.
    2:{ injection H as <- <-. exists 0%nat. simpl. rewrite app_nil_r.
        repeat split; [lia |]. intros Hall. rewrite Hall in Ef. discriminate. }
    destruct (accept_waveform w i) as [| |text] eqn:Ea; [discriminate | |].
    all: destruct (Qle_bool _ _);
      destruct (process_loop w rest (S i) n _) as [r' es'] eqn:Er;
      injection H as -> <-;
      destruct (IH _ _ _ _ Er) as (k & Hk & Hres & Hall);
      exists (S k); cbn [heard all_results] in *; rewrite Ea;
      (split; [simpl; lia |]); (split; [| intros Hf; simpl; f_equal; auto]).
    all: try exact Hres.
    all: rewrite Hres; destruct (truthy text);
      [rewrite <- app_assoc; reflexivity | reflexivity].
Qed.

(** X14: when the job is cancelled while the converter is still running,
    the worker terminates the converter, stops with the single progress
    value 5, shows no text and does its cleanup. *)
Theorem cancel_while_converting (w : JobWorld) (self : transcriber) (k : nat) :
  recognizer_has_transcribe_file w = false ->
  mkstemp_ok w = true -> popen_ok w = true ->
  (k < conv_waits w)%nat -> flag w k = false ->
  signals_has_finished self = true ->
  let '(e, self', es) := _transcribe_file_thread w self in
  e = Stopped /\
  progress_values es = [5%Z] /\
  In (Terminate converter_pid) es /\
  (forall text, ~ In (Emit (new_text text)) es) /\
  is_transcribing self' = false /\ temp_files self' = [].
Proof.
  intros Hrec Hmk Hpo Hk Hflag Hfin.
  assert (Hwait : forall n p, (p <= k < p + n)%nat ->
                  (wait_converter w n p).1 = false).
  { induction n as [|n IHn]; intros p Hp; [lia |]. cbn [wait_converter].
    destruct (flag w p) eqn:Ef; [| reflexivity].
    apply IHn. assert (p <> k) by (intros ->; congruence). lia. }
  specialize (Hwait (conv_waits w) 0%nat ltac:(lia)).
  unfold _transcribe_file_thread, _transcribe_file_with_vosk, _convert_to_wav.
  rewrite Hrec, Hmk, Hpo. cbn [negb polls].
  destruct (wait_converter w (conv_waits w) 0) as [finished p]. simpl in Hwait.
  subst finished. cbn [negb]. cbn [signals_has_finished set_ffmpeg_process set_temp_files].
  rewrite Hfin.
  destruct (terminate_wait_ok (job_os w) converter_pid).
  all: destruct (_cleanup_temp_files (job_os w) _) as [self2 cl] eqn:Ec.
  all: pose proof (cleanup_values (job_os w)
                     (set_ffmpeg_process (Some converter_pid)
                        (set_temp_files (temp_files self ++ [temp_wav]) self))) as Hcv.
  all: rewrite Ec in Hcv; simpl in Hcv.
  all: unfold _cleanup_temp_files in Ec; injection Ec as <- Hcl.
  all: repeat split.
  all: try (rewrite !progress_values_app, Hcv; reflexivity).
  all: try (simpl; auto 10; fail).
  all: intros text Hin; simpl in Hin;
    repeat (destruct Hin as [Hin | Hin]; [discriminate |]);
    apply in_app_or in Hin as [Hin | Hin];
    [ subst cl; apply in_flat_map in Hin as (f & _ & Hf);
      destruct (file_exists (job_os w) f);
      [destruct Hf as [Hf | []]; discriminate | destruct Hf]
    | destruct Hin as [Hin | []]; discriminate ].
Qed.

Lemma cancel_while_converting_witness :
  let w := mkJobWorld false None (10 # 1)%Q (fun _ => false) (fun _ => 0%Q)
             true true true 3 0 [] (fun _ => NoUtterance) (Some EmptyString) quiet_os in
  let '(e, self', es) := _transcribe_file_thread w busy_transcriber in
  e = Stopped /\
  progress_values es = [5%Z] /\
  In (Terminate converter_pid) es /\
  (forall text, ~ In (Emit (new_text text)) es) /\
  is_transcribing self' = false /\ temp_files self' = [].
Proof.
  exact (cancel_while_converting
           (mkJobWorld false None (10 # 1)%Q (fun _ => false) (fun _ => 0%Q)
              true true true 3 0 [] (fun _ => NoUtterance) (Some EmptyString) quiet_os)
           busy_transcriber 0 eq_refl eq_refl eq_refl ltac:(simpl; lia) eq_refl eq_refl).
Defined.

Lemma process_loop_accumulates_witness :
  exists k : nat,
    (k <= 3)%nat /\
    all_results
      (default (mkProcess [] 0%Q (mkCounters 0 0))
         (process_loop sample_job ["aaaa"; "bbbb"; "cc"] 0 3
            (mkProcess [] 0%Q (mkCounters 0 0))).1)
    = [] ++ heard sample_job 0 k.
Proof.
  destruct (process_loop sample_job ["aaaa"; "bbbb"; "cc"] 0 3
              (mkProcess [] 0%Q (mkCounters 0 0))) as [[pr|] es] eqn:E;
    [| vm_compute in E; discriminate].
  destruct (process_loop_accumulates sample_job 3 _ _ _ pr es E) as (k & Hk & Hres & _).
  exists k. split; [exact Hk | exact Hres].
Defined.

End JobFacts.

(** ** Resolving the engine type, again *)
Section ResolveMore.
Import PyStr ASRModelManager.

Lemma set_current_engine_same (s : manager) (e : engine) :
  current_engine s = Some e -> set_current_engine (Some e) s = s.
Proof. destruct s. simpl. now intros ->. Qed.

Lemma set_model_type_same (s : manager) (t : option string) :
  model_type s = t -> set_model_type t s = s.
Proof. destruct s. simpl. now intros ->. Qed.

Lemma fix_vosk_engine_type_idem (e : engine) :
  fix_vosk_engine_type (fix_vosk_engine_type e) = fix_vosk_engine_type e.
Proof.
  unfold fix_vosk_engine_type.
  destruct (engine_type e) as [t|] eqn:Et; [| now rewrite Et].
  destruct (bool_decide (t = "vosk_small")) eqn:Eb; [now rewrite Et, Eb |].
  reflexivity.
Qed.

(** A declared, non-empty model type over an engine that is not a
    [VoskASR]: the declared type is returned and nothing changes. *)
Lemma get_current_engine_type_declared (s : manager) (e : engine) (d : string) :
  model_type s = Some d -> truthy d = true ->
  current_engine s = Some e -> engine_class_of e <> VoskASR ->
  exists evs, get_current_engine_type s = (Some d, s, evs).
Proof.
  intros Hm Ht He Hc.
  assert (Hv : is_instance VoskASR (Some e) = false).
  { unfold is_instance. now apply bool_decide_eq_false_2. }
  unfold get_current_engine_type, bind, get, modify, tell, ret, when.
  rewrite He, Hm, Hv. cbn [truthy_opt]. rewrite Ht.
  remember (infer_engine_type (Some e)) as inf eqn:Einf. clear Einf.
  destruct (is_match d e); [eauto |].
  destruct (truthy_opt inf) eqn:Ei; cbn.
  - destruct (bool_decide (Some d ≠ inf)) eqn:Eq; cbn; [eauto |].
    apply bool_decide_eq_false in Eq. apply dec_stable in Eq. subst inf. eauto.
  - eauto.
Qed.

(** A [VoskASR] engine whose attribute and declared type are already
    ["vosk_small"]. *)
Lemma get_current_engine_type_vosk_settled (s : manager) (e : engine) :
  current_engine s = Some e -> engine_class_of e = VoskASR ->
  engine_type e = Some "vosk_small" -> model_type s = Some "vosk_small" ->
  get_current_engine_type s = (Some "vosk_small", s, []).
Proof.
  intros He Hc Ht Hm.
  assert (Hv : is_instance VoskASR (Some e) = true).
  { unfold is_instance. now apply bool_decide_eq_true_2. }
  assert (Hf : fix_vosk_engine_type e = e).
  { unfold fix_vosk_engine_type. now rewrite Ht. }
  unfold get_current_engine_type, bind, get, modify, tell, ret, when.
  rewrite He, Hv, Hm. cbn -[fix_vosk_engine_type set_current_engine].
  rewrite He. cbn -[fix_vosk_engine_type set_current_engine].
  rewrite Hf, (set_current_engine_same s e He).
  reflexivity.
Qed.

(** X15: [get_current_engine_type] settles after one call: called again
    right away it returns the same type and changes nothing. *)
Theorem get_current_engine_type_stable (s : manager) :
  let '(r1, s1, _) := get_current_engine_type s in
  exists evs2, get_current_engine_type s1 = (r1, s1, evs2).
Proof.
  destruct (current_engine s) as [e|] eqn:He.
  2:{ rewrite (get_current_engine_type_no_engine s He).
      rewrite (get_current_engine_type_no_engine s He). eauto. }
  destruct (decide (engine_class_of e = VoskASR)) as [Hc | Hc].
  - assert (Hv : is_instance VoskASR (Some e) = true).
    { unfold is_instance. now apply bool_decide_eq_true_2. }
    assert (Hfix : engine_class_of (fix_vosk_engine_type e) = VoskASR /\
                   (engine_type e <> None ->
                    engine_type (fix_vosk_engine_type e) = Some "vosk_small")).
    { unfold fix_vosk_engine_type. destruct (engine_type e) as [t|] eqn:Et.
      - destruct (bool_decide (t = "vosk_small")) eqn:Eb.
        + apply bool_decide_eq_true in Eb. subst t. split; [exact Hc | now rewrite Et].
        + split; [exact Hc | reflexivity].
      - split; [exact Hc | congruence]. }
    destruct (get_current_engine_type s) as [[r1 s1] ev1] eqn:E1.
    unfold get_current_engine_type, bind, get, modify, tell, ret, when in E1.
    rewrite He, Hv in E1. cbn in E1.
    assert (Hs1 : r1 = Some "vosk_small" /\
                  current_engine s1 = Some (fix_vosk_engine_type e) /\
                  model_type s1 = Some "vosk_small").
    { destruct (bool_decide (model_type s ≠ Some "vosk_small")) eqn:Em;
        injection E1 as <- <- <-; cbn; rewrite ?He; cbn; repeat split.
      apply bool_decide_eq_false in Em. now apply dec_stable in Em. }
    destruct Hs1 as (-> & He1 & Hm1). clear E1.
    unfold get_current_engine_type, bind, get, modify, tell, ret, when.
    rewrite He1. unfold is_instance.
    rewrite (bool_decide_eq_true_2 _ (proj1 Hfix)), Hm1. cbn.
    rewrite He1. cbn. rewrite fix_vosk_engine_type_idem.
    rewrite (set_current_engine_same s1 _ He1). eauto.
  - assert (Hv : is_instance VoskASR (Some e) = false).
    { unfold is_instance. now apply bool_decide_eq_false_2. }
    destruct (truthy_opt (model_type s)) eqn:Ht.
    + destruct (model_type s) as [d|] eqn:Hm; [| discriminate]. cbn in Ht.
      destruct (get_current_engine_type_declared s e d Hm Ht He Hc) as [evs E].
      rewrite E. rewrite E. eauto.
    + remember (infer_engine_type (Some e)) as inf eqn:Einf.
      assert (E1 : get_current_engine_type s
                   = if truthy_opt inf then (inf, set_model_type inf s, [])
                     else (None, s, [])).
      { unfold get_current_engine_type, bind, get, modify, tell, ret, when.
        rewrite He, Hv, <- Einf.
        destruct (model_type s) as [d|] eqn:Hm; cbn [truthy_opt] in *;
          rewrite ?Ht; cbn [negb andb];
          destruct (truthy_opt inf); cbn; reflexivity. }
      rewrite E1. destruct (truthy_opt inf) eqn:Ei.
      * destruct inf as [t|]; [| discriminate]. cbn in Ei.
        destruct (get_current_engine_type_declared (set_model_type (Some t) s) e t)
          as [evs E]; try assumption; try reflexivity.
        cbv beta iota zeta. eauto.
      * cbv beta iota zeta. rewrite E1, ?Ei. eauto.
Qed.

(** X16: when a non-empty model type is declared, [initialize_engine]
    ignores a different requested engine type: it logs two warnings and
    then does exactly what it does when asked for the declared type. *)
Theorem initialize_engine_follows_declared (w : World) (s : manager)
  (declared requested : string) :
  model_type s = Some declared -> truthy declared = true ->
  requested <> declared ->
  initialize_engine w requested s
  = let '(ok, s', evs) := initialize_engine w declared s in
    (ok, s',
     log_warning "model type differs from engine type"
     :: log_warning "model type differs from requested engine type" :: evs).
Proof.
  intros Hm Ht Hne. unfold initialize_engine, bind, get, tell, ret.
  rewrite Hm, Ht, String.eqb_refl.
  rewrite (proj2 (String.eqb_neq declared requested)) by congruence.
  cbn [negb andb]. cbv beta iota zeta.
  destruct (models_config s !! declared) as [cfg|]; [| reflexivity].
  destruct (negb (cfg_enabled cfg)); [reflexivity |].
  destruct ((if (declared =? "vosk")%string || (declared =? "vosk_small")%string
             then construct_vosk w cfg declared
             else _) s) as [[a s1] l1].
  destruct a; [destruct (reconcile_engine_type declared s1) as [[u s3] l0] | |];
    reflexivity.
Qed.

Lemma initialize_engine_follows_declared_witness :
  initialize_engine sample_world "vosk_small" std_under_int8
  = let '(ok, s', evs) := initialize_engine sample_world "sherpa_onnx_int8" std_under_int8 in
    (ok, s',
     log_warning "model type differs from engine type"
     :: log_warning "model type differs from requested engine type" :: evs).
Proof.
  exact (initialize_engine_follows_declared sample_world std_under_int8
           "sherpa_onnx_int8" "vosk_small" eq_refl eq_refl ltac:(discriminate)).
Defined.

End ResolveMore.

(** ** A successful load *)
Section LoadSuccess.
Import PyStr ASRModelManager.

Lemma validate_model_path_vosk (w : World) (s : manager) (path : string) :
  _validate_model_path w s path (Some "vosk") = false.
Proof.
  unfold _validate_model_path.
  destruct (negb (truthy path)); [reflexivity |].
  destruct (negb (path_exists w path)); reflexivity.
Qed.

Lemma startswith_sherpa_truthy (t : string) :
  startswith "sherpa" t = true -> truthy t = true.
Proof. destruct t; [discriminate | reflexivity]. Qed.

(** When the resolved type is the requested one, the last part of
    [initialize_engine] changes nothing. *)
Lemma reconcile_engine_type_settled (s : manager) (t : string) (ev : list event) :
  get_current_engine_type s = (Some t, s, ev) ->
  reconcile_engine_type t s = (tt, s, ev ++ []).
Proof.
  intros H. unfold reconcile_engine_type, bind, when. rewrite H.
  rewrite bool_decide_eq_false_2 by (intros Hn; now apply Hn). reflexivity.
Qed.

Lemma construct_vosk_success (w : World) (cfg : model_cfg) (t : string)
  (s s' : manager) (evs : list event) :
  construct_vosk w cfg t s = (Constructed, s', evs) ->
  exists path e,
    cfg_path cfg = Some path /\ path_exists w path = true /\
    _validate_model_path w s path (Some t) = true /\
    s' = set_current_engine (Some e) s /\
    engine_class_of e = VoskASR /\ engine_type e = Some "vosk_small" /\
    vosk_model e = true /\ vosk_recognizer e = true.
Proof.
  unfold construct_vosk, bind, get, modify, tell, ret, _validate_model_path_call, logged.
  destruct (cfg_path cfg) as [path|]; [| discriminate].
  destruct (path_exists w path) eqn:Ep; [| discriminate]. cbn [negb].
  cbv beta iota zeta.
  destruct (_validate_model_path w s path (Some t)) eqn:Ev; [| discriminate]. cbn [negb].
  destruct (VoskASR_init w path) as [e0|]; [| discriminate]. cbv beta iota zeta.
  destruct (vosk_model (as_class VoskASR e0)) eqn:Em; [| discriminate].
  destruct (vosk_recognizer (as_class VoskASR e0)) eqn:Er; [| discriminate].
  cbn [negb orb]. intros [= <- <-].
  exists path, (set_engine_type "vosk_small" (as_class VoskASR e0)).
  repeat split; try assumption; try (destruct s; reflexivity).
Qed.

Lemma construct_sherpa_success (w : World) (cfg : model_cfg) (t : string)
  (s s' : manager) (evs : list event) :
  construct_sherpa w cfg t s = (Constructed, s', evs) ->
  exists path e,
    cfg_path cfg = Some path /\ path_exists w path = true /\
    _validate_model_path w s path (Some t) = true /\
    s' = set_current_engine (Some e) s /\
    engine_class_of e = SherpaOnnxASR.
Proof.
  unfold construct_sherpa, bind, get, modify, tell, ret, _validate_model_path_call, logged.
  destruct (cfg_path cfg) as [path|]; [| discriminate].
  destruct (path_exists w path) eqn:Ep; [| discriminate]. cbn [negb].
  cbv beta iota zeta.
  destruct (_validate_model_path w s path (Some t)) eqn:Ev; [| discriminate]. cbn [negb].
  destruct (sherpa_kind t) as [kind name].
  destruct (SherpaOnnxASR_init w path _) as [e0|]; [| discriminate]. cbv beta iota zeta.
  destruct (SherpaOnnxASR_setup w (as_class SherpaOnnxASR e0)) as [e1 [[|]|]];
    cbv beta iota zeta; try discriminate.
  intros [= <- <-].
  exists path, (as_class SherpaOnnxASR e1).
  repeat split; try assumption; try (destruct s; reflexivity).
Qed.

(** [initialize_engine] for the declared type, when it succeeds. *)
Lemma initialize_engine_success (w : World) (t : string) (s s' : manager)
  (evs : list event) :
  model_type s = Some t ->
  initialize_engine w t s = (true, s', evs) ->
  exists cfg path e,
    models_config s !! t = Some cfg /\ cfg_enabled cfg = true /\
    cfg_path cfg = Some path /\ path_exists w path = true /\
    _validate_model_path w s path (Some t) = true /\
    s' = set_current_engine (Some e) s /\ engine_installed t e.
Proof.
  intros Hm. unfold initialize_engine, bind, get, tell, ret. rewrite Hm.
  rewrite String.eqb_refl, andb_false_r. cbv beta iota zeta.
  destruct (models_config s !! t) as [cfg|]; [| discriminate].
  destruct (cfg_enabled cfg) eqn:Een; [| discriminate]. cbn [negb].
  destruct (String.eqb t "vosk" || String.eqb t "vosk_small") eqn:Ekind.
  - destruct (construct_vosk w cfg t s) as [[out s1] ev1] eqn:Ec.
    destruct out; try discriminate.
    apply construct_vosk_success in Ec
      as (path & e & Hp & Hex & Hv & -> & Hc & Het & Hmo & Hre).
    assert (Ht : t = "vosk_small").
    { apply orb_prop in Ekind as [Hk | Hk]; apply String.eqb_eq in Hk; [| exact Hk].
      subst t. rewrite validate_model_path_vosk in Hv. discriminate. }
    subst t.
    rewrite (reconcile_engine_type_settled _ "vosk_small" [])
      by (apply (get_current_engine_type_vosk_settled _ e); auto).
    intros [= <- <-]. exists cfg, path, e. repeat split; auto.
    left. auto.
  - destruct (startswith "sherpa" t) eqn:Esh; [| discriminate].
    destruct (construct_sherpa w cfg t s) as [[out s1] ev1] eqn:Ec.
    destruct out; try discriminate.
    apply construct_sherpa_success in Ec as (path & e & Hp & Hex & Hv & -> & Hc).
    destruct (get_current_engine_type_declared (set_current_engine (Some e) s) e t)
      as [ev Hg]; auto using startswith_sherpa_truthy.
    { rewrite Hc. discriminate. }
    rewrite (reconcile_engine_type_settled _ t ev Hg).
    intros [= <- <-]. exists cfg, path, e. repeat split; auto.
    right. auto.
Qed.

(** [load_model] when it succeeds. *)
Lemma load_model_success_shape (w : World) (model_name : string) (s s' : manager)
  (evs : list event) :
  load_model w model_name s = (true, s', evs) ->
  exists cfg path e,
    models_config s !! model_name = Some cfg /\ cfg_enabled cfg = true /\
    cfg_path cfg = Some path /\ truthy path = true /\ path_exists w path = true /\
    validate_model_files w s path (Some model_name) = true /\
    _validate_model_path w s path (Some model_name) = true /\
    engine_installed model_name e /\
    s' = set_current_model true
           (set_current_engine (Some e)
              (set_model_type (Some model_name)
                 (set_current_model_type (Some model_name) s))).
Proof.
  intros H.
  destruct (models_config s !! model_name) as [cfg|] eqn:Ecfg.
  2:{ unfold load_model, bind, get, tell, ret in H. rewrite Ecfg in H. discriminate. }
  set (path := default EmptyString (cfg_path cfg)).
  assert (Hchecks : truthy path = true /\ path_exists w path = true /\
                    validate_model_files w s path (Some model_name) = true).
  { unfold load_model, bind, get, tell, ret, validate_model_files_call, logged in H.
    rewrite Ecfg in H.
    replace (match cfg_path cfg with Some p => p | None => EmptyString end)
      with path in H by (unfold path; now destruct (cfg_path cfg)).
    destruct (truthy path); [| discriminate].
    destruct (path_exists w path); [| discriminate].
    cbn [negb] in H. cbv beta iota zeta in H.
    destruct (validate_model_files w s path (Some model_name)); [| discriminate].
    auto. }
  destruct Hchecks as (Ht & Hex & Hv).
  rewrite (load_model_after_validation w model_name s cfg Ecfg Ht Hex Hv) in H.
  set (s1 := set_model_type (Some model_name)
               (set_current_model_type (Some model_name) s)) in *.
  destruct (initialize_engine w model_name s1) as [[ok s2] ev] eqn:Ei.
  destruct ok; [| discriminate]. injection H as <- <-.
  apply initialize_engine_success in Ei
    as (cfg' & path' & e & Hc' & Hen & Hp & Hex' & Hv' & -> & Hinst); [| reflexivity].
  change (models_config s1) with (models_config s) in Hc'.
  rewrite Ecfg in Hc'. injection Hc' as <-.
  assert (path' = path) by (unfold path; now rewrite Hp). subst path'.
  exists cfg, path, e. repeat split; auto.
Qed.

(** X17: [load_model] succeeds only for an entry that is configured and
    enabled, whose path exists and passes both validators, and whose name is
    ["vosk_small"] or starts with ["sherpa"]; the engine it installs is of
    the class that belongs to the name. *)
Theorem load_model_only_valid (w : World) (model_name : string) (s s' : manager)
  (evs : list event) :
  load_model w model_name s = (true, s', evs) ->
  exists cfg path e,
    models_config s !! model_name = Some cfg /\ cfg_enabled cfg = true /\
    cfg_path cfg = Some path /\ path_exists w path = true /\
    validate_model_files w s path (Some model_name) = true /\
    _validate_model_path w s path (Some model_name) = true /\
    (model_name = "vosk_small" \/ startswith "sherpa" model_name = true) /\
    current_engine s' = Some e /\
    engine_class_of e = (if String.eqb model_name "vosk_small" then VoskASR
                         else SherpaOnnxASR).
Proof.
  intros H.
  destruct (load_model_success_shape w model_name s s' evs H)
    as (cfg & path & e & Hc & Hen & Hp & Ht & Hex & Hv & Hv' & Hinst & ->).
  exists cfg, path, e. repeat split; auto.
  - destruct Hinst as [(-> & _) | (Hs & _)]; auto.
  - destruct Hinst as [(-> & Hcl & _) | (Hs & Hcl)]; [exact Hcl |].
    destruct (String.eqb_spec model_name "vosk_small") as [-> |]; [discriminate | exact Hcl].
Qed.

(** X18: after a successful [load_model(name)] the manager reports that
    model: [model_type] is [name], [current_model] is set, and
    [get_current_engine_type] returns [name] without changing anything. *)
Theorem load_model_then_resolve (w : World) (model_name : string) (s s' : manager)
  (evs : list event) :
  load_model w model_name s = (true, s', evs) ->
  model_type s' = Some model_name /\ current_model s' = true /\
  models_config s' = models_config s /\
  exists evs2, get_current_engine_type s' = (Some model_name, s', evs2).
Proof.
  intros H.
  destruct (load_model_success_shape w model_name s s' evs H)
    as (cfg & path & e & Hc & Hen & Hp & Ht & Hex & Hv & Hv' & Hinst & ->).
  repeat split.
  destruct Hinst as [(-> & Hcl & Het & _) | (Hs & Hcl)].
  - exists []. now apply (get_current_engine_type_vosk_settled _ e).
  - apply (get_current_engine_type_declared _ e); auto using startswith_sherpa_truthy.
    rewrite Hcl. discriminate.
Qed.

Lemma load_model_only_valid_witness :
  exists s' evs cfg,
    load_model sample_world "vosk_small" fresh_manager = (true, s', evs) /\
    models_config fresh_manager !! "vosk_small" = Some cfg /\ cfg_enabled cfg = true.
Proof.
  destruct (load_model sample_world "vosk_small" fresh_manager) as [[ok s'] evs] eqn:E.
  assert (Hok : ok = true) by (vm_compute in E; congruence). subst ok.
  destruct (load_model_only_valid _ _ _ _ _ E) as (cfg & path & e & Hc & Hen & _).
  exists s', evs, cfg. auto.
Defined.

Lemma load_model_then_resolve_witness :
  exists s' evs,
    load_model sample_world "vosk_small" fresh_manager = (true, s', evs) /\
    model_type s' = Some "vosk_small" /\ current_model s' = true.
Proof.
  destruct (load_model sample_world "vosk_small" fresh_manager) as [[ok s'] evs] eqn:E.
  assert (Hok : ok = true) by (vm_compute in E; congruence). subst ok.
  destruct (load_model_then_resolve _ _ _ _ _ E) as (Hm & Hcm & _).
  exists s', evs. auto.
Defined.

End LoadSuccess.

(** ** File transcription: what a result presupposes *)
Section TranscribeFileMore.
Import PyStr ASRModelManager.

(** X19: whenever the manager's [transcribe_file] returns a text, the file
    exists and the engine that is loaded afterwards has [transcribe_file];
    in particular it returns [None] when no engine could be initialised. *)
Theorem transcribe_file_text_needs (w : World) (file_path : string) (s : manager) :
  let '(r, s', evs) := transcribe_file w file_path s in
  forall text : string,
    r = Some text ->
    path_exists w file_path = true /\
    exists e, current_engine s' = Some e /\ has_transcribe_file e = true.
Proof.
  unfold transcribe_file, bind, get.
  destruct (when _ _ s) as [[u s1] ev0].
  destruct (current_engine s1) as [e1|] eqn:He1; [| intros text; discriminate].
  destruct (get_current_engine_type s1) as [[r1 s2] ev1] eqn:Eg.
  destruct (get_current_engine_type_agrees s1 e1 r1 s2 ev1 He1 Eg)
    as (Hce & _ & Hagree & _).
  rewrite Hagree. unfold ret at 1. cbv beta iota zeta. rewrite Hce.
  destruct (has_transcribe_file (engine_after_resolve e1)) eqn:Htf;
    [| intros text; discriminate].
  cbn [negb].
  destruct (delegate_file w (engine_after_resolve e1) r1 file_path) as [result dl] eqn:Ed.
  unfold tell_all, ret. cbv beta iota zeta. intros text ->.
  split; [| eauto].
  unfold delegate_file in Ed. destruct (path_exists w file_path); [reflexivity | discriminate].
Qed.

Lemma transcribe_file_text_needs_witness :
  (transcribe_file sample_world "/audio/talk.wav" std_manager).1.1 = Some "hello world" /\
  path_exists sample_world "/audio/talk.wav" = true.
Proof.
  split; [vm_compute; reflexivity |].
  pose proof (transcribe_file_text_needs sample_world "/audio/talk.wav" std_manager) as H.
  destruct (transcribe_file sample_world "/audio/talk.wav" std_manager)
    as [[r s'] evs] eqn:E.
  assert (Hr : r = Some "hello world") by (vm_compute in E; congruence).
  exact (proj1 (H _ Hr)).
Defined.

End TranscribeFileMore.

(** ** Model files *)
Section ModelFilesFacts.
Import PyStr ASRModelManager.

Lemma vosk_layout_ok_iff (w : World) (path : string) :
  vosk_layout_ok w path = true <->
  path_exists w path = true /\ path_isdir w path = true /\
  path_exists w (path_join path "am") = true /\
  path_isdir w (path_join path "am") = true /\
  path_exists w (path_join (path_join path "am") "final.mdl") = true.
Proof.
  unfold vosk_layout_ok.
  destruct (path_exists w path), (path_isdir w path),
    (path_exists w (path_join path "am")), (path_isdir w (path_join path "am")),
    (path_exists w (path_join (path_join path "am") "final.mdl"));
    cbn; intuition discriminate.
Qed.

Lemma sherpa_layout_ok_iff (w : World) (s : manager) (path kind : string) :
  sherpa_layout_ok w s path kind = true <->
  forall f, In f (sherpa_required_files (contains "0626" kind) (configured_int8 s kind)) ->
            path_exists w (path_join path f) = true.
Proof. unfold sherpa_layout_ok, configured_int8. now rewrite forallb_forall. Qed.

(** X20: [validate_model_files] passes exactly when the path exists and
    the layout it selects is complete: for the kind ["vosk_small"] or a path
    containing "vosk", the path is a directory with a subdirectory [am] that
    holds [final.mdl]; otherwise the kind starts with ["sherpa"] and every
    file of the template of the configured quantization ([configured_int8])
    exists under the path.  For a non-empty path that does not contain
    "vosk" the verdict is the one of [_validate_model_path]. *)
Theorem validation_guarantees_files (w : World) (s : manager) (path kind : string) :
  (validate_model_files w s path (Some kind) = true <->
   path_exists w path = true /\
   ((kind = "vosk_small" \/ contains "vosk" (lower path) = true) /\
    path_isdir w path = true /\
    path_exists w (path_join path "am") = true /\
    path_isdir w (path_join path "am") = true /\
    path_exists w (path_join (path_join path "am") "final.mdl") = true
    \/
    kind <> "vosk_small" /\ contains "vosk" (lower path) = false /\
    startswith "sherpa" kind = true /\
    forall f, In f (sherpa_required_files (contains "0626" kind) (configured_int8 s kind)) ->
              path_exists w (path_join path f) = true)) /\
  (truthy path = true -> contains "vosk" (lower path) = false ->
   validate_model_files w s path (Some kind)
   = _validate_model_path w s path (Some kind)).
Proof.
  split; [| intros Ht Hv; now apply validate_model_files_by_kind].
  unfold validate_model_files.
  destruct (path_exists w path) eqn:Ep; cbn [negb].
  2:{ split; [discriminate | intros [H _]; discriminate]. }
  assert (Hk : bool_decide (Some kind = Some "vosk_small") = true <-> kind = "vosk_small").
  { rewrite bool_decide_eq_true. split; congruence. }
  destruct (bool_decide (Some kind = Some "vosk_small") || contains "vosk" (lower path))
    eqn:Ek.
  - rewrite vosk_layout_ok_iff. apply orb_prop in Ek. rewrite Hk in Ek.
    split.
    + intros (_ & H). split; [reflexivity |]. left. split; [| exact H].
      destruct Ek; auto.
    + intros [_ [(_ & H) | (Hn & Hc & _)]]; [split; [exact Ep | exact H] |].
      destruct Ek; congruence.
  - apply orb_false_elim in Ek as [Ek1 Ek2].
    assert (Hn : kind <> "vosk_small").
    { intros E. apply Hk in E. congruence. }
    destruct (startswith "sherpa" kind) eqn:Es.
    + rewrite (startswith_sherpa_truthy _ Es). cbn [andb]. rewrite sherpa_layout_ok_iff.
      split.
      * intros H. split; [reflexivity |]. right. auto.
      * intros [_ [([H | H] & _) | (_ & _ & _ & H)]]; [congruence | congruence | exact H].
    + rewrite andb_false_r. split; [discriminate |].
      intros [_ [([H | H] & _) | (_ & _ & H & _)]]; congruence.
Qed.

(** X24: the validators write exactly one error entry when they fail and
    none when they pass. *)
Theorem validation_logs_one_error (w : World) (s : manager) (path : string)
  (kind : option string) :
  (if validate_model_files w s path kind
   then validate_model_files_log w s path kind = []
   else exists msg, validate_model_files_log w s path kind = [log_error msg]) /\
  (if _validate_model_path w s path kind
   then _validate_model_path_log w s path kind = []
   else exists msg, _validate_model_path_log w s path kind = [log_error msg]).
Proof.
  assert (Hv : forall p, if vosk_layout_ok w p then vosk_layout_log w p = []
                         else exists msg, vosk_layout_log w p = [log_error msg]).
  { intros p. unfold vosk_layout_ok, vosk_layout_log.
    destruct (path_exists w p && path_isdir w p); [| eauto].
    destruct (path_exists w (path_join p "am") && path_isdir w (path_join p "am"));
      [| eauto].
    destruct (path_exists w (path_join (path_join p "am") "final.mdl")); eauto. }
  assert (Hs : forall p k, if sherpa_layout_ok w s p k then sherpa_layout_log w s p k = []
                           else exists msg, sherpa_layout_log w s p k = [log_error msg]).
  { intros p k. unfold sherpa_layout_log. destruct (sherpa_layout_ok w s p k); eauto. }
  split.
  - unfold validate_model_files, validate_model_files_log.
    destruct (negb (path_exists w path)); [eauto |].
    destruct (bool_decide _ || contains "vosk" (lower path)); [apply Hv |].
    destruct (match kind with None => model_type s | Some t => Some t end) as [k|];
      [| eauto].
    destruct (truthy k && startswith "sherpa" k); [apply Hs | eauto].
  - unfold _validate_model_path, _validate_model_path_log.
    destruct (negb (truthy path)); [eauto |].
    destruct (negb (path_exists w path)); [eauto |].
    destruct (bool_decide _); [apply Hv |].
    destruct (match kind with None => model_type s | Some t => Some t end) as [k|];
      [| eauto].
    destruct (truthy k && startswith "sherpa" k); [apply Hs | eauto].
Qed.

Lemma validation_guarantees_files_witness :
  validate_model_files sample_world fresh_manager "/models/sherpa-std"
    (Some "sherpa_onnx_std") = true /\
  path_exists sample_world "/models/sherpa-std" = true.
Proof.
  split; [reflexivity |].
  exact (proj1 (proj1 (proj1 (validation_guarantees_files sample_world fresh_manager
                                "/models/sherpa-std" "sherpa_onnx_std")) eq_refl)).
Defined.

(** X21: when the configuration does not name all three model files,
    [_load_sherpa_model] looks for its default encoder, decoder and joiner
    files under their bare names, not under [model_path]: if none of the
    default encoder names exists as a path by itself, it returns [None]
    whatever [model_path] holds.  When the three files are named and relative,
    a returned recognizer means they exist under [model_path]. *)
Theorem load_sherpa_model_file_lookup (w : World) (has_sherpa_onnx : bool)
  (from_transducer : string -> string -> string -> string -> option nat)
  (model_path : string) (cfg : sherpa_model_config) :
  (names_all_files (smc_section cfg) = false ->
   (forall n, In n default_encoder_names -> path_exists w n = false) ->
   _load_sherpa_model w has_sherpa_onnx from_transducer model_path cfg = None) /\
  (forall enc dec joi m,
     sec_encoder (smc_section cfg) = Some enc ->
     sec_decoder (smc_section cfg) = Some dec ->
     sec_joiner (smc_section cfg) = Some joi ->
     _load_sherpa_model w has_sherpa_onnx from_transducer model_path cfg = Some m ->
     has_sherpa_onnx = true /\
     path_exists w (under model_path enc) = true /\
     path_exists w (under model_path dec) = true /\
     path_exists w (under model_path joi) = true /\
     path_exists w (under model_path (default "tokens.txt" (sec_tokens (smc_section cfg))))
     = true).
Proof.
  split.
  - intros Hnames Hnone. unfold _load_sherpa_model.
    destruct has_sherpa_onnx; [| reflexivity]. cbn [negb].
    assert (Henc : exists enc dec joi,
               sherpa_model_files model_path cfg = (enc, dec, joi) /\
               In enc default_encoder_names).
    { unfold sherpa_model_files, names_all_files in *.
      destruct (sec_encoder (smc_section cfg)) as [e|];
        destruct (sec_decoder (smc_section cfg)) as [d|];
        destruct (sec_joiner (smc_section cfg)) as [j|]; try discriminate.
      all: destruct (contains "0626" _ || _);
        [eexists _, _, _; split; [reflexivity | simpl; auto] |].
      all: destruct (String.eqb _ "int8");
        eexists _, _, _; (split; [reflexivity | simpl; auto]). }
    destruct Henc as (enc & dec & joi & -> & Hin).
    cbn [forallb]. now rewrite (Hnone enc Hin).
  - intros enc dec joi m He Hd Hj. unfold _load_sherpa_model.
    destruct has_sherpa_onnx; [| discriminate]. cbn [negb].
    unfold sherpa_model_files. rewrite He, Hd, Hj. cbn [forallb].
    destruct (path_exists w (under model_path enc)); [| discriminate].
    destruct (path_exists w (under model_path dec)); [| discriminate].
    destruct (path_exists w (under model_path joi)); [| discriminate].
    destruct (path_exists w (under model_path _)); [| discriminate].
    auto.
Qed.

Lemma load_sherpa_model_file_lookup_witness :
  _load_sherpa_model sample_world true (fun _ _ _ _ => Some 1%nat)
    "/models/sherpa-std"
    (mkSherpaConfig (Some "standard") None (mkSection None None None None)) = None.
Proof.
  apply (proj1 (load_sherpa_model_file_lookup sample_world true
                  (fun _ _ _ _ => Some 1%nat) "/models/sherpa-std"
                  (mkSherpaConfig (Some "standard") None
                     (mkSection None None None None)))).
  - reflexivity.
  - intros n [<- | [<- | [<- | []]]]; reflexivity.
Defined.

End ModelFilesFacts.

(** ** The Vosk path from conversion to the final text *)
Section PipelineFacts.
Import PyStr FormatText FileTranscriber.

(** The converter is waited for to its end exactly when the flag is set at
    each of the tests made while waiting. *)
Lemma wait_converter_finished (w : JobWorld) (n p : nat) :
  (wait_converter w n p).1 = true <-> forall k, (k < n)%nat -> flag w (p + k) = true.
Proof.
  revert p. induction n as [|n IH]; intros p; cbn [wait_converter].
  - split; [intros _ k Hk; lia | reflexivity].
  - destruct (flag w p) eqn:Ef.
    + rewrite IH. split.
      * intros H k Hk. destruct k as [|k]; [now rewrite Nat.add_0_r |].
        replace (p + S k)%nat with (S p + k)%nat by lia. apply H. lia.
      * intros H k Hk. replace (S p + k)%nat with (p + S k)%nat by lia. apply H. lia.
    + split; [discriminate |]. intros H. specialize (H 0%nat ltac:(lia)).
      rewrite Nat.add_0_r in H. congruence.
Qed.

(** X22: [_convert_to_wav] hands back a WAV file exactly when the temporary
    file and the converter process could be made, the job was not cancelled
    at any test while waiting, and the converter exited with code 0; and
    whenever the temporary file was made it is on the list of files to clean
    up, also when the conversion fails. *)
Theorem convert_to_wav_succeeds_iff (w : JobWorld) (self : transcriber) (c : counters) :
  let '(wav, self', _, _) := _convert_to_wav w self c in
  (wav <> None <->
   mkstemp_ok w = true /\ popen_ok w = true /\
   (forall k, (k < conv_waits w)%nat -> flag w (polls c + k) = true) /\
   conv_returncode w = 0%Z) /\
  (if mkstemp_ok w then In temp_wav (temp_files self') else self' = self).
Proof.
  unfold _convert_to_wav.
  destruct (mkstemp_ok w); cbn [negb].
  2:{ split; [| reflexivity]. split; [congruence | intros (H & _); discriminate]. }
  destruct (popen_ok w); cbn [negb].
  2:{ split; [| simpl; apply in_or_app; right; now left].
      split; [congruence | intros (_ & H & _); discriminate]. }
  pose proof (wait_converter_finished w (conv_waits w) (polls c)) as Hw.
  destruct (wait_converter w (conv_waits w) (polls c)) as [finished p].
  simpl in Hw. destruct finished; cbn [negb].
  2:{ split; [| simpl; apply in_or_app; right; now left].
      split; [congruence |]. intros (_ & _ & H & _). apply Hw in H. discriminate. }
  destruct (Z.eqb_spec (conv_returncode w) 0) as [Hrc | Hrc]; cbn [negb].
  - split; [| simpl; apply in_or_app; right; now left].
    split; [intros _ | discriminate]. repeat split; auto. now apply Hw.
  - split; [| simpl; apply in_or_app; right; now left].
    split; [congruence | intros (_ & _ & _ & H); congruence].
Qed.

Lemma read_loop_returns (w : JobWorld) :
  Qeq_bool (duration w) 0 = false ->
  forall stream st, exists rd es, read_loop w stream st = (Some rd, es).
Proof.
  intros Hd. induction stream as [|chunk rest IH]; intros st; cbn [read_loop].
  - destruct (negb _); eauto.
  - destruct (negb (flag w _)); [eauto |].
    destruct (negb (truthy chunk)); [eauto |].
    destruct (Qle_bool _ _).
    + unfold read_progress. rewrite Hd.
      match goal with
      | |- context [read_loop w rest ?st'] => destruct (IH st') as (rd & es & ->)
      end. eauto.
    + apply IH.
Qed.

Lemma process_loop_returns (w : JobWorld) (n : nat) :
  (forall i, accept_waveform w i <> AcceptRaises) ->
  forall chunks i st, exists pr es, process_loop w chunks i n st = (Some pr, es).
Proof.
  intros Hacc. induction chunks as [|chunk rest IH]; intros i st; cbn [process_loop].
  - eauto.
  - destruct (negb (flag w _)); [eauto |].
    specialize (Hacc i).
    destruct (accept_waveform w i) as [| |text]; [congruence | |].
    all: destruct (Qle_bool _ _);
      match goal with
      | |- context [process_loop _ _ (S ?j) _ ?st'] =>
          destruct (IH (S j) st') as (pr & es & ->)
      end; eauto.
Qed.

(** X23: a Vosk job that is never cancelled, whose conversion and decoding
    start and succeed, whose duration is not zero and whose recognizer does
    not raise, runs to completion and shows as its last text the shaped join
    of the non-empty utterances of the chunks read (the decoder output up to
    its end or its first empty read), in chunk order, followed by the final
    result if that is non-empty; with no text at all it shows the no-result
    message. *)
Theorem vosk_job_final_text (w : JobWorld) (self : transcriber) (final_text : string) :
  recognizer_has_transcribe_file w = false ->
  mkstemp_ok w = true -> popen_ok w = true -> decoder_popen_ok w = true ->
  conv_returncode w = 0%Z ->
  (forall n, flag w n = true) ->
  Qeq_bool (duration w) 0 = false ->
  (forall i, accept_waveform w i <> AcceptRaises) ->
  final_result w = Some final_text ->
  let '(e, _, es) := _transcribe_file_thread w self in
  e = Completed /\
  exists taken rest,
    pcm_stream w = taken ++ rest /\
    (rest = [] \/ exists rest', rest = EmptyString :: rest') /\
    Forall (fun c => truthy c = true) taken /\
    In (Emit (match heard w 0 (List.length taken)
                    ++ (if truthy final_text then [final_text] else []) with
              | [] => new_text_no_result
              | results => new_text (_format_text (join_space results))
              end)) es.
Proof.
  intros Hrec Hmk Hpo Hdec Hrc Hflag Hd Hacc Hfin.
  unfold _transcribe_file_thread, _transcribe_file_with_vosk, _convert_to_wav.
  rewrite Hrec, Hmk, Hpo, Hrc. cbn [negb Z.eqb].
  pose proof (proj2 (wait_converter_finished w (conv_waits w) 0)
                (fun k _ => Hflag _)) as Hw.
  cbn [polls]. destruct (wait_converter w (conv_waits w) 0) as [finished p].
  simpl in Hw. subst finished. cbn [negb polls ticks].
  rewrite Hflag, Hdec. cbn [negb].
  destruct (read_loop_returns w Hd (pcm_stream w)
              (mkRead [] 0 (clock w 0) (mkCounters (S p) 1))) as (rd & e3 & Er).
  rewrite Er.
  destruct (read_loop_collects w _ _ _ _ Er)
    as (taken & rest & Hs & Ha & Hf & _ & Hend).
  simpl in Ha. rewrite Hflag. cbn [negb].
  destruct (process_loop_returns w (List.length (all_chunks rd)) Hacc (all_chunks rd) 0
              (mkProcess [] (last_update_time rd)
                 (mkCounters (S (polls (read_counters rd))) (ticks (read_counters rd)))))
    as (pr & e6 & Ep).
  rewrite Ep.
  destruct (process_loop_accumulates w _ _ _ _ _ _ Ep) as (k & _ & Hres & Hk).
  specialize (Hk Hflag). simpl in Hres. rewrite Hk, Ha in Hres.
  rewrite Hfin.
  destruct (_cleanup_temp_files (job_os w) _) as [self2 cl].
  split; [reflexivity |].
  exists taken, rest. repeat split; auto.
  rewrite Hres.
  replace (if truthy final_text then heard w 0 (List.length taken) ++ [final_text]
           else heard w 0 (List.length taken))
    with (heard w 0 (List.length taken) ++ (if truthy final_text then [final_text] else []))
    by (destruct (truthy final_text); [reflexivity | now rewrite app_nil_r]).
  apply in_or_app. left.
  do 7 (apply in_or_app; right). apply in_or_app. left.
  destruct (heard w 0 (List.length taken) ++ _); simpl; auto.
Qed.

Lemma vosk_job_final_text_witness :
  let '(e, _, es) := _transcribe_file_thread sample_job busy_transcriber in
  e = Completed /\
  exists taken rest,
    pcm_stream sample_job = taken ++ rest /\
    (rest = [] \/ exists rest', rest = EmptyString :: rest') /\
    Forall (fun c => truthy c = true) taken /\
    In (Emit (match heard sample_job 0 (List.length taken)
                    ++ (if truthy EmptyString then [EmptyString] else []) with
              | [] => new_text_no_result
              | results => new_text (_format_text (join_space results))
              end)) es.
Proof.
  apply (vosk_job_final_text sample_job busy_transcriber EmptyString);
    try reflexivity.
  intros i. simpl. destruct (i =? 1)%nat; discriminate.
Defined.

End PipelineFacts.

(** ** The engine list after a load *)
Section AvailableFacts.
Import PyStr ASRModelManager.

(** X6: [get_available_engines] has exactly the five fixed names as keys
    whatever is configured, and after a successful [load_model(name)] it
    maps [name] to [True] when [name] is one of the five; a loaded model of
    any other name (such as a name that merely starts with "sherpa") is not
    listed. *)
Theorem loaded_model_is_available (w : World) (model_name : string) (s s' : manager)
  (evs : list event) :
  load_model w model_name s = (true, s', evs) ->
  dom (get_available_engines s')
  = ({["vosk_small"; "sherpa_onnx_int8"; "sherpa_onnx_std";
       "sherpa_0626_int8"; "sherpa_0626_std"]} : gset string) /\
  get_available_engines s' !! model_name
  = if bool_decide (model_name ∈ ["vosk_small"; "sherpa_onnx_int8"; "sherpa_onnx_std";
                                  "sherpa_0626_int8"; "sherpa_0626_std"])
    then Some true else None.
Proof.
  intros H.
  destruct (load_model_success_shape w model_name s s' evs H)
    as (cfg & path & e & Hc & Hen & _ & _ & _ & _ & _ & _ & ->).
  destruct (get_available_engines_keys
              (set_current_model true
                 (set_current_engine (Some e)
                    (set_model_type (Some model_name)
                       (set_current_model_type (Some model_name) s)))))
    as [Hdom Hlook].
  split; [exact Hdom |].
  rewrite Hlook. destruct (bool_decide _); [| reflexivity].
  unfold engine_enabled. cbn [models_config set_current_model set_current_engine
                              set_model_type set_current_model_type].
  now rewrite Hc, Hen.
Qed.

Lemma loaded_model_is_available_witness :
  exists s' evs,
    load_model sample_world "vosk_small" fresh_manager = (true, s', evs) /\
    get_available_engines s' !! "vosk_small" = Some true.
Proof.
  destruct (load_model sample_world "vosk_small" fresh_manager) as [[ok s'] evs] eqn:E.
  assert (Hok : ok = true) by (vm_compute in E; congruence). subst ok.
  exists s', evs. split; [reflexivity |].
  exact (proj2 (loaded_model_is_available _ _ _ _ _ E)).
Defined.

End AvailableFacts.
